(** * WhatsApp auto-reply bot: message intake and auto-reply pipeline

    A shallow embedding of [src/lib/database.ts], [src/lib/whatsapp.ts]
    and [src/lib/message-processor.ts], and of the handlers of the API
    routes that call them, and the properties of the pipeline stated over
    it.

    Conventions of the embedding.
    - A JavaScript string is the list of its UTF-16 code units ([list N]);
      [js "..."] injects an ASCII literal.
    - The module-level arrays of [database.ts] and the static maps of
      [RateLimiter] and [MessageValidator] are the fields of one explicit
      store, [World], threaded through every operation.
    - What the program obtains from outside (the clock, [generateId], the
      [Intl] time-zone resolution, the HTTP answer of the Graph API) is
      read from an environment record [Env] supplied with each operation.
    - Every operation of the processor is taken as one atomic step; the
      interleavings of concurrent deliveries at the [await]s of the HTTP
      calls are outside the model. *)

From Stdlib Require Import ZArith NArith Strings.String Strings.Ascii.
From stdpp Require Import gmap list sorting.

Local Open Scope Z_scope.

(** ** JavaScript strings *)

Module JS.

Abbreviation JSString := (list N).

Definition js (s : string) : JSString :=
  N_of_ascii <$> list_ascii_of_string s.
Arguments js s%_string.

(** [WhiteSpace] and [LineTerminator] code points: what [\s] matches and
    what [String.prototype.trim] and [parseInt] strip. *)
Definition isWhiteSpace (c : N) : bool :=
  bool_decide (c ∈ [0x9; 0xA; 0xB; 0xC; 0xD; 0x20; 0xA0; 0x1680;
                    0x2000; 0x2001; 0x2002; 0x2003; 0x2004; 0x2005;
                    0x2006; 0x2007; 0x2008; 0x2009; 0x200A;
                    0x2028; 0x2029; 0x202F; 0x205F; 0x3000; 0xFEFF]%N).

(** What [.] does not match (no [s] flag). *)
Definition isLineTerminator (c : N) : bool :=
  bool_decide (c ∈ [0xA; 0xD; 0x2028; 0x2029]%N).

(** [\w], without the [u] flag: ASCII letters, digits and underscore. *)
Definition isWordChar (c : N) : bool :=
  ((0x30 <=? c) && (c <=? 0x39) || (0x41 <=? c) && (c <=? 0x5A)
   || (0x61 <=? c) && (c <=? 0x7A) || (c =? 0x5F))%N.

Fixpoint trimStart (s : JSString) : JSString :=
  match s with
  | c :: r => if isWhiteSpace c then trimStart r else s
  | [] => []
  end.

Definition trimEnd (s : JSString) : JSString :=
  reverse (trimStart (reverse s)).

Definition trim (s : JSString) : JSString := trimEnd (trimStart s).

(** [s.slice(-n)]: the last [n] code units, the whole string when it is
    shorter. *)
Definition sliceLast (n : nat) (s : JSString) : JSString :=
  drop (length s - n) s.

(** Comparison of two strings by [<] and [<=]: code unit by code unit,
    a proper prefix being smaller. *)
Fixpoint jsLt (a b : JSString) : bool :=
  match a, b with
  | _, [] => false
  | [], _ :: _ => true
  | x :: a', y :: b' =>
      if (x <? y)%N then true else if (y <? x)%N then false else jsLt a' b'
  end.

Definition jsLe (a b : JSString) : bool := negb (jsLt b a).

(** Case folding of a regular expression with the [i] flag and without
    the [u] flag, restricted to what an ASCII pattern can tell apart: a
    pattern letter matches its two ASCII cases and nothing else (a code
    unit above 127 is never folded onto an ASCII one). *)
Definition foldASCII (c : N) : N :=
  (if (0x61 <=? c) && (c <=? 0x7A) then c - 0x20 else c)%N.

Definition eqCI (pat s : JSString) : bool :=
  bool_decide (foldASCII <$> s = foldASCII <$> pat).

Definition startsWith (pat s : JSString) : bool :=
  bool_decide (take (length pat) s = pat).

Definition startsWithCI (pat s : JSString) : bool :=
  eqCI pat (take (length pat) s) .

(** [parseInt(s)] with no radix, on the integers: [None] is [NaN]. *)
Definition digitValue (radix : N) (c : N) : option Z :=
  let v := (if (0x30 <=? c) && (c <=? 0x39) then Some (c - 0x30)
            else if (0x61 <=? c) && (c <=? 0x7A) then Some (c - 0x61 + 10)
            else if (0x41 <=? c) && (c <=? 0x5A) then Some (c - 0x41 + 10)
            else None)%N in
  match v with
  | Some d => if (d <? radix)%N then Some (Z.of_N d) else None
  | None => None
  end.

Fixpoint parseDigits (radix : N) (acc : option Z) (s : JSString) : option Z :=
  match s with
  | c :: r =>
      match digitValue radix c with
      | Some d => parseDigits radix (Some (default 0 acc * Z.of_N radix + d)) r
      | None => acc
      end
  | [] => acc
  end.

Definition parseInt (s : JSString) : option Z :=
  let s1 := trimStart s in
  let '(sign, s2) :=
    match s1 with
    | 0x2D%N :: r => (-1, r)
    | 0x2B%N :: r => (1, r)
    | _ => (1, s1)
    end in
  let '(radix, s3) :=
    match s2 with
    | 0x30%N :: 0x78%N :: r => (16%N, r)
    | 0x30%N :: 0x58%N :: r => (16%N, r)
    | _ => (10%N, s2)
    end in
  Z.mul sign <$> parseDigits radix None s3.

(** A [Date]: a time value in milliseconds, or the invalid date. *)
Inductive Date := ValidDate (ms : Z) | InvalidDate.

(** [new Date(n * 1000)] for [n = parseInt(s)]. The product is exact in
    double precision wherever it is inside the range of time values,
    and outside that range the date is invalid. *)
Definition dateOfSeconds (n : option Z) : Date :=
  match n with
  | Some k =>
      if Z.abs (k * 1000) <=? 8640000000000000
      then ValidDate (k * 1000) else InvalidDate
  | None => InvalidDate
  end.

End JS.
Export JS.

#[global] Instance Date_eq_dec : EqDecision Date.
Proof. solve_decision. Defined.

(** ** Entities ([src/types/database.ts], [src/types/whatsapp.ts]) *)

Inductive CustomerStatus := Active | Blocked | Archived.
Inductive Direction := Incoming | Outgoing.
Inductive MessageType := Text | Image | Video | Audio | Document | Location | Contacts.
Inductive MessageStatus := Sent | Delivered | Read | Failed | Pending.

#[global] Instance CustomerStatus_eq_dec : EqDecision CustomerStatus.
Proof. solve_decision. Defined.
#[global] Instance Direction_eq_dec : EqDecision Direction.
Proof. solve_decision. Defined.
#[global] Instance MessageType_eq_dec : EqDecision MessageType.
Proof. solve_decision. Defined.
#[global] Instance MessageStatus_eq_dec : EqDecision MessageStatus.
Proof. solve_decision. Defined.

Module Customer.

Record Metadata := {
  profileName : option JSString;
  language : option JSString;
  timezone : option JSString;
  tags : option (list JSString);
}.

(** [Omit<Customer, 'id' | 'createdAt' | 'updatedAt'>] *)
Record Data := {
  d_phoneNumber : JSString;
  d_name : JSString;
  d_isNew : bool;
  d_status : CustomerStatus;
  d_lastMessageAt : Date;
  d_firstMessageAt : Date;
  d_messageCount : Z;
  d_metadata : Metadata;
}.

Record t := {
  id : JSString;
  phoneNumber : JSString;
  name : JSString;
  isNew : bool;
  status : CustomerStatus;
  lastMessageAt : Date;
  firstMessageAt : Date;
  messageCount : Z;
  metadata : Metadata;
  createdAt : Date;
  updatedAt : Date;
}.

(** [Partial<Customer>]: [None] is a key the object does not have. *)
Record Partial := {
  u_id : option JSString;
  u_phoneNumber : option JSString;
  u_name : option JSString;
  u_isNew : option bool;
  u_status : option CustomerStatus;
  u_lastMessageAt : option Date;
  u_firstMessageAt : option Date;
  u_messageCount : option Z;
  u_metadata : option Metadata;
  u_createdAt : option Date;
  u_updatedAt : option Date;
}.

Definition noUpdates : Partial :=
  {| u_id := None; u_phoneNumber := None; u_name := None; u_isNew := None;
     u_status := None; u_lastMessageAt := None; u_firstMessageAt := None;
     u_messageCount := None; u_metadata := None; u_createdAt := None;
     u_updatedAt := None |}.

(** [{ ...data, id, createdAt, updatedAt }] *)
Definition ofData (d : Data) (newId : JSString) (created updated : Date) : t :=
  {| id := newId; phoneNumber := d_phoneNumber d; name := d_name d;
     isNew := d_isNew d; status := d_status d;
     lastMessageAt := d_lastMessageAt d; firstMessageAt := d_firstMessageAt d;
     messageCount := d_messageCount d; metadata := d_metadata d;
     createdAt := created; updatedAt := updated |}.

(** [{ ...c, ...updates, updatedAt }] *)
Definition spread (c : t) (u : Partial) (updated : Date) : t :=
  {| id := default (id c) (u_id u);
     phoneNumber := default (phoneNumber c) (u_phoneNumber u);
     name := default (name c) (u_name u);
     isNew := default (isNew c) (u_isNew u);
     status := default (status c) (u_status u);
     lastMessageAt := default (lastMessageAt c) (u_lastMessageAt u);
     firstMessageAt := default (firstMessageAt c) (u_firstMessageAt u);
     messageCount := default (messageCount c) (u_messageCount u);
     metadata := default (metadata c) (u_metadata u);
     createdAt := default (createdAt c) (u_createdAt u);
     updatedAt := updated |}.

End Customer.

Module Message.

(** The reply-to context of a WhatsApp message, kept as received. *)
Record Context := { ctx_from : JSString; ctx_id : JSString }.

Record Metadata := {
  whatsappTimestamp : option JSString;
  context : option Context;
  failureReason : option JSString;
}.

Definition noMetadata : Metadata :=
  {| whatsappTimestamp := None; context := None; failureReason := None |}.

(** [Omit<Message, 'id' | 'createdAt' | 'updatedAt'>] *)
Record Data := {
  d_customerId : JSString;
  d_messageId : JSString;
  d_direction : Direction;
  d_type : MessageType;
  d_content : JSString;
  d_mediaUrl : option JSString;
  d_mediaType : option JSString;
  d_status : MessageStatus;
  d_isAutoReply : bool;
  d_timestamp : Date;
  d_metadata : Metadata;
}.

Record t := {
  id : JSString;
  customerId : JSString;
  messageId : JSString;
  direction : Direction;
  type : MessageType;
  content : JSString;
  mediaUrl : option JSString;
  mediaType : option JSString;
  status : MessageStatus;
  isAutoReply : bool;
  timestamp : Date;
  metadata : Metadata;
  createdAt : Date;
  updatedAt : Date;
}.

(** [{ ...data, id, createdAt, updatedAt }] *)
Definition ofData (d : Data) (newId : JSString) (created updated : Date) : t :=
  {| id := newId; customerId := d_customerId d; messageId := d_messageId d;
     direction := d_direction d; type := d_type d; content := d_content d;
     mediaUrl := d_mediaUrl d; mediaType := d_mediaType d;
     status := d_status d; isAutoReply := d_isAutoReply d;
     timestamp := d_timestamp d; metadata := d_metadata d;
     createdAt := created; updatedAt := updated |}.

(** [{ ...m, status, updatedAt }] *)
Definition withStatus (m : t) (st : MessageStatus) (updated : Date) : t :=
  {| id := id m; customerId := customerId m; messageId := messageId m;
     direction := direction m; type := type m; content := content m;
     mediaUrl := mediaUrl m; mediaType := mediaType m;
     status := st; isAutoReply := isAutoReply m;
     timestamp := timestamp m; metadata := metadata m;
     createdAt := createdAt m; updatedAt := updated |}.

End Message.

(** The weekday name that [toLocaleDateString('en-US', {weekday: 'long'})]
    prints, and its lower-cased form, the key of the schedule. *)
Inductive Weekday :=
  Sunday | Monday | Tuesday | Wednesday | Thursday | Friday | Saturday.

Definition weekdayKey (d : Weekday) : JSString :=
  match d with
  | Sunday => js "sunday" | Monday => js "monday" | Tuesday => js "tuesday"
  | Wednesday => js "wednesday" | Thursday => js "thursday"
  | Friday => js "friday" | Saturday => js "saturday"
  end.

Module BotSettings.

Record DaySchedule := { start : JSString; end_ : JSString; enabled : bool }.

Record BusinessHoursConfig := {
  bh_enabled : bool;
  bh_timezone : JSString;
  schedule : gmap JSString DaySchedule;
}.

Record AutoReply := {
  newCustomerMessage : JSString;
  returningCustomerMessage : JSString;
  afterHoursMessage : JSString;
  fallbackMessage : JSString;
}.

Record t := {
  id : JSString;
  isActive : bool;
  businessHours : BusinessHoursConfig;
  autoReply : AutoReply;
  webhookUrl : JSString;
  verifyToken : JSString;
  accessToken : JSString;
  phoneNumberId : JSString;
  createdAt : Date;
  updatedAt : Date;
}.

End BotSettings.

(** [WhatsAppContact], [WhatsAppMessage] (the media attachments, which the
    pipeline never reads, are left out) and [SendMessageResponse] (of which
    only the message ids are read). *)
Record WhatsAppContact := { profile_name : JSString; wa_id : JSString }.

Record WhatsAppMessage := {
  wm_from : JSString;
  wm_id : JSString;
  wm_timestamp : JSString;
  wm_text : option JSString;
  wm_type : MessageType;
  wm_context : option Message.Context;
}.

Record SendMessageResponse := { resp_messages : list JSString }.

(** ** The store and the environment *)

(** [new WhatsAppAPI(accessToken, phoneNumberId)]; the base URL is a
    constant. *)
Record WhatsAppAPI := { api_accessToken : JSString; api_phoneNumberId : JSString }.

(** The mutable state of the process: the arrays and the settings singleton
    of [database.ts], the [whatsappApi] field of the one [MessageProcessor]
    the routes share, and the static maps [RateLimiter.requests] and
    [MessageValidator.recentMessages]. The [conversations] and
    [messageTemplates] arrays, which the pipeline never touches, are left
    out. *)
Record World := {
  customers : list Customer.t;
  messages : list Message.t;
  botSettings : option BotSettings.t;
  whatsappApi : WhatsAppAPI;
  requests : gmap JSString (list Z);
  recentMessages : gmap JSString (list JSString);
}.

(** What one operation reads from outside the program. [now] is the
    instant of the operation ([Date.now()], [new Date()]); the three ids
    are the values [generateId()] returns for the records the operation may
    create; [localWeekday] and [localTime] are the two [Intl] formatting
    calls, [None] when they throw (an unknown time zone); [graphSend] and
    [graphMarkRead] are the answers of the Graph API, [None] or [false]
    when the request fails or is not answered with a success status. *)
Record Env := {
  now : Z;
  newCustomerId : JSString;
  newIncomingId : JSString;
  newOutgoingId : JSString;
  windowOrigin : option JSString;
  localWeekday : JSString -> option Weekday;
  localTime : JSString -> option JSString;
  graphSend : WhatsAppAPI -> JSString -> JSString -> option SendMessageResponse;
  graphMarkRead : WhatsAppAPI -> JSString -> bool;
}.

Definition setCustomers (cs : list Customer.t) (w : World) : World :=
  {| customers := cs; messages := messages w; botSettings := botSettings w;
     whatsappApi := whatsappApi w; requests := requests w;
     recentMessages := recentMessages w |}.

Definition setMessages (ms : list Message.t) (w : World) : World :=
  {| customers := customers w; messages := ms; botSettings := botSettings w;
     whatsappApi := whatsappApi w; requests := requests w;
     recentMessages := recentMessages w |}.

Definition setBotSettings (s : option BotSettings.t) (w : World) : World :=
  {| customers := customers w; messages := messages w; botSettings := s;
     whatsappApi := whatsappApi w; requests := requests w;
     recentMessages := recentMessages w |}.

Definition setWhatsappApi (a : WhatsAppAPI) (w : World) : World :=
  {| customers := customers w; messages := messages w;
     botSettings := botSettings w; whatsappApi := a; requests := requests w;
     recentMessages := recentMessages w |}.

Definition setRequests (r : gmap JSString (list Z)) (w : World) : World :=
  {| customers := customers w; messages := messages w;
     botSettings := botSettings w; whatsappApi := whatsappApi w;
     requests := r; recentMessages := recentMessages w |}.

Definition setRecentMessages (r : gmap JSString (list JSString)) (w : World) : World :=
  {| customers := customers w; messages := messages w;
     botSettings := botSettings w; whatsappApi := whatsappApi w;
     requests := requests w; recentMessages := r |}.

(** The store of a process that has just started. *)
Definition initialWorld : World :=
  {| customers := []; messages := []; botSettings := None;
     whatsappApi := {| api_accessToken := []; api_phoneNumberId := [] |};
     requests := ∅; recentMessages := ∅ |}.

(** ** [src/lib/database.ts] *)

Module CustomerDatabase.

Definition findByPhoneNumber (phoneNumber : JSString) (w : World) : option Customer.t :=
  snd <$> list_find (λ c, Customer.phoneNumber c = phoneNumber) (customers w).

Definition create (e : Env) (newId : JSString) (customerData : Customer.Data) (w : World)
  : Customer.t * World :=
  let customer :=
    Customer.ofData customerData newId (ValidDate (now e)) (ValidDate (now e)) in
  (customer, setCustomers (customers w ++ [customer]) w).

Definition update (e : Env) (id : JSString) (updates : Customer.Partial) (w : World)
  : option Customer.t * World :=
  match list_find (λ c, Customer.id c = id) (customers w) with
  | None => (None, w)
  | Some (index, c) =>
      let c' := Customer.spread c updates (ValidDate (now e)) in
      (Some c', setCustomers (<[index := c']> (customers w)) w)
  end.

Definition markAsReturning (e : Env) (phoneNumber : JSString) (w : World) : World :=
  match findByPhoneNumber phoneNumber w with
  | Some customer =>
      let updates :=
        {| Customer.u_id := None; Customer.u_phoneNumber := None;
           Customer.u_name := None; Customer.u_isNew := Some false;
           Customer.u_status := None; Customer.u_lastMessageAt := None;
           Customer.u_firstMessageAt := None; Customer.u_messageCount := None;
           Customer.u_metadata := None; Customer.u_createdAt := None;
           Customer.u_updatedAt := None |} in
      snd (update e (Customer.id customer) updates w)
  | None => w
  end.

End CustomerDatabase.

Module MessageDatabase.

Definition create (e : Env) (newId : JSString) (messageData : Message.Data) (w : World)
  : Message.t * World :=
  let message :=
    Message.ofData messageData newId (ValidDate (now e)) (ValidDate (now e)) in
  (message, setMessages (messages w ++ [message]) w).

Definition updateStatus (e : Env) (messageId : JSString) (status : MessageStatus) (w : World)
  : option Message.t * World :=
  match list_find (λ m, Message.messageId m = messageId) (messages w) with
  | None => (None, w)
  | Some (index, m) =>
      let m' := Message.withStatus m status (ValidDate (now e)) in
      (Some m', setMessages (<[index := m']> (messages w)) w)
  end.

End MessageDatabase.

Module SettingsDatabase.

Definition weekdayHours : BotSettings.DaySchedule :=
  {| BotSettings.start := js "09:00"; BotSettings.end_ := js "17:00";
     BotSettings.enabled := true |}.

Definition weekendHours : BotSettings.DaySchedule :=
  {| BotSettings.start := js "10:00"; BotSettings.end_ := js "14:00";
     BotSettings.enabled := false |}.

Definition defaultSchedule : gmap JSString BotSettings.DaySchedule :=
  <[js "monday" := weekdayHours]> (<[js "tuesday" := weekdayHours]>
  (<[js "wednesday" := weekdayHours]> (<[js "thursday" := weekdayHours]>
  (<[js "friday" := weekdayHours]> (<[js "saturday" := weekendHours]>
  (<[js "sunday" := weekendHours]> ∅)))))).

(** The default templates, with the code units the source file holds. *)
Definition defaultAutoReply : BotSettings.AutoReply :=
  {| BotSettings.newCustomerMessage :=
       [0xF0; 0x178; 0x2018; 0x2039]%N ++
       js " Hello! Thank you for contacting us. We're here to help you. Someone from our team will get back to you shortly.";
     BotSettings.returningCustomerMessage :=
       js "Hello again! Thanks for reaching out. How can we assist you today?";
     BotSettings.afterHoursMessage :=
       [0xF0; 0x178; 0x152; 0x2122]%N ++
       js " Thanks for your message! We're currently outside business hours. We'll respond as soon as possible during our next business day.";
     BotSettings.fallbackMessage :=
       js "Thank you for your message. We've received it and will respond soon." |}.

Definition defaultSettings (e : Env) : BotSettings.t :=
  {| BotSettings.id := js "default";
     BotSettings.isActive := true;
     BotSettings.businessHours :=
       {| BotSettings.bh_enabled := false;
          BotSettings.bh_timezone := js "America/New_York";
          BotSettings.schedule := defaultSchedule |};
     BotSettings.autoReply := defaultAutoReply;
     BotSettings.webhookUrl :=
       default (js "http://localhost:3000") (windowOrigin e)
       ++ js "/api/webhook/whatsapp";
     BotSettings.verifyToken := js "default_verify_token";
     BotSettings.accessToken := [];
     BotSettings.phoneNumberId := [];
     BotSettings.createdAt := ValidDate (now e);
     BotSettings.updatedAt := ValidDate (now e) |}.

(** [get]: the settings, initialised to the defaults on first access. *)
Definition get (e : Env) (w : World) : option BotSettings.t * World :=
  match botSettings w with
  | Some s => (Some s, w)
  | None =>
      let s := defaultSettings e in
      (Some s, setBotSettings (Some s) w)
  end.

End SettingsDatabase.

(** ** [src/lib/whatsapp.ts] *)

Module WhatsAppAPIOps.

(** [new WhatsAppAPI(accessToken, phoneNumberId)] *)
Definition make (accessToken phoneNumberId : JSString) : WhatsAppAPI :=
  {| api_accessToken := accessToken; api_phoneNumberId := phoneNumberId |}.

Definition configured (api : WhatsAppAPI) : bool :=
  negb (bool_decide (api_accessToken api = []))
  && negb (bool_decide (api_phoneNumberId api = [])).

(** [sendMessage]: [None] is the [null] returned without credentials, on a
    response that is not ok and on a failed request. *)
Definition sendMessage (e : Env) (api : WhatsAppAPI) (to message : JSString)
  : option SendMessageResponse :=
  if configured api then graphSend e api to message else None.

Definition markAsRead (e : Env) (api : WhatsAppAPI) (messageId : JSString) : bool :=
  if configured api then graphMarkRead e api messageId else false.

Record Parsed := {
  p_from : JSString;
  p_content : JSString;
  p_messageId : JSString;
  p_timestamp : Date;
  p_type : MessageType;
}.

Definition parseIncomingMessage (message : WhatsAppMessage) : Parsed :=
  {| p_from := wm_from message;
     p_content :=
       match wm_text message with
       | Some (c :: body) => c :: body
       | _ => js "[Media message]"
       end;
     p_messageId := wm_id message;
     p_timestamp := dateOfSeconds (parseInt (wm_timestamp message));
     p_type := wm_type message |}.

End WhatsAppAPIOps.

Module BusinessHours.

(** [isBusinessHour(timezone, schedule)]: the two [Intl] calls sit in the
    [try] block, whose [catch] answers [true]. *)
Definition isBusinessHour (e : Env) (timezone : JSString)
    (schedule : gmap JSString BotSettings.DaySchedule) : bool :=
  match localWeekday e timezone with
  | None => true
  | Some day =>
      let dayOfWeek := weekdayKey day in
      match localTime e timezone with
      | None => true
      | Some currentTime =>
          match schedule !! dayOfWeek with
          | None => false
          | Some daySchedule =>
              if negb (BotSettings.enabled daySchedule) then false
              else jsLe (BotSettings.start daySchedule) currentTime
                   && jsLe currentTime (BotSettings.end_ daySchedule)
          end
      end
  end.

End BusinessHours.

(** ** [src/lib/message-processor.ts] *)

(** [windowMs] and [maxRequests] are numbers in the source. They are
    integers here, and the subtractions and comparisons are the exact
    ones: this is the code wherever the clock, the window, the limit and
    the start of the window are safe integers ([exactWindow] below), as
    they are at the defaults. A limit that is no integer, or one beyond
    2^53, is outside the model. *)
Module RateLimiter.

Definition windowMsDefault : Z := 60000.
Definition maxRequestsDefault : Z := 5.

Definition recentRequests (e : Env) (phoneNumber : JSString) (windowMs : Z) (w : World)
  : list Z :=
  let windowStart := now e - windowMs in
  let existingRequests := default [] (requests w !! phoneNumber) in
  filter (λ time, windowStart < time) existingRequests.

Definition isAllowed (e : Env) (phoneNumber : JSString) (windowMs maxRequests : Z)
    (w : World) : bool * World :=
  let recent := recentRequests e phoneNumber windowMs w in
  if maxRequests <=? Z.of_nat (length recent) then (false, w)
  else (true, setRequests (<[phoneNumber := recent ++ [now e]]> (requests w)) w).

Definition getRemainingRequests (e : Env) (phoneNumber : JSString)
    (windowMs maxRequests : Z) (w : World) : Z :=
  Z.max 0 (maxRequests - Z.of_nat (length (recentRequests e phoneNumber windowMs w))).

(** [Number.isSafeInteger]: an integer that a number holds exactly. *)
Definition safeInteger (z : Z) : Prop := - 2 ^ 53 < z < 2 ^ 53.

(** The numbers of a call are safe integers, and so is the start of its
    window. *)
Definition exactWindow (e : Env) (windowMs maxRequests : Z) : Prop :=
  safeInteger (now e) ∧ safeInteger windowMs ∧ safeInteger maxRequests
  ∧ safeInteger (now e - windowMs).

End RateLimiter.

Module MessageValidator.

(** [/(.)\1{10,}/]: a code unit other than a line terminator followed by
    ten more copies of itself. *)
Fixpoint hasRepeatedRun (s : JSString) : bool :=
  match s with
  | [] => false
  | c :: r =>
      negb (isLineTerminator c) && bool_decide (take 10 r = replicate 10 c)
      || hasRepeatedRun r
  end.

(** [[^\s]{50,}] at the head of [s]. *)
Definition fiftyNonSpaces (s : JSString) : bool :=
  bool_decide (length (take 50 s) = 50%nat)
  && forallb (λ c, negb (isWhiteSpace c)) (take 50 s).

(** [/https?:\/\/[^\s]{50,}/] *)
Fixpoint hasLongUrl (s : JSString) : bool :=
  startsWith (js "https://") s && fiftyNonSpaces (drop 8 s)
  || startsWith (js "http://") s && fiftyNonSpaces (drop 7 s)
  || match s with
     | [] => false
     | _ :: r => hasLongUrl r
     end.

Definition spamWords : list JSString :=
  [js "free"; js "prize"; js "winner"; js "urgent"; js "act now"].

Definition isWordCharAt (c : option N) : bool :=
  match c with
  | Some x => isWordChar x
  | None => false
  end.

(** One of the words at the head of [s], between two word boundaries;
    [prev] is the code unit before [s]. Every word begins and ends with a
    letter, so the boundaries ask for no word character on either side. *)
Definition spamWordAt (prev : option N) (s : JSString) : bool :=
  existsb (λ word,
    startsWithCI word s
    && negb (isWordCharAt prev)
    && negb (isWordCharAt (head (drop (length word) s)))) spamWords.

(** [/\b(free|prize|winner|urgent|act now)\b/gi], tested once on a regular
    expression object that was just created. *)
Fixpoint hasSpamWordFrom (prev : option N) (s : JSString) : bool :=
  spamWordAt prev s
  || match s with
     | [] => false
     | c :: r => hasSpamWordFrom (Some c) r
     end.

Definition hasSpamPattern (content : JSString) : bool :=
  hasRepeatedRun content || hasLongUrl content || hasSpamWordFrom None content.

(** [recent.push(content); if (recent.length > 10) recent.shift()] *)
Definition pushRecent (recent : list JSString) (content : JSString) : list JSString :=
  let pushed := recent ++ [content] in
  if decide (10 < length pushed)%nat then drop 1 pushed else pushed.

Definition isRepeatedMessage (content phoneNumber : JSString) (w : World)
  : bool * World :=
  let key := phoneNumber in
  let recent := default [] (recentMessages w !! key) in
  let isDuplicate := bool_decide (content ∈ recent) in
  (isDuplicate,
   setRecentMessages (<[key := pushRecent recent content]> (recentMessages w)) w).

Definition detectSpam (content phoneNumber : JSString) (w : World) : bool * World :=
  let hasPattern := hasSpamPattern content in
  let '(isRepeated, w1) := isRepeatedMessage content phoneNumber w in
  (hasPattern || isRepeated, w1).

End MessageValidator.

(** The [error] of a result: one of the literal messages of the source, or
    the [message] of an exception caught by the operation, whose text is
    the engine's. *)
Inductive ErrorMessage := Literal (text : JSString) | ExceptionMessage.

(** The four templates of the settings. *)
Inductive Template := NewCustomer | ReturningCustomer | AfterHours | Fallback.

#[global] Instance Template_eq_dec : EqDecision Template.
Proof. solve_decision. Defined.

Definition templateText (a : BotSettings.AutoReply) (t : Template) : JSString :=
  match t with
  | NewCustomer => BotSettings.newCustomerMessage a
  | ReturningCustomer => BotSettings.returningCustomerMessage a
  | AfterHours => BotSettings.afterHoursMessage a
  | Fallback => BotSettings.fallbackMessage a
  end.

Module MessageProcessor.

Record IncomingResult := {
  success : bool;
  autoReplySent : option bool;
  error : option ErrorMessage;
}.

Record ManualResult := {
  m_success : bool;
  m_messageId : option JSString;
  m_error : option ErrorMessage;
}.

(** [contacts?.find(c => c.wa_id === phoneNumber)] *)
Definition findContact (phoneNumber : JSString) (contacts : option (list WhatsAppContact))
  : option WhatsAppContact :=
  match contacts with
  | Some cs => snd <$> list_find (λ c, wa_id c = phoneNumber) cs
  | None => None
  end.

(** [contact?.profile?.name || `Customer ${phoneNumber.slice(-4)}`] *)
Definition customerName (phoneNumber : JSString) (contact : option WhatsAppContact)
  : JSString :=
  match profile_name <$> contact with
  | Some (c :: rest) => c :: rest
  | _ => js "Customer " ++ sliceLast 4 phoneNumber
  end.

Definition findOrCreateCustomer (e : Env) (phoneNumber : JSString)
    (contacts : option (list WhatsAppContact)) (w : World) : Customer.t * World :=
  match CustomerDatabase.findByPhoneNumber phoneNumber w with
  | Some customer => (customer, w)
  | None =>
      let contact := findContact phoneNumber contacts in
      CustomerDatabase.create e (newCustomerId e)
        {| Customer.d_phoneNumber := phoneNumber;
           Customer.d_name := customerName phoneNumber contact;
           Customer.d_isNew := true;
           Customer.d_status := Active;
           Customer.d_lastMessageAt := ValidDate (now e);
           Customer.d_firstMessageAt := ValidDate (now e);
           Customer.d_messageCount := 0;
           Customer.d_metadata :=
             {| Customer.profileName := profile_name <$> contact;
                Customer.language := None; Customer.timezone := None;
                Customer.tags := None |} |} w
  end.

(** The three skip patterns, each anchored at both ends: the alternatives
    of the first and the third are compared without case, those of the
    second (four sequences of code units, as the source file holds them)
    exactly. *)
Definition skipWords : list JSString :=
  [js "ok"; js "okay"; js "thanks"; js "thank you"; js "got it"].

Definition skipSymbols : list JSString :=
  [[0xF0; 0x178; 0x2018]; [0xF0; 0x178; 0x2018; 0x152];
   [0xE2; 0x153; 0x2026]; [0xF0; 0x178; 0x2122]]%N.

Definition skipReceipts : list JSString := [js "delivered"; js "read"].

Definition shouldSendAutoReply (messageContent : JSString) : bool :=
  let trimmed := trim messageContent in
  negb (existsb (λ p, eqCI p trimmed) skipWords
        || existsb (λ p, bool_decide (trimmed = p)) skipSymbols
        || existsb (λ p, eqCI p trimmed) skipReceipts).

(** The branch that assigns [replyMessage], named by the template it
    reads. *)
Definition selectTemplate (e : Env) (settings : BotSettings.t) (customer : Customer.t)
  : Template :=
  let hours := BotSettings.businessHours settings in
  if BotSettings.bh_enabled hours then
    let isBusinessHour :=
      BusinessHours.isBusinessHour e (BotSettings.bh_timezone hours)
        (BotSettings.schedule hours) in
    if negb isBusinessHour then AfterHours
    else if Customer.isNew customer then NewCustomer
    else ReturningCustomer
  else
    if Customer.isNew customer then NewCustomer else ReturningCustomer.

Definition autoReplyRecord (customer : Customer.t) (channelId replyMessage : JSString)
    (e : Env) : Message.Data :=
  {| Message.d_customerId := Customer.id customer;
     Message.d_messageId := channelId;
     Message.d_direction := Outgoing;
     Message.d_type := Text;
     Message.d_content := replyMessage;
     Message.d_mediaUrl := None; Message.d_mediaType := None;
     Message.d_status := Sent;
     Message.d_isAutoReply := true;
     Message.d_timestamp := ValidDate (now e);
     Message.d_metadata := Message.noMetadata |}.

(** [processAutoReply]: whether an auto-reply was sent. Reading
    [response.messages[0].id] of an answer without message ids throws
    before the record is built; the [catch] answers [false]. *)
Definition processAutoReply (e : Env) (customer : Customer.t) (messageContent : JSString)
    (w : World) : bool * World :=
  let '(settings, w1) := SettingsDatabase.get e w in
  match settings with
  | None => (false, w1)
  | Some settings =>
      if negb (BotSettings.isActive settings) then (false, w1)
      else if negb (shouldSendAutoReply messageContent) then (false, w1)
      else
        let replyMessage :=
          templateText (BotSettings.autoReply settings)
            (selectTemplate e settings customer) in
        let api :=
          WhatsAppAPIOps.make (BotSettings.accessToken settings)
            (BotSettings.phoneNumberId settings) in
        let w2 := setWhatsappApi api w1 in
        match WhatsAppAPIOps.sendMessage e api (Customer.phoneNumber customer)
                replyMessage with
        | Some response =>
            match resp_messages response with
            | channelId :: _ =>
                let '(_, w3) :=
                  MessageDatabase.create e (newOutgoingId e)
                    (autoReplyRecord customer channelId replyMessage e) w2 in
                (true, w3)
            | [] => (false, w2)
            end
        | None => (false, w2)
        end
  end.

Definition incomingRecord (customer : Customer.t) (message : WhatsAppMessage)
  : Message.Data :=
  let p := WhatsAppAPIOps.parseIncomingMessage message in
  {| Message.d_customerId := Customer.id customer;
     Message.d_messageId := WhatsAppAPIOps.p_messageId p;
     Message.d_direction := Incoming;
     Message.d_type := WhatsAppAPIOps.p_type p;
     Message.d_content := WhatsAppAPIOps.p_content p;
     Message.d_mediaUrl := None; Message.d_mediaType := None;
     Message.d_status := Delivered;
     Message.d_isAutoReply := false;
     Message.d_timestamp := WhatsAppAPIOps.p_timestamp p;
     Message.d_metadata :=
       {| Message.whatsappTimestamp := Some (wm_timestamp message);
          Message.context := wm_context message;
          Message.failureReason := None |} |}.

Definition activityUpdate (customer : Customer.t) (timestamp : Date) : Customer.Partial :=
  {| Customer.u_id := None; Customer.u_phoneNumber := None;
     Customer.u_name := None; Customer.u_isNew := None;
     Customer.u_status := None; Customer.u_lastMessageAt := Some timestamp;
     Customer.u_firstMessageAt := None;
     Customer.u_messageCount := Some (Customer.messageCount customer + 1);
     Customer.u_metadata := None; Customer.u_createdAt := None;
     Customer.u_updatedAt := None |}.

(** [processIncomingMessage]: no step of the [try] block throws, so the
    result is always the successful one. *)
Definition processIncomingMessage (e : Env) (message : WhatsAppMessage)
    (contacts : option (list WhatsAppContact)) (w : World) : IncomingResult * World :=
  let p := WhatsAppAPIOps.parseIncomingMessage message in
  let '(customer, w1) :=
    findOrCreateCustomer e (WhatsAppAPIOps.p_from p) contacts w in
  let '(_, w2) :=
    MessageDatabase.create e (newIncomingId e) (incomingRecord customer message) w1 in
  let '(_, w3) :=
    CustomerDatabase.update e (Customer.id customer)
      (activityUpdate customer (WhatsAppAPIOps.p_timestamp p)) w2 in
  let _markedRead :=
    WhatsAppAPIOps.markAsRead e (whatsappApi w3) (WhatsAppAPIOps.p_messageId p) in
  let '(sent, w4) := processAutoReply e customer (WhatsAppAPIOps.p_content p) w3 in
  let w5 :=
    if sent && Customer.isNew customer
    then CustomerDatabase.markAsReturning e (WhatsAppAPIOps.p_from p) w4
    else w4 in
  ({| success := true; autoReplySent := Some sent; error := None |}, w5).

Definition manualRecord (customerId channelId content : JSString) (e : Env)
  : Message.Data :=
  {| Message.d_customerId := customerId;
     Message.d_messageId := channelId;
     Message.d_direction := Outgoing;
     Message.d_type := Text;
     Message.d_content := content;
     Message.d_mediaUrl := None; Message.d_mediaType := None;
     Message.d_status := Sent;
     Message.d_isAutoReply := false;
     Message.d_timestamp := ValidDate (now e);
     Message.d_metadata := Message.noMetadata |}.

Definition manualFailure (err : ErrorMessage) : ManualResult :=
  {| m_success := false; m_messageId := None; m_error := Some err |}.

(** [sendManualMessage]: the customer is looked up by the empty phone
    number, whatever [customerId] is. *)
Definition sendManualMessage (e : Env) (customerId content : JSString) (w : World)
  : ManualResult * World :=
  match CustomerDatabase.findByPhoneNumber [] w with
  | None => (manualFailure (Literal (js "Customer not found")), w)
  | Some customer =>
      let '(settings, w1) := SettingsDatabase.get e w in
      match settings with
      | None => (manualFailure (Literal (js "WhatsApp settings not configured")), w1)
      | Some settings =>
          let api :=
            WhatsAppAPIOps.make (BotSettings.accessToken settings)
              (BotSettings.phoneNumberId settings) in
          let w2 := setWhatsappApi api w1 in
          match WhatsAppAPIOps.sendMessage e api (Customer.phoneNumber customer)
                  content with
          | Some response =>
              match resp_messages response with
              | channelId :: _ =>
                  let '(message, w3) :=
                    MessageDatabase.create e (newOutgoingId e)
                      (manualRecord customerId channelId content e) w2 in
                  ({| m_success := true;
                      m_messageId := Some (Message.id message);
                      m_error := None |}, w3)
              | [] => (manualFailure ExceptionMessage, w2)
              end
          | None =>
              (manualFailure (Literal (js "Failed to send message via WhatsApp API")), w2)
          end
      end
  end.

(** [validStatuses.includes(status) ? status : 'sent'] *)
Definition coerceStatus (status : JSString) : MessageStatus :=
  if bool_decide (status = js "sent") then Sent
  else if bool_decide (status = js "delivered") then Delivered
  else if bool_decide (status = js "read") then Read
  else if bool_decide (status = js "failed") then Failed
  else Sent.

Definition processStatusUpdate (e : Env) (messageId status : JSString) (w : World)
  : World :=
  snd (MessageDatabase.updateStatus e messageId (coerceStatus status) w).

End MessageProcessor.

(** ** The pipeline as a transition system *)

(** What [src/app/api/webhook/whatsapp/route.ts] hands to the processor for
    each message and each status of a delivery, and what the messages
    route hands to it for an operator's message. *)
Inductive Event :=
| IncomingMessage (message : WhatsAppMessage) (contacts : option (list WhatsAppContact))
| StatusUpdate (messageId status : JSString)
| ManualMessage (customerId content : JSString).

Definition step (e : Env) (ev : Event) (w : World) : World :=
  match ev with
  | IncomingMessage message contacts =>
      snd (MessageProcessor.processIncomingMessage e message contacts w)
  | StatusUpdate messageId status =>
      MessageProcessor.processStatusUpdate e messageId status w
  | ManualMessage customerId content =>
      snd (MessageProcessor.sendManualMessage e customerId content w)
  end.

Fixpoint run (evs : list (Env * Event)) (w : World) : World :=
  match evs with
  | [] => w
  | (e, ev) :: rest => run rest (step e ev w)
  end.

(** [generateId()] returns an id no stored customer has. *)
Definition freshCustomerId (e : Env) (w : World) : Prop :=
  ∀ c, c ∈ customers w → Customer.id c ≠ newCustomerId e.

(** The stores of a running process: those the pipeline builds from an
    empty database, while the other routes act on the store in between.
    The settings route replaces the settings ([SettingsDatabase.update],
    whose result is taken as any settings); the customers route edits the
    name, the status and the metadata of a customer through
    [CustomerDatabase.update], never its id nor [isNew]; and
    [MessageDatabase.findRecent] sorts the [messages] array in place,
    which is taken as any reordering of it. *)
Inductive reachable : World -> Prop :=
| reachable_initial : reachable initialWorld
| reachable_settings s w :
    reachable w -> reachable (setBotSettings (Some s) w)
| reachable_edited e id updates w :
    reachable w ->
    Customer.u_id updates = None -> Customer.u_isNew updates = None ->
    reachable (snd (CustomerDatabase.update e id updates w))
| reachable_reordered ms w :
    reachable w -> ms ≡ₚ messages w -> reachable (setMessages ms w)
| reachable_step e ev w :
    reachable w -> freshCustomerId e w -> reachable (step e ev w).

(** An auto-reply to the customer [cid] is recorded. *)
Definition hasAutoReply (w : World) (cid : JSString) : Prop :=
  ∃ m, m ∈ messages w ∧ Message.customerId m = cid ∧ Message.isAutoReply m = true.

(** The event is an inbound message resolved to the stored customer [c],
    and its auto-reply was sent. *)
Definition autoReplySentTo (e : Env) (ev : Event) (w : World) (c : Customer.t) : Prop :=
  match ev with
  | IncomingMessage message contacts =>
      CustomerDatabase.findByPhoneNumber (wm_from message) w = Some c
      ∧ MessageProcessor.autoReplySent
          (fst (MessageProcessor.processIncomingMessage e message contacts w))
        = Some true
  | _ => False
  end.

(** What every store built by the pipeline satisfies: the customer ids are
    pairwise distinct, a customer is new exactly when no auto-reply to it
    is recorded, and every recorded auto-reply is to a stored customer. *)
Definition consistent (w : World) : Prop :=
  NoDup (Customer.id <$> customers w)
  ∧ (∀ c, c ∈ customers w →
       Customer.isNew c = true ↔ ¬ hasAutoReply w (Customer.id c))
  ∧ (∀ m, m ∈ messages w → Message.isAutoReply m = true →
       ∃ c, c ∈ customers w ∧ Customer.id c = Message.customerId m).

(** The customers of a later store, read against those of an earlier one:
    every customer is still at its index, with its id and phone number,
    and not new again once it was not new. *)
Definition evolves (cs cs' : list Customer.t) : Prop :=
  ∀ i c, cs !! i = Some c →
    ∃ c', cs' !! i = Some c'
      ∧ Customer.id c' = Customer.id c
      ∧ Customer.phoneNumber c' = Customer.phoneNumber c
      ∧ (Customer.isNew c = false → Customer.isNew c' = false).

(** The first stored message with a channel message id, the one
    [findIndex] selects. *)
Definition firstMessageWith (messageId : JSString) (w : World) (i : nat) (m : Message.t)
  : Prop :=
  messages w !! i = Some m ∧ Message.messageId m = messageId
  ∧ ∀ j m', messages w !! j = Some m' → (j < i)%nat → Message.messageId m' ≠ messageId.

(** The stored messages of one direction with one channel message id. *)
Definition storedWith (messageId : JSString) (d : Direction) (w : World)
  : list Message.t :=
  filter (λ m, Message.messageId m = messageId ∧ Message.direction m = d) (messages w).

(** The order of the specification on statuses: pending, sent, delivered,
    read; failed is reached from any of them and left by none. *)
Definition statusRank (s : MessageStatus) : nat :=
  match s with
  | Pending => 0 | Sent => 1 | Delivered => 2 | Read => 3 | Failed => 4
  end.

(** Strict lexicographic order of two sequences of code units, as a
    relation: a proper prefix comes first, otherwise the first differing
    code unit decides. *)
Inductive lexLt : JSString -> JSString -> Prop :=
| lexLt_nil y b : lexLt [] (y :: b)
| lexLt_head x y a b : (x < y)%N -> lexLt (x :: a) (y :: b)
| lexLt_tail x a b : lexLt a b -> lexLt (x :: a) (x :: b).

Definition lexLe (a b : JSString) : Prop := a = b ∨ lexLt a b.

(** The store with the two maps of the guards replaced. *)
Definition withGuards (rq : gmap JSString (list Z)) (rm : gmap JSString (list JSString))
    (w : World) : World :=
  setRecentMessages rm (setRequests rq w).

(** [RateLimiter.isAllowed(phoneNumber)], with its default window and
    limit, called for one sender at the instants of [es] in turn: the
    answers, and the store after the last call. *)
Fixpoint admitEach (es : list Env) (phoneNumber : JSString) (w : World)
  : list bool * World :=
  match es with
  | [] => ([], w)
  | e :: rest =>
      let '(allowed, w1) :=
        RateLimiter.isAllowed e phoneNumber RateLimiter.windowMsDefault
          RateLimiter.maxRequestsDefault w in
      let '(answers, w2) := admitEach rest phoneNumber w1 in
      (allowed :: answers, w2)
  end.

(** [MessageValidator.detectSpam] called for one sender on each of
    [bodies] in turn: the store after the last call. *)
Fixpoint trackEach (bodies : list JSString) (phoneNumber : JSString) (w : World)
  : World :=
  match bodies with
  | [] => w
  | body :: rest =>
      trackEach rest phoneNumber (snd (MessageValidator.detectSpam body phoneNumber w))
  end.

(** ** Sample data *)

Module Sample.

Definition okResponse : SendMessageResponse :=
  {| resp_messages := [js "wamid.reply"] |}.

(** Monday 10:30 in every zone; the Graph API accepts every request. *)
Definition env (t : Z) : Env :=
  {| now := t;
     newCustomerId := js "cust-1";
     newIncomingId := js "in-" ++ [Z.to_N t];
     newOutgoingId := js "out-" ++ [Z.to_N t];
     windowOrigin := None;
     localWeekday := λ _, Some Monday;
     localTime := λ _, Some (js "10:30");
     graphSend := λ _ _ _, Some okResponse;
     graphMarkRead := λ _ _, true |}.

Definition settings : BotSettings.t :=
  {| BotSettings.id := js "default";
     BotSettings.isActive := true;
     BotSettings.businessHours :=
       {| BotSettings.bh_enabled := true;
          BotSettings.bh_timezone := js "America/New_York";
          BotSettings.schedule := SettingsDatabase.defaultSchedule |};
     BotSettings.autoReply := SettingsDatabase.defaultAutoReply;
     BotSettings.webhookUrl := js "http://localhost:3000/api/webhook/whatsapp";
     BotSettings.verifyToken := js "default_verify_token";
     BotSettings.accessToken := js "token";
     BotSettings.phoneNumberId := js "1234";
     BotSettings.createdAt := ValidDate 0;
     BotSettings.updatedAt := ValidDate 0 |}.

(** A started process whose settings carry credentials. *)
Definition world : World := setBotSettings (Some settings) initialWorld.

Definition hi (channelId : JSString) : WhatsAppMessage :=
  {| wm_from := js "15551234567"; wm_id := channelId;
     wm_timestamp := js "1700000000"; wm_text := Some (js "Hi");
     wm_type := Text; wm_context := None |}.

Definition contact : WhatsAppContact :=
  {| profile_name := js "Ada"; wa_id := js "15551234567" |}.

End Sample.

(** * The rest of the code *)

(** ** Numbers, [slice] and [sort] *)

(** A number that is an integer or [NaN] (what [parseInt] and the callers
    of the queries produce). *)
Inductive JSNumber := Int (z : Z) | NaN.

(** [if (n)] on a number. *)
Definition truthyNumber (n : JSNumber) : bool :=
  match n with
  | Int z => negb (z =? 0)
  | NaN => false
  end.

(** [ToIntegerOrInfinity]. *)
Definition toInteger (n : JSNumber) : Z :=
  match n with
  | Int z => z
  | NaN => 0
  end.

(** A relative index of [slice], clamped to [0 .. len]. *)
Definition relativeIndex (len : nat) (rel : Z) : nat :=
  if rel <? 0 then Z.to_nat (Z.max (Z.of_nat len + rel) 0)
  else Nat.min (Z.to_nat rel) len.

(** [l.slice(start, end)]; [None] is an [end] that is not given. *)
Definition jsSlice {A} (start : JSNumber) (end_ : option JSNumber) (l : list A)
  : list A :=
  let k := relativeIndex (length l) (toInteger start) in
  let final :=
    match end_ with
    | Some e => relativeIndex (length l) (toInteger e)
    | None => length l
    end in
  take (final - k) (drop k l).

(** [a.getTime() > b.getTime()]: false when one of the dates is invalid. *)
Definition laterThan (a b : Date) : bool :=
  match a, b with
  | ValidDate x, ValidDate y => y <? x
  | _, _ => false
  end.

(** [l.sort((a, b) => key(b).getTime() - key(a).getTime())]: the stable
    sort, newest first. Where a date is invalid the comparator answers
    [NaN], it is no consistent comparator and the order is the engine's;
    what is proved of the order assumes valid dates. *)
Fixpoint insertNewestFirst {A} (key : A -> Date) (x : A) (l : list A) : list A :=
  match l with
  | [] => [x]
  | y :: r =>
      if laterThan (key y) (key x) then y :: insertNewestFirst key x r
      else x :: y :: r
  end.

Definition sortNewestFirst {A} (key : A -> Date) (l : list A) : list A :=
  foldr (insertNewestFirst key) [] l.

(** ** The queries of [src/lib/database.ts] *)

Module CustomerQueries.

Record Options := {
  limit : option JSNumber;
  offset : option JSNumber;
  status : option CustomerStatus;
}.

(** [CustomerDatabase.findAll(options)]: the status filter, then the
    offset, then the limit, and the sort last, all on a copy. *)
Definition findAll (options : option Options) (w : World) : list Customer.t :=
  let result := customers w in
  let result :=
    match options ≫= status with
    | Some st => filter (λ c, Customer.status c = st) result
    | None => result
    end in
  let result :=
    match options ≫= offset with
    | Some n => if truthyNumber n then jsSlice n None result else result
    | None => result
    end in
  let result :=
    match options ≫= limit with
    | Some n => if truthyNumber n then jsSlice (Int 0) (Some n) result else result
    | None => result
    end in
  sortNewestFirst Customer.lastMessageAt result.

End CustomerQueries.

Module MessageQueries.

Record Options := { limit : option JSNumber; offset : option JSNumber }.

(** [MessageDatabase.findByCustomerId(customerId, options)]: the filter
    makes a new array, which is sorted and then cut. *)
Definition findByCustomerId (customerId : JSString) (options : option Options)
    (w : World) : list Message.t :=
  let result := filter (λ m, Message.customerId m = customerId) (messages w) in
  let result := sortNewestFirst Message.timestamp result in
  let result :=
    match options ≫= offset with
    | Some n => if truthyNumber n then jsSlice n None result else result
    | None => result
    end in
  match options ≫= limit with
  | Some n => if truthyNumber n then jsSlice (Int 0) (Some n) result else result
  | None => result
  end.

(** [MessageDatabase.findRecent(limit = 50)]: [sort] works on the
    [messages] array itself, which stays sorted afterwards; [None] is a
    limit that is not given. *)
Definition findRecent (limit : option JSNumber) (w : World) : list Message.t * World :=
  let sorted := sortNewestFirst Message.timestamp (messages w) in
  (jsSlice (Int 0) (Some (default (Int 50) limit)) sorted, setMessages sorted w).

(** [MessageProcessor.getConversationHistory(customerId, limit = 50)] *)
Definition getConversationHistory (customerId : JSString) (limit : option JSNumber)
    (w : World) : list Message.t :=
  findByCustomerId customerId
    (Some {| limit := Some (default (Int 50) limit); offset := None |}) w.

(** [MessageProcessor.getRecentMessages(limit = 100)] *)
Definition getRecentMessages (limit : option JSNumber) (w : World)
  : list Message.t * World :=
  findRecent (Some (default (Int 100) limit)) w.

End MessageQueries.

Module SettingsUpdate.

(** [Partial<BotSettings>]: [None] is a key the object does not have. *)
Record Partial := {
  u_id : option JSString;
  u_isActive : option bool;
  u_businessHours : option BotSettings.BusinessHoursConfig;
  u_autoReply : option BotSettings.AutoReply;
  u_webhookUrl : option JSString;
  u_verifyToken : option JSString;
  u_accessToken : option JSString;
  u_phoneNumberId : option JSString;
  u_createdAt : option Date;
  u_updatedAt : option Date;
}.

(** [{ ...current, ...updates, updatedAt }] *)
Definition spread (s : BotSettings.t) (u : Partial) (updated : Date) : BotSettings.t :=
  {| BotSettings.id := default (BotSettings.id s) (u_id u);
     BotSettings.isActive := default (BotSettings.isActive s) (u_isActive u);
     BotSettings.businessHours :=
       default (BotSettings.businessHours s) (u_businessHours u);
     BotSettings.autoReply := default (BotSettings.autoReply s) (u_autoReply u);
     BotSettings.webhookUrl := default (BotSettings.webhookUrl s) (u_webhookUrl u);
     BotSettings.verifyToken := default (BotSettings.verifyToken s) (u_verifyToken u);
     BotSettings.accessToken := default (BotSettings.accessToken s) (u_accessToken u);
     BotSettings.phoneNumberId :=
       default (BotSettings.phoneNumberId s) (u_phoneNumberId u);
     BotSettings.createdAt := default (BotSettings.createdAt s) (u_createdAt u);
     BotSettings.updatedAt := updated |}.

(** [SettingsDatabase.update(updates)]. [get] never answers [null]; the
    branch for it is never taken. *)
Definition update (e : Env) (updates : Partial) (w : World) : BotSettings.t * World :=
  let '(current, w1) := SettingsDatabase.get e w in
  let s :=
    spread (default (SettingsDatabase.defaultSettings e) current) updates
      (ValidDate (now e)) in
  (s, setBotSettings (Some s) w1).

End SettingsUpdate.

(** ** The utilities of [src/lib/whatsapp.ts] *)

Module WhatsAppUtil.

(** [WhatsAppAPI.verifySignature]: the payload and the secret are not
    read. *)
Definition verifySignature (payload signature secret : JSString) : bool :=
  if bool_decide (signature = []) then false else true.

Definition isDigit (c : N) : bool := ((0x30 <=? c) && (c <=? 0x39))%N.

(** [phoneNumber.replace(/[^\d]/g, '')] *)
Definition formatPhoneNumber (phoneNumber : JSString) : JSString :=
  filter (λ c, isDigit c = true) phoneNumber.


End WhatsAppUtil.

Module MessageFormatter.

(** [MessageFormatter.formatPhoneNumber] *)
Definition formatPhoneNumber (phoneNumber : JSString) : JSString :=
  let cleaned := filter (λ c, WhatsAppUtil.isDigit c = true) phoneNumber in
  if bool_decide (length cleaned = 11%nat) && startsWith (js "1") cleaned
  then js "+" ++ cleaned
  else if bool_decide (length cleaned = 10%nat) then js "+1" ++ cleaned
  else js "+" ++ cleaned.

End MessageFormatter.

(** ** What the stores of the pipeline keep *)

(** The credentials of the stored settings are not both set (the settings
    not yet initialised count: the defaults have none). *)
Definition credentialsUnset (w : World) : Prop :=
  match botSettings w with
  | Some s => BotSettings.accessToken s = [] ∨ BotSettings.phoneNumberId s = []
  | None => True
  end.

(** A store that has never sent anything: no credentials, only inbound
    messages on record, only new customers. *)
Definition silent (w : World) : Prop :=
  credentialsUnset w
  ∧ (∀ m, m ∈ messages w → Message.direction m = Incoming)
  ∧ (∀ c, c ∈ customers w → Customer.isNew c = true).

(** The inbound messages on record. *)
Definition incomingMessages (w : World) : list Message.t :=
  filter (λ m, Message.direction m = Incoming) (messages w).

(** The inbound messages recorded for a customer id. *)
Definition incomingOf (cid : JSString) (w : World) : list Message.t :=
  filter (λ m, Message.customerId m = cid ∧ Message.direction m = Incoming)
    (messages w).

(** The message counts agree with the ledger: the customer ids are
    pairwise distinct, the count of every customer is the number of inbound
    messages recorded for it, and every inbound message is recorded for a
    stored customer. *)
Definition counted (w : World) : Prop :=
  NoDup (Customer.id <$> customers w)
  ∧ (∀ c, c ∈ customers w →
       Customer.messageCount c = Z.of_nat (length (incomingOf (Customer.id c) w)))
  ∧ (∀ m, m ∈ messages w → Message.direction m = Incoming →
       ∃ c, c ∈ customers w ∧ Customer.id c = Message.customerId m).

(** ** The order of the queries *)

(** No element comes before one that is strictly later. *)
Definition newestFirst {A} (key : A -> Date) (l : list A) : Prop :=
  ∀ i j a b, l !! i = Some a → l !! j = Some b → (i < j)%nat →
    laterThan (key b) (key a) = false.

Definition validDate (d : Date) : Prop :=
  match d with
  | ValidDate _ => True
  | InvalidDate => False
  end.

(** ** The fallback text *)

(** The settings with another fallback text. *)
Definition withFallbackMessage (text : JSString) (s : BotSettings.t) : BotSettings.t :=
  {| BotSettings.id := BotSettings.id s;
     BotSettings.isActive := BotSettings.isActive s;
     BotSettings.businessHours := BotSettings.businessHours s;
     BotSettings.autoReply :=
       {| BotSettings.newCustomerMessage :=
            BotSettings.newCustomerMessage (BotSettings.autoReply s);
          BotSettings.returningCustomerMessage :=
            BotSettings.returningCustomerMessage (BotSettings.autoReply s);
          BotSettings.afterHoursMessage :=
            BotSettings.afterHoursMessage (BotSettings.autoReply s);
          BotSettings.fallbackMessage := text |};
     BotSettings.webhookUrl := BotSettings.webhookUrl s;
     BotSettings.verifyToken := BotSettings.verifyToken s;
     BotSettings.accessToken := BotSettings.accessToken s;
     BotSettings.phoneNumberId := BotSettings.phoneNumberId s;
     BotSettings.createdAt := BotSettings.createdAt s;
     BotSettings.updatedAt := BotSettings.updatedAt s |}.

(** ** More sample data *)

Module Sample2.

(** [Sample.env] with the customer id that [generateId] returns chosen. *)
Definition env (t : Z) (customerId : JSString) : Env :=
  {| now := t;
     newCustomerId := customerId;
     newIncomingId := js "in-" ++ [Z.to_N t];
     newOutgoingId := js "out-" ++ [Z.to_N t];
     windowOrigin := None;
     localWeekday := λ _, Some Monday;
     localTime := λ _, Some (js "10:30");
     graphSend := λ _ _ _, Some Sample.okResponse;
     graphMarkRead := λ _ _, true |}.

(** Monday 20:00 in every zone, after the closing time of the default
    schedule. *)
Definition evening (t : Z) : Env :=
  {| now := t;
     newCustomerId := js "cust-1";
     newIncomingId := js "in-" ++ [Z.to_N t];
     newOutgoingId := js "out-" ++ [Z.to_N t];
     windowOrigin := None;
     localWeekday := λ _, Some Monday;
     localTime := λ _, Some (js "20:00");
     graphSend := λ _ _ _, Some Sample.okResponse;
     graphMarkRead := λ _ _, true |}.

End Sample2.

(** ** [MessageValidator.sanitizeMessageContent] *)

Module Sanitizer.

(** Where ["</script>"], in any case, first begins in [s] with no line
    terminator before it: what [.*?<\/script>] matches at the head of [s],
    less the nine code units of the closing tag. *)
Fixpoint closingAt (s : JSString) : option nat :=
  if startsWithCI (js "</script>") s then Some 0%nat
  else match s with
       | [] => None
       | c :: r => if isLineTerminator c then None else S <$> closingAt r
       end.

(** The length of the match of [/<script[^>]*>.*?<\/script>/i] at the head
    of [s]: the opening tag runs to the first [>], which [[^>]*] cannot
    cross. *)
Definition scriptAt (s : JSString) : option nat :=
  if startsWithCI (js "<script") s then
    let afterName := drop 7 s in
    match list_find (λ c, c = 0x3E%N) afterName with
    | Some (a, _) =>
        (λ b, 7 + a + 1 + b + 9)%nat <$> closingAt (drop (S a) afterName)
    | None => None
    end
  else None.

(** [s.replace(/<script[^>]*>.*?<\/script>/gi, '')]: [skip] code units of
    a match are still to be dropped. *)
Fixpoint removeScripts (skip : nat) (s : JSString) : JSString :=
  match s with
  | [] => []
  | c :: r =>
      match skip with
      | S k => removeScripts k r
      | O =>
          match scriptAt s with
          | Some n => removeScripts (n - 1) r
          | None => c :: removeScripts 0 r
          end
      end
  end.

(** [s.replace(/<[^>]*>/g, '')]: a [<] opens a match exactly when a [>]
    follows somewhere, and the match ends at the first one. *)
Fixpoint removeTags (inTag : bool) (s : JSString) : JSString :=
  match s with
  | [] => []
  | c :: r =>
      if inTag then removeTags (negb (c =? 0x3E)%N) r
      else if (c =? 0x3C)%N && bool_decide (0x3E%N ∈ r) then removeTags true r
      else c :: removeTags false r
  end.

Definition sanitizeMessageContent (content : JSString) : JSString :=
  trim (take 1000 (removeTags false (removeScripts 0 content))).

(** A [<] with a [>] somewhere after it: what [/<[^>]*>/] matches. *)
Definition hasTag (s : JSString) : Prop :=
  ∃ before after, s = before ++ 0x3C%N :: after ∧ 0x3E%N ∈ after.

End Sanitizer.

(** ** The routes *)

Module WebhookRoute.

(** [WhatsAppStatus], [WhatsAppValue], [WhatsAppChange], [WhatsAppEntry]
    and [WhatsAppWebhookPayload], with the fields the handler reads. *)
Record WhatsAppStatus := { st_id : JSString; st_status : JSString }.

Inductive ChangeField := FieldMessages | FieldMessageTemplateStatusUpdate.

Record WhatsAppValue := {
  v_contacts : option (list WhatsAppContact);
  v_messages : option (list WhatsAppMessage);
  v_statuses : option (list WhatsAppStatus);
}.

Record WhatsAppChange := { ch_value : WhatsAppValue; ch_field : ChangeField }.
Record WhatsAppEntry := { en_changes : list WhatsAppChange }.
Record WhatsAppWebhookPayload := { entry : list WhatsAppEntry }.

Inductive Response :=
| Verified (challenge : option JSString)
| VerificationFailed
| InvalidSignature
| Acknowledged
| ProcessingFailed.

Definition statusCode (r : Response) : Z :=
  match r with
  | Verified _ => 200
  | VerificationFailed => 403
  | InvalidSignature => 401
  | Acknowledged => 200
  | ProcessingFailed => 200
  end.

(** [GET]: the verification handshake, against the literal token. *)
Definition get (mode token challenge : option JSString) : Response :=
  if bool_decide (mode = Some (js "subscribe"))
     && bool_decide (token = Some (js "default_verify_token"))
  then Verified challenge else VerificationFailed.

(** What one change hands to the processor, in the order of the handler:
    its messages, then its statuses. *)
Definition changeEvents (change : WhatsAppChange) : list Event :=
  match ch_field change with
  | FieldMessages =>
      let value := ch_value change in
      ((λ m, IncomingMessage m (v_contacts value)) <$> default [] (v_messages value))
      ++ ((λ s, StatusUpdate (st_id s) (st_status s)) <$> default [] (v_statuses value))
  | FieldMessageTemplateStatusUpdate => []
  end.

Definition payloadEvents (payload : WhatsAppWebhookPayload) : list Event :=
  e ← entry payload; change ← en_changes e; changeEvents change.

(** The messages of a delivery that the handler hands to the processor,
    and those of a list of events. *)
Definition deliveredMessages (payload : WhatsAppWebhookPayload) : list WhatsAppMessage :=
  e ← entry payload; change ← en_changes e;
  match ch_field change with
  | FieldMessages => default [] (v_messages (ch_value change))
  | FieldMessageTemplateStatusUpdate => []
  end.

Definition eventMessages (evs : list Event) : list WhatsAppMessage :=
  ev ← evs;
  match ev with
  | IncomingMessage message _ => [message]
  | _ => []
  end.

(** [signature && !WhatsAppAPI.verifySignature(body, signature, 'webhook_secret')] *)
Definition signatureRefused (body : JSString) (signature : option JSString) : bool :=
  match signature with
  | Some s =>
      negb (bool_decide (s = []))
      && negb (WhatsAppUtil.verifySignature body s (js "webhook_secret"))
  | None => false
  end.

(** What the handler meets when it parses the body and walks the result.
    The body is not validated, so [JSON.parse] may return any value:
    - [Unparsable]: [JSON.parse] throws;
    - [Payload]: it returns a value of the declared type
      [WhatsAppWebhookPayload];
    - [Interrupted]: it returns a value on which the walk throws (a [null]
      in the place of a message, an entry without [changes], ...) after it
      has handed [handled] to the processor, each event of the declared
      parameter types.
    A value that hands the processor a message, a contact or a status that
    is not of the declared type has no counterpart here: the processor is
    modelled on its parameter types only. *)
Inductive Delivery :=
| Unparsable
| Payload (payload : WhatsAppWebhookPayload)
| Interrupted (handled : list Event).

(** [POST]: [signature] is the header, [None] when it is absent; [envOf k]
    is the environment of the [k]-th call of the processor. What was done
    before the walk threw stays done, and the [catch] answers 200 as
    well. *)
Definition post (envOf : nat -> Env) (signature : option JSString) (body : JSString)
    (parsed : Delivery) (w : World) : Response * World :=
  if signatureRefused body signature then (InvalidSignature, w)
  else match parsed with
       | Payload payload =>
           (Acknowledged, run (imap (λ k ev, (envOf k, ev)) (payloadEvents payload)) w)
       | Interrupted handled =>
           (ProcessingFailed, run (imap (λ k ev, (envOf k, ev)) handled) w)
       | Unparsable => (ProcessingFailed, w)
       end.

End WebhookRoute.

Module SettingsRoute.

(** The body of a [PUT] of type 'general', its fields of the declared
    types; [None] is a field that is absent. *)
Record GeneralBody := {
  isActive : option bool;
  businessHours : option BotSettings.BusinessHoursConfig;
  autoReply : option BotSettings.AutoReply;
  accessToken : option JSString;
  phoneNumberId : option JSString;
  verifyToken : option JSString;
}.

(** [if (x) updates.x = x] on a string. *)
Definition nonEmpty (s : option JSString) : option JSString :=
  match s with
  | Some (c :: r) => Some (c :: r)
  | _ => None
  end.

Definition generalUpdates (body : GeneralBody) : SettingsUpdate.Partial :=
  {| SettingsUpdate.u_id := None;
     SettingsUpdate.u_isActive := isActive body;
     SettingsUpdate.u_businessHours := businessHours body;
     SettingsUpdate.u_autoReply := autoReply body;
     SettingsUpdate.u_webhookUrl := None;
     SettingsUpdate.u_verifyToken := nonEmpty (verifyToken body);
     SettingsUpdate.u_accessToken := nonEmpty (accessToken body);
     SettingsUpdate.u_phoneNumberId := nonEmpty (phoneNumberId body);
     SettingsUpdate.u_createdAt := None;
     SettingsUpdate.u_updatedAt := None |}.

(** [PUT] with [type === 'general']: the updated settings of the answer,
    and the store. *)
Definition putGeneral (e : Env) (body : GeneralBody) (w : World)
  : BotSettings.t * World :=
  SettingsUpdate.update e (generalUpdates body) w.

End SettingsRoute.

Module CustomersRoute.


Inductive Response :=
| Updated (customer : Customer.t)
| IdRequired
| NotFound.

Definition statusCode (r : Response) : Z :=
  match r with
  | Updated _ => 200
  | IdRequired => 400
  | NotFound => 404
  end.



End CustomersRoute.

Module MessagesRoute.

Record PostBody := {
  customerId : option JSString;
  content : option JSString;
  type : option JSString;
}.

Inductive Response :=
| Sent_ (messageId : option JSString)
| Refused (error : option ErrorMessage).

Definition statusCode (r : Response) : Z :=
  match r with
  | Sent_ _ => 200
  | Refused _ => 400
  end.

(** [POST]: [type] is 'manual' when it is not given. *)
Definition post (e : Env) (body : PostBody) (w : World) : Response * World :=
  match SettingsRoute.nonEmpty (customerId body),
        SettingsRoute.nonEmpty (content body) with
  | Some customerId, Some content =>
      if bool_decide (default (js "manual") (type body) = js "manual") then
        let '(result, w') := MessageProcessor.sendManualMessage e customerId content w in
        if MessageProcessor.m_success result
        then (Sent_ (MessageProcessor.m_messageId result), w')
        else (Refused (MessageProcessor.m_error result), w')
      else (Refused (Some (Literal (js "Invalid message type"))), w)
  | _, _ => (Refused (Some (Literal (js "customerId and content are required"))), w)
  end.

End MessagesRoute.

(** * Properties *)

Import MessageProcessor.

(** ** Lookups *)

Lemma findByPhoneNumber_None phoneNumber w :
  CustomerDatabase.findByPhoneNumber phoneNumber w = None
  ↔ ∀ c, c ∈ customers w → Customer.phoneNumber c ≠ phoneNumber.
Proof.
  unfold CustomerDatabase.findByPhoneNumber.
  rewrite fmap_None, list_find_None, Forall_forall. done.
Qed.

Lemma findByPhoneNumber_Some phoneNumber w c :
  CustomerDatabase.findByPhoneNumber phoneNumber w = Some c
  ↔ ∃ i, customers w !! i = Some c ∧ Customer.phoneNumber c = phoneNumber
         ∧ ∀ j c', customers w !! j = Some c' → (j < i)%nat
                   → Customer.phoneNumber c' ≠ phoneNumber.
Proof.
  unfold CustomerDatabase.findByPhoneNumber. rewrite fmap_Some. split.
  - intros [[i c'] [Hfind ->]]. apply list_find_Some in Hfind. eauto.
  - intros [i Hi]. exists (i, c). split; [|done]. by apply list_find_Some.
Qed.


(** ** Status updates *)

Lemma updateStatus_unknown e messageId st w :
  (∀ m, m ∈ messages w → Message.messageId m ≠ messageId) →
  MessageDatabase.updateStatus e messageId st w = (None, w).
Proof.
  intros Hnone. unfold MessageDatabase.updateStatus.
  replace (list_find _ (messages w)) with (@None (nat * Message.t)); [done|].
  symmetry. apply list_find_None, Forall_forall. done.
Qed.

Lemma updateStatus_first e messageId st w i m :
  firstMessageWith messageId w i m →
  MessageDatabase.updateStatus e messageId st w
  = (Some (Message.withStatus m st (ValidDate (now e))),
     setMessages (<[i := Message.withStatus m st (ValidDate (now e))]> (messages w)) w).
Proof.
  intros (Hi & Hm & Hfirst). unfold MessageDatabase.updateStatus.
  replace (list_find _ (messages w)) with (Some (i, m)); [done|].
  symmetry. apply list_find_Some. eauto.
Qed.

Lemma firstMessageWith_updated e messageId st w i m :
  firstMessageWith messageId w i m →
  firstMessageWith messageId
    (snd (MessageDatabase.updateStatus e messageId st w)) i
    (Message.withStatus m st (ValidDate (now e))).
Proof.
  intros Hfirst. rewrite (updateStatus_first _ _ _ _ _ _ Hfirst).
  destruct Hfirst as (Hi & Hm & Hfirst). unfold firstMessageWith. cbn.
  split; [|split].
  - apply list_lookup_insert_eq. by eapply lookup_lt_Some.
  - done.
  - intros j m' Hj Hlt. rewrite list_lookup_insert_ne in Hj by lia. eauto.
Qed.

Lemma coerceStatus_unrecognized status :
  status ∉ [js "sent"; js "delivered"; js "read"; js "failed"] →
  coerceStatus status = Sent.
Proof.
  intros Hnot. unfold coerceStatus.
  repeat case_bool_decide; try done; subst; exfalso; apply Hnot; set_solver.
Qed.


(** ** The auto-reply and the inbound pipeline, step by step *)

Lemma get_settings e w :
  ∃ s, SettingsDatabase.get e w = (Some s, setBotSettings (Some s) w)
       ∧ s = default (SettingsDatabase.defaultSettings e) (botSettings w).
Proof.
  unfold SettingsDatabase.get. destruct w as [cs ms [s|] api rq rm]; cbn; eauto.
Qed.

(** The outcome of [processAutoReply], read off the settings. *)
Lemma processAutoReply_cases e customer content w :
  let s := default (SettingsDatabase.defaultSettings e) (botSettings w) in
  let reply := templateText (BotSettings.autoReply s) (selectTemplate e s customer) in
  let api := WhatsAppAPIOps.make (BotSettings.accessToken s) (BotSettings.phoneNumberId s) in
  (fst (processAutoReply e customer content w) = false
   ∧ messages (snd (processAutoReply e customer content w)) = messages w)
  ∨ (∃ response channelId rest,
       BotSettings.isActive s = true
       ∧ shouldSendAutoReply content = true
       ∧ WhatsAppAPIOps.sendMessage e api (Customer.phoneNumber customer) reply = Some response
       ∧ resp_messages response = channelId :: rest
       ∧ fst (processAutoReply e customer content w) = true
       ∧ messages (snd (processAutoReply e customer content w))
         = messages w ++ [Message.ofData (autoReplyRecord customer channelId reply e)
                            (newOutgoingId e) (ValidDate (now e)) (ValidDate (now e))]).
Proof.
  intros s reply api. unfold processAutoReply.
  destruct (get_settings e w) as (s' & -> & Hs). fold s in Hs. subst s'.
  destruct (BotSettings.isActive s) eqn:Hactive; cbn; [|by left].
  destruct (shouldSendAutoReply content) eqn:Hshould; cbn; [|by left].
  fold reply api.
  destruct (WhatsAppAPIOps.sendMessage e api _ reply) as [response|] eqn:Hsend;
    [|by left].
  destruct (resp_messages response) as [|channelId rest] eqn:Hresp; [by left|].
  right. exists response, channelId, rest. done.
Qed.

Lemma processAutoReply_frame e customer content w :
  customers (snd (processAutoReply e customer content w)) = customers w
  ∧ requests (snd (processAutoReply e customer content w)) = requests w
  ∧ recentMessages (snd (processAutoReply e customer content w)) = recentMessages w.
Proof.
  unfold processAutoReply.
  destruct (get_settings e w) as (s & -> & _).
  unfold MessageDatabase.create. repeat case_match; simplify_eq/=; done.
Qed.

Lemma processAutoReply_reads_settings e customer content w w' :
  botSettings w = botSettings w' →
  fst (processAutoReply e customer content w)
  = fst (processAutoReply e customer content w').
Proof.
  intros Heq. unfold processAutoReply.
  destruct (get_settings e w) as (s & -> & Hs).
  destruct (get_settings e w') as (s' & -> & Hs').
  rewrite <- Heq in Hs'. subst s'.
  unfold MessageDatabase.create. repeat case_match; simplify_eq/=; congruence.
Qed.

(** What [findOrCreateCustomer] returns and stores. *)
Lemma findOrCreateCustomer_messages e phoneNumber contacts w :
  messages (snd (findOrCreateCustomer e phoneNumber contacts w)) = messages w
  ∧ botSettings (snd (findOrCreateCustomer e phoneNumber contacts w)) = botSettings w
  ∧ requests (snd (findOrCreateCustomer e phoneNumber contacts w)) = requests w
  ∧ recentMessages (snd (findOrCreateCustomer e phoneNumber contacts w))
    = recentMessages w.
Proof.
  unfold findOrCreateCustomer, CustomerDatabase.create.
  destruct (CustomerDatabase.findByPhoneNumber phoneNumber w); done.
Qed.

Lemma update_frame e id updates w :
  messages (snd (CustomerDatabase.update e id updates w)) = messages w
  ∧ botSettings (snd (CustomerDatabase.update e id updates w)) = botSettings w
  ∧ whatsappApi (snd (CustomerDatabase.update e id updates w)) = whatsappApi w
  ∧ requests (snd (CustomerDatabase.update e id updates w)) = requests w
  ∧ recentMessages (snd (CustomerDatabase.update e id updates w)) = recentMessages w.
Proof.
  unfold CustomerDatabase.update. destruct (list_find _ _) as [[i c]|]; done.
Qed.

Lemma markAsReturning_frame e phoneNumber w :
  messages (CustomerDatabase.markAsReturning e phoneNumber w) = messages w
  ∧ botSettings (CustomerDatabase.markAsReturning e phoneNumber w) = botSettings w
  ∧ whatsappApi (CustomerDatabase.markAsReturning e phoneNumber w) = whatsappApi w
  ∧ requests (CustomerDatabase.markAsReturning e phoneNumber w) = requests w
  ∧ recentMessages (CustomerDatabase.markAsReturning e phoneNumber w)
    = recentMessages w.
Proof.
  unfold CustomerDatabase.markAsReturning.
  destruct (CustomerDatabase.findByPhoneNumber phoneNumber w); [|done].
  apply update_frame.
Qed.

(** The shape of [processIncomingMessage]: its five steps, named. *)
Lemma processIncomingMessage_unfold e message contacts w :
  let p := WhatsAppAPIOps.parseIncomingMessage message in
  let r1 := findOrCreateCustomer e (wm_from message) contacts w in
  let customer := fst r1 in
  let r2 := MessageDatabase.create e (newIncomingId e)
              (incomingRecord customer message) (snd r1) in
  let r3 := CustomerDatabase.update e (Customer.id customer)
              (activityUpdate customer (WhatsAppAPIOps.p_timestamp p)) (snd r2) in
  let r4 := processAutoReply e customer (WhatsAppAPIOps.p_content p) (snd r3) in
  processIncomingMessage e message contacts w
  = ({| success := true; autoReplySent := Some (fst r4); error := None |},
     if fst r4 && Customer.isNew customer
     then CustomerDatabase.markAsReturning e (wm_from message) (snd r4)
     else snd r4).
Proof.
  cbv zeta. unfold processIncomingMessage. cbn [WhatsAppAPIOps.p_from WhatsAppAPIOps.parseIncomingMessage].
  destruct (findOrCreateCustomer _ _ _ _) as [customer w1]. cbn [fst snd].
  destruct (MessageDatabase.create _ _ _ _) as [m w2]. cbn [fst snd].
  destruct (CustomerDatabase.update _ _ _ _) as [c' w3]. cbn [fst snd].
  destruct (processAutoReply _ _ _ _) as [sent w4]. done.
Qed.

Lemma processIncomingMessage_messages e message contacts w :
  let customer := fst (findOrCreateCustomer e (wm_from message) contacts w) in
  let result := processIncomingMessage e message contacts w in
  let incoming := Message.ofData (incomingRecord customer message)
                    (newIncomingId e) (ValidDate (now e)) (ValidDate (now e)) in
  ∃ sent, autoReplySent (fst result) = Some sent
    ∧ (if sent
       then ∃ reply, messages (snd result) = messages w ++ [incoming; reply]
                     ∧ Message.customerId reply = Customer.id customer
                     ∧ Message.direction reply = Outgoing
                     ∧ Message.isAutoReply reply = true
       else messages (snd result) = messages w ++ [incoming]).
Proof.
  cbv zeta. rewrite processIncomingMessage_unfold. cbv zeta. cbn [fst snd autoReplySent].
  set (r1 := findOrCreateCustomer e (wm_from message) contacts w).
  set (customer := fst r1).
  set (w2 := snd (MessageDatabase.create _ _ _ (snd r1))).
  set (w3 := snd (CustomerDatabase.update _ _ _ w2)).
  set (r4 := processAutoReply _ _ _ w3).
  assert (Hm3 : messages w3 = messages w ++ [Message.ofData (incomingRecord customer message)
                    (newIncomingId e) (ValidDate (now e)) (ValidDate (now e))]).
  { subst w3. destruct (update_frame e (Customer.id customer)
      (activityUpdate customer (WhatsAppAPIOps.p_timestamp (WhatsAppAPIOps.parseIncomingMessage message))) w2) as (-> & _).
    subst w2 customer r1. unfold MessageDatabase.create. cbn [messages setMessages snd fst].
    by destruct (findOrCreateCustomer_messages e (wm_from message) contacts w) as (-> & _). }
  exists (fst r4). split; [done|].
  assert (Hm5 : messages (if fst r4 && Customer.isNew customer
     then CustomerDatabase.markAsReturning e (wm_from message) (snd r4)
     else snd r4) = messages (snd r4)).
  { destruct (fst r4 && Customer.isNew customer); [|done].
    by destruct (markAsReturning_frame e (wm_from message) (snd r4)) as (-> & _). }
  rewrite Hm5.
  destruct (processAutoReply_cases e customer
              (WhatsAppAPIOps.p_content (WhatsAppAPIOps.parseIncomingMessage message)) w3)
    as [[Hsent Hmsgs] | (response & channelId & rest & _ & _ & _ & _ & Hsent & Hmsgs)];
    fold r4 in Hsent, Hmsgs; rewrite Hsent, Hmsgs, Hm3.
  - done.
  - eexists. rewrite <- app_assoc. split; [done|]. done.
Qed.

Lemma findOrCreateCustomer_reads_customers e phoneNumber contacts w w' :
  customers w = customers w' →
  fst (findOrCreateCustomer e phoneNumber contacts w)
  = fst (findOrCreateCustomer e phoneNumber contacts w').
Proof.
  intros Heq. unfold findOrCreateCustomer, CustomerDatabase.findByPhoneNumber.
  rewrite <- Heq. by destruct (list_find _ (customers w)) as [[i c]|].
Qed.

(** Whether the auto-reply of an inbound message is sent is decided from
    the resolved customer, the content and the settings. *)
Lemma processIncomingMessage_sent e message contacts w w' :
  botSettings w' = botSettings w →
  autoReplySent (fst (processIncomingMessage e message contacts w))
  = Some (fst (processAutoReply e
                 (fst (findOrCreateCustomer e (wm_from message) contacts w))
                 (WhatsAppAPIOps.p_content (WhatsAppAPIOps.parseIncomingMessage message))
                 w')).
Proof.
  intros Hs. rewrite processIncomingMessage_unfold. cbv zeta.
  cbn [fst autoReplySent]. f_equal.
  apply processAutoReply_reads_settings. rewrite Hs.
  destruct (update_frame e
    (Customer.id (fst (findOrCreateCustomer e (wm_from message) contacts w)))
    (activityUpdate (fst (findOrCreateCustomer e (wm_from message) contacts w))
       (WhatsAppAPIOps.p_timestamp (WhatsAppAPIOps.parseIncomingMessage message)))
    (snd (MessageDatabase.create e (newIncomingId e)
       (incomingRecord (fst (findOrCreateCustomer e (wm_from message) contacts w)) message)
       (snd (findOrCreateCustomer e (wm_from message) contacts w)))))
    as (_ & -> & _).
  unfold MessageDatabase.create. cbn [snd botSettings setMessages].
  by destruct (findOrCreateCustomer_messages e (wm_from message) contacts w)
    as (_ & -> & _).
Qed.

Lemma storedWith_app messageId d w ms :
  storedWith messageId d (setMessages (messages w ++ ms) w)
  = storedWith messageId d w
    ++ filter (λ m, Message.messageId m = messageId ∧ Message.direction m = d) ms.
Proof. unfold storedWith. cbn. apply filter_app. Qed.

Lemma processIncomingMessage_stored e message contacts w :
  length (storedWith (wm_id message) Incoming
            (snd (processIncomingMessage e message contacts w)))
  = S (length (storedWith (wm_id message) Incoming w)).
Proof.
  destruct (processIncomingMessage_messages e message contacts w)
    as (sent & _ & Hmsgs).
  unfold storedWith. destruct sent.
  - destruct Hmsgs as (reply & -> & _ & Hout & _).
    rewrite filter_app, length_app.
    rewrite filter_cons_True by done.
    rewrite filter_cons_False by (rewrite Hout; intros [_ ?]; discriminate).
    cbn. lia.
  - rewrite Hmsgs, filter_app, length_app.
    rewrite filter_cons_True by done. cbn. lia.
Qed.

(** ** String comparison *)

Lemma jsLt_lexLt a b : jsLt a b = true ↔ lexLt a b.
Proof.
  revert b. induction a as [|x a IH]; intros [|y b]; cbn.
  - split; [done|]. inversion 1.
  - split; [constructor|done].
  - split; [done|]. inversion 1.
  - destruct (N.ltb_spec x y) as [Hxy|Hxy].
    { split; [by constructor|done]. }
    destruct (N.ltb_spec y x) as [Hyx|Hyx].
    { split; [done|]. inversion 1; subst; lia. }
    assert (x = y) as -> by lia. rewrite IH. split.
    + by constructor.
    + inversion 1; subst; [lia|done].
Qed.

Lemma jsLt_irrefl a : jsLt a a = false.
Proof.
  induction a as [|x a IH]; [done|]. cbn. by rewrite N.ltb_irrefl.
Qed.

Lemma jsLt_asym a b : jsLt a b = true → jsLt b a = false.
Proof.
  revert b. induction a as [|x a IH]; intros [|y b]; cbn; try done.
  destruct (N.ltb_spec x y) as [Hxy|Hxy].
  - intros _. destruct (N.ltb_spec y x); [lia|done].
  - destruct (N.ltb_spec y x) as [Hyx|Hyx]; [done|]. apply IH.
Qed.

Lemma jsLt_connected a b : jsLt b a = false → a = b ∨ jsLt a b = true.
Proof.
  revert b. induction a as [|x a IH]; intros [|y b]; cbn; try done; eauto.
  destruct (N.ltb_spec y x) as [Hyx|Hyx]; [done|].
  destruct (N.ltb_spec x y) as [Hxy|Hxy]; [by right|].
  assert (x = y) as -> by lia.
  intros Hba. destruct (IH _ Hba) as [-> | Hab]; eauto.
Qed.

(** [a <= b] on strings is the lexicographic order, the equal strings
    included. *)
Lemma jsLe_lexLe a b : jsLe a b = true ↔ lexLe a b.
Proof.
  unfold jsLe, lexLe. rewrite negb_true_iff, <- jsLt_lexLt. split.
  - apply jsLt_connected.
  - intros [-> | Hab]; [apply jsLt_irrefl | by apply jsLt_asym].
Qed.

(** ** Customer resolution *)

Lemma sliceLast_app pre last4 :
  length last4 = 4%nat → sliceLast 4 (pre ++ last4) = last4.
Proof.
  intros Hlen. unfold sliceLast. rewrite length_app, Hlen.
  replace (length pre + 4 - 4)%nat with (length pre) by lia.
  by rewrite drop_app_length.
Qed.

(** ** The rate limiter *)

Lemma isAllowed_accepted e phoneNumber windowMs maxRequests w :
  fst (RateLimiter.isAllowed e phoneNumber windowMs maxRequests w) = true →
  let recent := RateLimiter.recentRequests e phoneNumber windowMs w in
  Z.of_nat (length recent) < maxRequests
  ∧ snd (RateLimiter.isAllowed e phoneNumber windowMs maxRequests w)
    = setRequests (<[phoneNumber := recent ++ [now e]]> (requests w)) w.
Proof.
  unfold RateLimiter.isAllowed. cbv zeta.
  destruct (Z.leb_spec maxRequests
              (Z.of_nat (length (RateLimiter.recentRequests e phoneNumber windowMs w))));
    [done|]. done.
Qed.

Lemma isAllowed_full e phoneNumber windowMs maxRequests w :
  maxRequests
  ≤ Z.of_nat (length (RateLimiter.recentRequests e phoneNumber windowMs w)) →
  RateLimiter.isAllowed e phoneNumber windowMs maxRequests w = (false, w).
Proof.
  intros Hfull. unfold RateLimiter.isAllowed. cbv zeta.
  by destruct (Z.leb_spec maxRequests
              (Z.of_nat (length (RateLimiter.recentRequests e phoneNumber windowMs w))));
    [|lia].
Qed.

Lemma isAllowed_room e phoneNumber windowMs maxRequests w :
  Z.of_nat (length (RateLimiter.recentRequests e phoneNumber windowMs w))
  < maxRequests →
  fst (RateLimiter.isAllowed e phoneNumber windowMs maxRequests w) = true.
Proof.
  intros Hroom. unfold RateLimiter.isAllowed. cbv zeta.
  by destruct (Z.leb_spec maxRequests
              (Z.of_nat (length (RateLimiter.recentRequests e phoneNumber windowMs w))));
    [lia|].
Qed.

Lemma filter_all_pass (P : Z → Prop) `{∀ x, Decision (P x)} (l : list Z) :
  (∀ x, x ∈ l → P x) → filter P l = l.
Proof.
  induction l as [|x l IH]; intros Hall; [done|].
  rewrite filter_cons_True by (apply Hall; left).
  f_equal. apply IH. intros y Hy. apply Hall. by right.
Qed.

(** While every call is accepted and every accepted instant is still
    inside the window of every later call, the accepted instants pile up,
    in order, at the end of the sender's list. *)
Lemma admitEach_accepted es : ∀ phoneNumber w older accepted bound,
  default [] (requests w !! phoneNumber) = older ++ accepted →
  (∀ e, e ∈ es → now e ≤ bound) →
  (∀ t, t ∈ accepted ++ (now <$> es) → bound - RateLimiter.windowMsDefault < t) →
  fst (admitEach es phoneNumber w) = replicate (length es) true →
  ∃ older',
    default [] (requests (snd (admitEach es phoneNumber w)) !! phoneNumber)
    = older' ++ accepted ++ (now <$> es)
    ∧ (es ≠ [] →
       Z.of_nat (length (older' ++ accepted ++ (now <$> es)))
       ≤ RateLimiter.maxRequestsDefault).
Proof.
  induction es as [|e es IH]; intros phoneNumber w older accepted bound
    Hstored Hbound Hwindow Hall.
  - exists older. cbn. rewrite app_nil_r. done.
  - cbn [admitEach] in *.
    destruct (RateLimiter.isAllowed e phoneNumber _ _ w) as [allowed w1] eqn:Hcall.
    destruct (admitEach es phoneNumber w1) as [answers w2] eqn:Hrest.
    cbn [fst snd length replicate] in *. injection Hall as -> Hanswers.
    pose proof (isAllowed_accepted e phoneNumber RateLimiter.windowMsDefault
                  RateLimiter.maxRequestsDefault w) as Hacc.
    rewrite Hcall in Hacc. cbn [fst snd] in Hacc.
    destruct (Hacc eq_refl) as [Hroom ->]. clear Hacc.
    unfold RateLimiter.recentRequests in *. cbv zeta in *.
    assert (Hpass : filter (λ time, now e - RateLimiter.windowMsDefault < time) accepted
                    = accepted).
    { apply filter_all_pass. intros t Ht.
      assert (now e ≤ bound) by (apply Hbound; left).
      assert (bound - RateLimiter.windowMsDefault < t)
        by (apply Hwindow, elem_of_app; by left).
      lia. }
    rewrite Hstored, filter_app, Hpass in *.
    set (kept := filter (λ time, now e - RateLimiter.windowMsDefault < time) older) in *.
    specialize (IH phoneNumber
      (setRequests (<[phoneNumber := (kept ++ accepted) ++ [now e]]> (requests w)) w)
      kept (accepted ++ [now e]) bound).
    rewrite Hrest in IH. cbn [fst snd requests setRequests] in IH.
    rewrite lookup_insert_eq in IH. cbn [default] in IH.
    destruct IH as (older' & Hfinal & Hlen).
    + by rewrite <- !app_assoc.
    + intros e' He'. apply Hbound. by right.
    + intros t Ht. apply Hwindow. cbn [fmap list_fmap]. fold (fmap (M:=list) now es).
      by rewrite <- app_assoc in Ht.
    + done.
    + exists older'. cbn [fmap list_fmap]. fold (fmap (M:=list) now es).
      rewrite <- app_assoc in Hfinal. cbn in Hfinal. split; [done|].
      intros _. destruct es as [|e' es'].
      * cbn in Hrest. injection Hrest as _ <-. cbn in Hfinal.
        rewrite lookup_insert_eq in Hfinal. cbn in Hfinal.
        apply (f_equal length) in Hfinal.
        rewrite !length_app in *. cbn in *.
        unfold RateLimiter.maxRequestsDefault in *. lia.
      * rewrite <- app_assoc in Hlen. cbn in Hlen. by apply Hlen.
Qed.

(** ** The pipeline neither reads nor writes the maps of the guards *)

Lemma findOrCreateCustomer_guards e phoneNumber contacts rq rm w :
  findOrCreateCustomer e phoneNumber contacts (withGuards rq rm w)
  = (fst (findOrCreateCustomer e phoneNumber contacts w),
     withGuards rq rm (snd (findOrCreateCustomer e phoneNumber contacts w))).
Proof.
  unfold findOrCreateCustomer, CustomerDatabase.findByPhoneNumber. cbn.
  by destruct (list_find _ (customers w)) as [[i c]|].
Qed.

Lemma update_guards e id updates rq rm w :
  CustomerDatabase.update e id updates (withGuards rq rm w)
  = (fst (CustomerDatabase.update e id updates w),
     withGuards rq rm (snd (CustomerDatabase.update e id updates w))).
Proof.
  unfold CustomerDatabase.update. cbn.
  by destruct (list_find _ (customers w)) as [[i c]|].
Qed.

Lemma markAsReturning_guards e phoneNumber rq rm w :
  CustomerDatabase.markAsReturning e phoneNumber (withGuards rq rm w)
  = withGuards rq rm (CustomerDatabase.markAsReturning e phoneNumber w).
Proof.
  unfold CustomerDatabase.markAsReturning, CustomerDatabase.findByPhoneNumber. cbn.
  destruct (list_find _ (customers w)) as [[i c]|]; [|done]. cbn.
  by rewrite update_guards.
Qed.

Lemma processAutoReply_guards e customer content rq rm w :
  processAutoReply e customer content (withGuards rq rm w)
  = (fst (processAutoReply e customer content w),
     withGuards rq rm (snd (processAutoReply e customer content w))).
Proof.
  unfold processAutoReply, SettingsDatabase.get, MessageDatabase.create. cbn.
  destruct (botSettings w) as [s|]; repeat case_match; simplify_eq/=; done.
Qed.

Lemma processIncomingMessage_guards e message contacts rq rm w :
  processIncomingMessage e message contacts (withGuards rq rm w)
  = (fst (processIncomingMessage e message contacts w),
     withGuards rq rm (snd (processIncomingMessage e message contacts w))).
Proof.
  rewrite !processIncomingMessage_unfold. cbv zeta.
  rewrite findOrCreateCustomer_guards. cbn [fst snd].
  set (r1 := findOrCreateCustomer e (wm_from message) contacts w).
  unfold MessageDatabase.create. cbv zeta. cbn [fst snd].
  change (setMessages ?ms (withGuards rq rm ?w0))
    with (withGuards rq rm (setMessages ms w0)).
  rewrite update_guards. cbn [fst snd].
  rewrite processAutoReply_guards. cbn [fst snd].
  destruct (fst (processAutoReply _ _ _ _) && Customer.isNew (fst r1)); [|done].
  by rewrite markAsReturning_guards.
Qed.

Lemma withGuards_requests rq w : setRequests rq w = withGuards rq (recentMessages w) w.
Proof. by destruct w. Qed.

Lemma withGuards_recentMessages rm w :
  setRecentMessages rm w = withGuards (requests w) rm w.
Proof. by destruct w. Qed.

Lemma withGuards_same w : withGuards (requests w) (recentMessages w) w = w.
Proof. by destruct w. Qed.

(** ** Customers along the pipeline *)

Lemma evolves_refl cs : evolves cs cs.
Proof. intros i c Hi. by exists c. Qed.

Lemma evolves_trans cs1 cs2 cs3 : evolves cs1 cs2 → evolves cs2 cs3 → evolves cs1 cs3.
Proof.
  intros H12 H23 i c Hi.
  destruct (H12 i c Hi) as (c2 & Hi2 & Hid2 & Hph2 & Hnew2).
  destruct (H23 i c2 Hi2) as (c3 & Hi3 & Hid3 & Hph3 & Hnew3).
  exists c3. repeat split; [done|congruence|congruence|auto].
Qed.

Lemma evolves_app cs c : evolves cs (cs ++ [c]).
Proof.
  intros i c0 Hi. exists c0. by rewrite lookup_app_l by by eapply lookup_lt_Some.
Qed.

Lemma evolves_insert cs k c c' :
  cs !! k = Some c →
  Customer.id c' = Customer.id c →
  Customer.phoneNumber c' = Customer.phoneNumber c →
  (Customer.isNew c = false → Customer.isNew c' = false) →
  evolves cs (<[k := c']> cs).
Proof.
  intros Hk Hid Hph Hnew i c0 Hi. destruct (decide (i = k)) as [->|Hne].
  - exists c'. rewrite list_lookup_insert_eq by by eapply lookup_lt_Some.
    by simplify_eq.
  - exists c0. by rewrite list_lookup_insert_ne.
Qed.

(** An update that carries neither an id nor a phone number and does not
    set [isNew]. *)
Lemma update_evolves e id updates w :
  Customer.u_id updates = None →
  Customer.u_phoneNumber updates = None →
  Customer.u_isNew updates ≠ Some true →
  evolves (customers w) (customers (snd (CustomerDatabase.update e id updates w))).
Proof.
  intros Hid Hph Hnew. unfold CustomerDatabase.update.
  destruct (list_find _ (customers w)) as [[k c]|] eqn:Hfind; [|apply evolves_refl].
  apply list_find_Some in Hfind as (Hk & _ & _). cbn.
  apply (evolves_insert _ _ c); [done|..]; unfold Customer.spread; cbn.
  - by rewrite Hid.
  - by rewrite Hph.
  - destruct (Customer.u_isNew updates) as [[|]|]; done.
Qed.

Lemma markAsReturning_evolves e phoneNumber w :
  evolves (customers w) (customers (CustomerDatabase.markAsReturning e phoneNumber w)).
Proof.
  unfold CustomerDatabase.markAsReturning.
  destruct (CustomerDatabase.findByPhoneNumber phoneNumber w); [|apply evolves_refl].
  by apply update_evolves.
Qed.

Lemma findOrCreateCustomer_evolves e phoneNumber contacts w :
  evolves (customers w) (customers (snd (findOrCreateCustomer e phoneNumber contacts w))).
Proof.
  unfold findOrCreateCustomer.
  destruct (CustomerDatabase.findByPhoneNumber phoneNumber w); [apply evolves_refl|].
  apply evolves_app.
Qed.

Lemma processIncomingMessage_evolves e message contacts w :
  evolves (customers w)
    (customers (snd (processIncomingMessage e message contacts w))).
Proof.
  rewrite processIncomingMessage_unfold. cbv zeta. cbn [snd].
  set (r1 := findOrCreateCustomer e (wm_from message) contacts w).
  set (w2 := snd (MessageDatabase.create _ _ _ (snd r1))).
  set (w3 := snd (CustomerDatabase.update _ _ _ w2)).
  set (r4 := processAutoReply _ _ _ w3).
  assert (H14 : evolves (customers w) (customers (snd r4))).
  { destruct (processAutoReply_frame e (fst r1)
      (WhatsAppAPIOps.p_content (WhatsAppAPIOps.parseIncomingMessage message)) w3)
      as (Hcs & _). fold r4 in Hcs. rewrite Hcs.
    apply (evolves_trans _ (customers (snd r1)));
      [apply findOrCreateCustomer_evolves|].
    change (customers (snd r1)) with (customers w2).
    by apply update_evolves. }
  destruct (fst r4 && Customer.isNew (fst r1)); [|done].
  eapply evolves_trans; [exact H14|apply markAsReturning_evolves].
Qed.

Lemma sendManualMessage_customers e customerId content w :
  customers (snd (sendManualMessage e customerId content w)) = customers w.
Proof.
  unfold sendManualMessage, SettingsDatabase.get, MessageDatabase.create.
  repeat case_match; simplify_eq/=; done.
Qed.

Lemma processStatusUpdate_customers e messageId status w :
  customers (processStatusUpdate e messageId status w) = customers w.
Proof.
  unfold processStatusUpdate, MessageDatabase.updateStatus.
  by destruct (list_find _ (messages w)) as [[i m]|].
Qed.

Lemma step_evolves e ev w : evolves (customers w) (customers (step e ev w)).
Proof.
  destruct ev as [message contacts | messageId status | customerId content]; cbn.
  - apply processIncomingMessage_evolves.
  - rewrite processStatusUpdate_customers. apply evolves_refl.
  - rewrite sendManualMessage_customers. apply evolves_refl.
Qed.

Lemma run_evolves evs : ∀ w, evolves (customers w) (customers (run evs w)).
Proof.
  induction evs as [|[e ev] evs IH]; intros w; [apply evolves_refl|].
  cbn. eapply evolves_trans; [apply step_evolves|apply IH].
Qed.

Lemma list_find_id_at (cs : list Customer.t) (k : nat) c :
  NoDup (Customer.id <$> cs) → cs !! k = Some c →
  list_find (λ c', Customer.id c' = Customer.id c) cs = Some (k, c).
Proof.
  intros Hnodup Hk. apply list_find_Some. split; [done|]. split; [done|].
  intros j c' Hj Hlt Hid.
  assert (j = k); [|lia].
  eapply NoDup_lookup; [exact Hnodup|..]; rewrite list_lookup_fmap.
  - by rewrite Hj.
  - rewrite Hk. cbn. by rewrite Hid.
Qed.

Lemma update_at e u w k c :
  NoDup (Customer.id <$> customers w) → customers w !! k = Some c →
  CustomerDatabase.update e (Customer.id c) u w
  = (Some (Customer.spread c u (ValidDate (now e))),
     setCustomers (<[k := Customer.spread c u (ValidDate (now e))]> (customers w)) w).
Proof.
  intros Hnodup Hk. unfold CustomerDatabase.update.
  by rewrite (list_find_id_at _ _ _ Hnodup Hk).
Qed.

Lemma list_find_insert_same {A} (P : A → Prop) `{∀ x, Decision (P x)} l k x x' :
  list_find P l = Some (k, x) → P x' → list_find P (<[k := x']> l) = Some (k, x').
Proof.
  intros Hfind Hx'. apply list_find_Some in Hfind as (Hk & _ & Hfirst).
  apply list_find_Some. split; [|split; [done|]].
  - apply list_lookup_insert_eq. by eapply lookup_lt_Some.
  - intros j y Hj Hlt. rewrite list_lookup_insert_ne in Hj by lia. eauto.
Qed.

Lemma ids_insert (cs : list Customer.t) (k : nat) c c' :
  cs !! k = Some c → Customer.id c' = Customer.id c →
  Customer.id <$> <[k := c']> cs = Customer.id <$> cs.
Proof.
  intros Hk Hid. rewrite list_fmap_insert, Hid.
  apply list_insert_id. by rewrite list_lookup_fmap, Hk.
Qed.

(** The customers after an inbound message from a stored sender: the
    sender's record is replaced at its index, and it is new afterwards
    exactly when it was new and no auto-reply was sent. *)
Lemma processIncomingMessage_existing e message contacts w k c :
  NoDup (Customer.id <$> customers w) →
  list_find (λ c', Customer.phoneNumber c' = wm_from message) (customers w)
  = Some (k, c) →
  fst (findOrCreateCustomer e (wm_from message) contacts w) = c
  ∧ ∃ sent final,
      autoReplySent (fst (processIncomingMessage e message contacts w)) = Some sent
      ∧ customers (snd (processIncomingMessage e message contacts w))
        = <[k := final]> (customers w)
      ∧ Customer.id final = Customer.id c
      ∧ Customer.phoneNumber final = Customer.phoneNumber c
      ∧ Customer.isNew final = Customer.isNew c && negb sent.
Proof.
  intros Hnodup Hfind.
  pose proof Hfind as Hfind'. apply list_find_Some in Hfind' as (Hk & Hphone & _).
  assert (Hr1 : findOrCreateCustomer e (wm_from message) contacts w = (c, w)).
  { unfold findOrCreateCustomer, CustomerDatabase.findByPhoneNumber.
    by rewrite Hfind. }
  split; [by rewrite Hr1|].
  rewrite processIncomingMessage_unfold. cbv zeta. rewrite Hr1. cbn [fst snd].
  unfold MessageDatabase.create. cbv zeta. cbn [fst snd].
  set (activity := activityUpdate c _).
  set (w2 := setMessages _ w).
  rewrite (update_at e activity w2 k c) by done. cbn [fst snd].
  set (c3 := Customer.spread c activity (ValidDate (now e))).
  set (w3 := setCustomers _ w2).
  set (r4 := processAutoReply e c _ w3).
  destruct (processAutoReply_frame e c
    (WhatsAppAPIOps.p_content (WhatsAppAPIOps.parseIncomingMessage message)) w3)
    as (Hcs4 & _). fold r4 in Hcs4.
  exists (fst r4). cbn [autoReplySent].
  destruct (fst r4) eqn:Hsent; cbn [andb negb].
  2:{ exists c3. rewrite Hcs4. rewrite andb_true_r. done. }
  destruct (Customer.isNew c) eqn:Hnew; cbn [andb].
  2:{ exists c3. rewrite Hcs4. by rewrite <- Hnew. }
  assert (Hfind4 : list_find (λ c', Customer.phoneNumber c' = wm_from message)
                     (customers (snd r4)) = Some (k, c3)).
  { rewrite Hcs4. subst w3. cbn [customers setCustomers].
    change (customers w2) with (customers w).
    by apply (list_find_insert_same _ _ _ c). }
  unfold CustomerDatabase.markAsReturning, CustomerDatabase.findByPhoneNumber.
  rewrite Hfind4. cbn [fmap option_fmap option_map snd].
  apply list_find_Some in Hfind4 as (Hk4 & _ & _).
  assert (Hnodup4 : NoDup (Customer.id <$> customers (snd r4))).
  { rewrite Hcs4. subst w3. cbn [customers setCustomers].
    change (customers w2) with (customers w).
    by rewrite (ids_insert _ _ c). }
  rewrite (update_at e _ (snd r4) k c3) by done. cbn [snd customers setCustomers].
  eexists. split; [done|]. split.
  - rewrite Hcs4. subst w3. cbn [customers setCustomers].
    change (customers w2) with (customers w).
    apply list_insert_insert_eq.
  - by subst c3 activity.
Qed.

(** The customers after an inbound message from an unknown sender: one
    record is appended, new afterwards exactly when no auto-reply was
    sent. *)
Lemma processIncomingMessage_created e message contacts w :
  NoDup (Customer.id <$> customers w) →
  freshCustomerId e w →
  list_find (λ c', Customer.phoneNumber c' = wm_from message) (customers w) = None →
  Customer.id (fst (findOrCreateCustomer e (wm_from message) contacts w))
  = newCustomerId e
  ∧ ∃ sent final,
      autoReplySent (fst (processIncomingMessage e message contacts w)) = Some sent
      ∧ customers (snd (processIncomingMessage e message contacts w))
        = customers w ++ [final]
      ∧ Customer.id final = newCustomerId e
      ∧ Customer.phoneNumber final = wm_from message
      ∧ Customer.isNew final = negb sent.
Proof.
  intros Hnodup Hfresh Hnone.
  destruct (findOrCreateCustomer e (wm_from message) contacts w) as [created w1]
    eqn:Hr1.
  assert (Hcreated : Customer.id created = newCustomerId e
                     ∧ Customer.phoneNumber created = wm_from message
                     ∧ Customer.isNew created = true
                     ∧ w1 = setCustomers (customers w ++ [created]) w).
  { unfold findOrCreateCustomer, CustomerDatabase.findByPhoneNumber in Hr1.
    rewrite Hnone in Hr1. cbn in Hr1. by injection Hr1 as <- <-. }
  destruct Hcreated as (Hid & Hphone & Hnew & ->).
  set (w1 := setCustomers (customers w ++ [created]) w) in *.
  split; [done|].
  assert (Hfind1 : list_find (λ c', Customer.phoneNumber c' = wm_from message)
                     (customers w1) = Some (length (customers w), created)).
  { apply list_find_Some. cbn. split; [|split; [done|]].
    - by rewrite lookup_app_r, Nat.sub_diag by lia.
    - intros j c' Hj Hlt. rewrite lookup_app_l in Hj by done.
      apply list_find_None in Hnone. rewrite Forall_forall in Hnone.
      apply Hnone. by eapply list_elem_of_lookup_2. }
  assert (Hnodup1 : NoDup (Customer.id <$> customers w1)).
  { cbn. rewrite fmap_app. apply NoDup_app. split; [done|]. split.
    - intros x Hx Hx'. apply list_elem_of_singleton in Hx' as ->.
      apply list_elem_of_fmap in Hx as (c & Hc & Hin).
      apply (Hfresh c Hin). congruence.
    - apply NoDup_singleton. }
  assert (Hsame : processIncomingMessage e message contacts w
                  = processIncomingMessage e message contacts w1).
  { rewrite !processIncomingMessage_unfold. cbv zeta. rewrite Hr1.
    replace (findOrCreateCustomer e (wm_from message) contacts w1)
      with (created, w1); [done|].
    unfold findOrCreateCustomer, CustomerDatabase.findByPhoneNumber.
    by rewrite Hfind1. }
  rewrite Hsame.
  destruct (processIncomingMessage_existing e message contacts w1 _ _ Hnodup1 Hfind1)
    as (_ & sent & final & Hsent & Hcs & Hidf & Hphf & Hnewf).
  exists sent, final. split; [done|]. split.
  - rewrite Hcs. cbn.
    rewrite insert_app_r_alt, Nat.sub_diag by lia. done.
  - rewrite Hidf, Hphf, Hnewf, Hnew. done.
Qed.

(** ** Auto-replies on record *)

Lemma hasAutoReply_projection w cid :
  hasAutoReply w cid
  ↔ (cid, true) ∈ (λ m, (Message.customerId m, Message.isAutoReply m)) <$> messages w.
Proof.
  unfold hasAutoReply. rewrite list_elem_of_fmap. split.
  - intros (m & Hm & <- & Hauto). exists m. by rewrite Hauto.
  - intros (m & Heq & Hm). exists m. by simplify_eq.
Qed.

Lemma hasAutoReply_same_projection w w' cid :
  (λ m, (Message.customerId m, Message.isAutoReply m)) <$> messages w'
  = (λ m, (Message.customerId m, Message.isAutoReply m)) <$> messages w →
  hasAutoReply w' cid ↔ hasAutoReply w cid.
Proof. intros Heq. by rewrite !hasAutoReply_projection, Heq. Qed.

Lemma hasAutoReply_app w w' extra cid :
  messages w' = messages w ++ extra →
  hasAutoReply w' cid
  ↔ hasAutoReply w cid
    ∨ ∃ m, m ∈ extra ∧ Message.customerId m = cid ∧ Message.isAutoReply m = true.
Proof.
  intros Heq. unfold hasAutoReply. rewrite Heq. split.
  - intros (m & Hm & Hrest). apply elem_of_app in Hm as [Hm|Hm]; eauto.
  - intros [(m & Hm & Hrest) | (m & Hm & Hrest)]; exists m;
      (split; [apply elem_of_app; auto | done]).
Qed.

Lemma processStatusUpdate_projection e messageId status w :
  (λ m, (Message.customerId m, Message.isAutoReply m))
    <$> messages (processStatusUpdate e messageId status w)
  = (λ m, (Message.customerId m, Message.isAutoReply m)) <$> messages w.
Proof.
  unfold processStatusUpdate, MessageDatabase.updateStatus.
  destruct (list_find _ (messages w)) as [[i m]|] eqn:Hfind; [|done].
  apply list_find_Some in Hfind as (Hi & _). cbn.
  rewrite list_fmap_insert. apply list_insert_id.
  by rewrite list_lookup_fmap, Hi.
Qed.

Lemma sendManualMessage_messages e customerId content w :
  messages (snd (sendManualMessage e customerId content w)) = messages w
  ∨ ∃ m, messages (snd (sendManualMessage e customerId content w)) = messages w ++ [m]
         ∧ Message.isAutoReply m = false.
Proof.
  unfold sendManualMessage, SettingsDatabase.get, MessageDatabase.create.
  repeat case_match; simplify_eq/=; eauto.
Qed.

(** ** The stores the pipeline builds are consistent *)

Lemma consistent_initial : consistent initialWorld.
Proof.
  split; [apply NoDup_nil_2|]. split.
  - intros c Hc. by apply elem_of_nil in Hc.
  - intros m Hm. by apply elem_of_nil in Hm.
Qed.

Lemma processIncomingMessage_resolved e message contacts w :
  processIncomingMessage e message contacts w
  = processIncomingMessage e message contacts
      (snd (findOrCreateCustomer e (wm_from message) contacts w))
  ∧ ∃ k,
      list_find (λ c', Customer.phoneNumber c' = wm_from message)
        (customers (snd (findOrCreateCustomer e (wm_from message) contacts w)))
      = Some (k, fst (findOrCreateCustomer e (wm_from message) contacts w))
      ∧ ((k < length (customers w))%nat ∨
         customers w !! k = None ∧
         list_find (λ c', Customer.phoneNumber c' = wm_from message) (customers w) = None).
Proof.
  destruct (list_find (λ c', Customer.phoneNumber c' = wm_from message) (customers w))
    as [[k c]|] eqn:Hfind.
  - assert (Hr1 : findOrCreateCustomer e (wm_from message) contacts w = (c, w)).
    { unfold findOrCreateCustomer, CustomerDatabase.findByPhoneNumber.
      by rewrite Hfind. }
    rewrite Hr1. split; [done|]. exists k. split; [done|]. left.
    apply list_find_Some in Hfind as (Hk & _). by eapply lookup_lt_Some.
  - destruct (findOrCreateCustomer e (wm_from message) contacts w) as [created w1]
      eqn:Hr1.
    assert (Hcreated : Customer.phoneNumber created = wm_from message
                       ∧ w1 = setCustomers (customers w ++ [created]) w).
    { unfold findOrCreateCustomer, CustomerDatabase.findByPhoneNumber in Hr1.
      rewrite Hfind in Hr1. cbn in Hr1. by injection Hr1 as <- <-. }
    destruct Hcreated as (Hphone & ->). cbn [fst snd].
    assert (Hfind1 : list_find (λ c', Customer.phoneNumber c' = wm_from message)
                       (customers w ++ [created]) = Some (length (customers w), created)).
    { apply list_find_Some. split; [|split; [done|]].
      - by rewrite lookup_app_r, Nat.sub_diag by lia.
      - intros j c' Hj Hlt. rewrite lookup_app_l in Hj by done.
        apply list_find_None in Hfind. rewrite Forall_forall in Hfind.
        apply Hfind. by eapply list_elem_of_lookup_2. }
    split.
    + rewrite !processIncomingMessage_unfold. cbv zeta. rewrite Hr1.
      replace (findOrCreateCustomer e (wm_from message) contacts
                 (setCustomers (customers w ++ [created]) w))
        with (created, setCustomers (customers w ++ [created]) w); [done|].
      unfold findOrCreateCustomer, CustomerDatabase.findByPhoneNumber. cbn.
      by rewrite Hfind1.
    + exists (length (customers w)). split; [done|]. right.
      split; [|done]. by apply lookup_ge_None.
Qed.

Lemma findOrCreateCustomer_consistent e phoneNumber contacts w :
  consistent w → freshCustomerId e w →
  consistent (snd (findOrCreateCustomer e phoneNumber contacts w)).
Proof.
  intros (Hnodup & Hnew & Hknown) Hfresh. unfold findOrCreateCustomer.
  destruct (CustomerDatabase.findByPhoneNumber phoneNumber w); [done|].
  unfold CustomerDatabase.create. cbv zeta. cbn [snd].
  set (created := Customer.ofData _ _ _ _).
  split; [|split]; cbn [customers messages setCustomers].
  - rewrite fmap_app. apply NoDup_app. split; [done|]. split.
    + intros x Hx Hx'. apply list_elem_of_singleton in Hx' as ->.
      apply list_elem_of_fmap in Hx as (c & Hc & Hin).
      apply (Hfresh c Hin). by rewrite <- Hc.
    + apply NoDup_singleton.
  - intros c Hc. apply elem_of_app in Hc as [Hc|Hc].
    + apply (Hnew c Hc).
    + apply list_elem_of_singleton in Hc as ->. split; [|done].
      intros _ (m & Hm & Hid & Hauto).
      destruct (Hknown m Hm Hauto) as (c & Hc & Hidc).
      apply (Hfresh c Hc). by rewrite Hidc, Hid.
  - intros m Hm Hauto. destruct (Hknown m Hm Hauto) as (c & Hc & Hid).
    exists c. split; [|done]. apply elem_of_app. by left.
Qed.

Lemma processIncomingMessage_existing_consistent e message contacts w k c :
  consistent w →
  list_find (λ c', Customer.phoneNumber c' = wm_from message) (customers w)
  = Some (k, c) →
  consistent (snd (processIncomingMessage e message contacts w)).
Proof.
  intros (Hnodup & Hnew & Hknown) Hfind.
  destruct (processIncomingMessage_existing e message contacts w k c Hnodup Hfind)
    as (Hcustomer & sent & final & Hsent & Hcs & Hid & _ & Hfinal).
  destruct (processIncomingMessage_messages e message contacts w)
    as (sent' & Hsent' & Hmsgs).
  cbv zeta in Hmsgs. rewrite Hcustomer in Hmsgs.
  rewrite Hsent in Hsent'. injection Hsent' as <-.
  apply list_find_Some in Hfind as (Hk & _ & _).
  set (w' := snd (processIncomingMessage e message contacts w)) in *.
  set (incoming := Message.ofData (incomingRecord c message) _ _ _) in *.
  assert (Hreplied : ∀ cid, hasAutoReply w' cid
                            ↔ hasAutoReply w cid ∨ (sent = true ∧ cid = Customer.id c)).
  { intros cid. destruct sent.
    - destruct Hmsgs as (reply & Hmsgs & Hrid & _ & Hrauto).
      rewrite (hasAutoReply_app w w' _ cid Hmsgs). split.
      + intros [Hold | (m & Hm & Hmid & Hmauto)]; [by left|right].
        apply elem_of_cons in Hm as [-> | Hm]; [done|].
        apply list_elem_of_singleton in Hm as ->. by rewrite <- Hmid.
      + intros [Hold | [_ ->]]; [by left|right].
        exists reply. split; [|done]. apply elem_of_cons. right. by left.
    - rewrite (hasAutoReply_app w w' _ cid Hmsgs). split.
      + intros [Hold | (m & Hm & _ & Hmauto)]; [by left|].
        by apply list_elem_of_singleton in Hm as ->.
      + intros [Hold | [? _]]; [by left|done]. }
  assert (Hc : c ∈ customers w) by by eapply list_elem_of_lookup_2.
  split; [|split].
  - rewrite Hcs. by rewrite (ids_insert _ _ c).
  - intros c' Hc'. rewrite Hcs in Hc'.
    apply list_elem_of_lookup in Hc' as (i & Hi).
    rewrite Hreplied. destruct (decide (i = k)) as [->|Hne].
    + rewrite list_lookup_insert_eq in Hi by by eapply lookup_lt_Some.
      injection Hi as <-. rewrite Hfinal, Hid.
      specialize (Hnew c Hc). destruct sent; cbn.
      * rewrite andb_false_r. split; [done|]. intros Hno. exfalso. apply Hno. by right.
      * rewrite andb_true_r, Hnew. split.
        -- intros Hno [Hyes | [? _]]; done.
        -- intros Hno Hyes. apply Hno. by left.
    + rewrite list_lookup_insert_ne in Hi by done.
      assert (Hin : c' ∈ customers w) by by eapply list_elem_of_lookup_2.
      rewrite (Hnew c' Hin). split.
      * intros Hno [Hyes | [_ Hsame]]; [done|].
        apply Hne. eapply NoDup_lookup; [exact Hnodup|..]; rewrite list_lookup_fmap.
        -- by rewrite Hi.
        -- rewrite Hk. cbn. by rewrite Hsame.
      * intros Hno Hyes. apply Hno. by left.
  - intros m Hm Hauto.
    assert (Hold : m ∈ messages w ∨ Message.customerId m = Customer.id c).
    { destruct sent.
      - destruct Hmsgs as (reply & Hmsgs & Hrid & _).
        rewrite Hmsgs in Hm. apply elem_of_app in Hm as [Hm|Hm]; [by left|].
        apply elem_of_cons in Hm as [-> | Hm]; [done|].
        apply list_elem_of_singleton in Hm as ->. by right.
      - rewrite Hmsgs in Hm. apply elem_of_app in Hm as [Hm|Hm]; [by left|].
        by apply list_elem_of_singleton in Hm as ->. }
    assert (Hstill : ∀ c0, c0 ∈ customers w →
              ∃ c1, c1 ∈ customers w' ∧ Customer.id c1 = Customer.id c0).
    { intros c0 Hc0. apply list_elem_of_lookup in Hc0 as (i & Hi).
      destruct (processIncomingMessage_evolves e message contacts w i c0 Hi)
        as (c1 & Hi1 & Hid1 & _).
      exists c1. split; [|done]. by eapply list_elem_of_lookup_2. }
    destruct Hold as [Hm0 | Hidm].
    + destruct (Hknown m Hm0 Hauto) as (c0 & Hc0 & Hid0).
      destruct (Hstill c0 Hc0) as (c1 & Hc1 & Hid1).
      exists c1. split; [done|]. congruence.
    + destruct (Hstill c Hc) as (c1 & Hc1 & Hid1).
      exists c1. split; [done|]. congruence.
Qed.

Lemma step_consistent e ev w :
  consistent w → freshCustomerId e w → consistent (step e ev w).
Proof.
  intros Hw Hfresh.
  destruct ev as [message contacts | messageId status | customerId content];
    cbn [step].
  - destruct (processIncomingMessage_resolved e message contacts w)
      as (-> & k & Hfind & _).
    eapply processIncomingMessage_existing_consistent; [|exact Hfind].
    by apply findOrCreateCustomer_consistent.
  - destruct Hw as (Hnodup & Hnew & Hknown).
    pose proof (processStatusUpdate_projection e messageId status w) as Hproj.
    pose proof (processStatusUpdate_customers e messageId status w) as Hcs.
    split; [|split]; rewrite ?Hcs; [done|..].
    + intros c Hc. rewrite (hasAutoReply_same_projection _ _ _ Hproj). by apply Hnew.
    + intros m Hm Hauto.
      assert (Hyes : hasAutoReply (processStatusUpdate e messageId status w)
                       (Message.customerId m)) by by exists m.
      apply (hasAutoReply_same_projection _ _ _ Hproj) in Hyes
        as (m0 & Hm0 & Hid0 & Hauto0).
      destruct (Hknown m0 Hm0 Hauto0) as (c & Hc & Hidc).
      exists c. split; [done|]. congruence.
  - destruct Hw as (Hnodup & Hnew & Hknown).
    pose proof (sendManualMessage_customers e customerId content w) as Hcs.
    assert (Hsame : ∀ cid,
              hasAutoReply (snd (sendManualMessage e customerId content w)) cid
              ↔ hasAutoReply w cid).
    { intros cid.
      destruct (sendManualMessage_messages e customerId content w)
        as [Hmsgs | (m & Hmsgs & Hmanual)].
      - unfold hasAutoReply. by rewrite Hmsgs.
      - rewrite (hasAutoReply_app w _ _ cid Hmsgs). split; [|by left].
        intros [Hold | (m' & Hm' & _ & Hauto)]; [done|].
        apply list_elem_of_singleton in Hm' as ->. congruence. }
    split; [|split]; rewrite ?Hcs; [done|..].
    + intros c Hc. rewrite Hsame. by apply Hnew.
    + intros m Hm Hauto.
      assert (Hyes : hasAutoReply (snd (sendManualMessage e customerId content w))
                       (Message.customerId m)) by by exists m.
      apply Hsame in Hyes as (m0 & Hm0 & Hid0 & Hauto0).
      destruct (Hknown m0 Hm0 Hauto0) as (c & Hc & Hidc).
      exists c. split; [done|]. congruence.
Qed.

Lemma update_consistent e id updates w :
  consistent w →
  Customer.u_id updates = None → Customer.u_isNew updates = None →
  consistent (snd (CustomerDatabase.update e id updates w)).
Proof.
  intros (Hnodup & Hnew & Hknown) Hid Hisnew. unfold CustomerDatabase.update.
  destruct (list_find _ (customers w)) as [[k c]|] eqn:Hfind; [|done].
  apply list_find_Some in Hfind as (Hk & _ & _). cbn [snd].
  set (c' := Customer.spread c updates (ValidDate (now e))).
  assert (Hid' : Customer.id c' = Customer.id c)
    by (subst c'; cbn; by rewrite Hid).
  assert (Hisnew' : Customer.isNew c' = Customer.isNew c)
    by (subst c'; cbn; by rewrite Hisnew).
  assert (Hc : c ∈ customers w) by by eapply list_elem_of_lookup_2.
  split; [|split]; cbn [customers messages setCustomers].
  - by rewrite (ids_insert _ _ c).
  - intros c0 Hc0. apply list_elem_of_lookup in Hc0 as (i & Hi).
    destruct (decide (i = k)) as [->|Hne].
    + rewrite list_lookup_insert_eq in Hi by by eapply lookup_lt_Some.
      injection Hi as <-. rewrite Hid', Hisnew'. apply (Hnew c Hc).
    + rewrite list_lookup_insert_ne in Hi by done.
      apply (Hnew c0). by eapply list_elem_of_lookup_2.
  - intros m Hm Hauto. destruct (Hknown m Hm Hauto) as (c0 & Hc0 & Hid0).
    apply list_elem_of_lookup in Hc0 as (i & Hi).
    destruct (decide (i = k)) as [->|Hne].
    + exists c'. split; [|congruence].
      apply list_elem_of_lookup. exists k.
      apply list_lookup_insert_eq. by eapply lookup_lt_Some.
    + exists c0. split; [|done].
      apply list_elem_of_lookup. exists i. by rewrite list_lookup_insert_ne.
Qed.

Lemma reordered_consistent ms w :
  consistent w → ms ≡ₚ messages w → consistent (setMessages ms w).
Proof.
  intros (Hnodup & Hnew & Hknown) Hperm.
  assert (Hsame : ∀ cid, hasAutoReply (setMessages ms w) cid ↔ hasAutoReply w cid).
  { intros cid. unfold hasAutoReply. cbn [messages setMessages].
    split; intros (m & Hm & Hrest); exists m; (split; [|done]).
    - by rewrite <- Hperm.
    - by rewrite Hperm. }
  split; [done|]. split; cbn [customers messages setMessages].
  - intros c Hc. rewrite Hsame. by apply Hnew.
  - intros m Hm. apply Hknown. by rewrite <- Hperm.
Qed.

Lemma reachable_consistent w : reachable w → consistent w.
Proof.
  induction 1 as [|s w Hreach IH|e id updates w Hreach IH Hid Hisnew
                  |ms w Hreach IH Hperm|e ev w Hreach IH Hfresh].
  - apply consistent_initial.
  - done.
  - by apply update_consistent.
  - by apply reordered_consistent.
  - by apply step_consistent.
Qed.

Lemma processIncomingMessage_sender_stored e message contacts w :
  ∃ c, c ∈ customers (snd (processIncomingMessage e message contacts w))
       ∧ Customer.phoneNumber c = wm_from message.
Proof.
  destruct (processIncomingMessage_resolved e message contacts w)
    as (-> & k & Hfind & _).
  apply list_find_Some in Hfind as (Hk & Hphone & _).
  destruct (processIncomingMessage_evolves e message contacts _ k _ Hk)
    as (c' & Hk' & _ & Hphone' & _).
  exists c'. split; [by eapply list_elem_of_lookup_2|congruence].
Qed.

(** ** The repeated-message memory *)

Lemma detectSpam_recent content phoneNumber w :
  default [] (recentMessages (snd (MessageValidator.detectSpam content phoneNumber w))
              !! phoneNumber)
  = MessageValidator.pushRecent (default [] (recentMessages w !! phoneNumber)) content.
Proof.
  unfold MessageValidator.detectSpam, MessageValidator.isRepeatedMessage. cbn.
  by rewrite lookup_insert_eq.
Qed.

Lemma detectSpam_repeated content phoneNumber w :
  content ∈ default [] (recentMessages w !! phoneNumber) →
  fst (MessageValidator.detectSpam content phoneNumber w) = true.
Proof.
  intros Hin. unfold MessageValidator.detectSpam, MessageValidator.isRepeatedMessage.
  cbn. rewrite bool_decide_eq_true_2 by done. apply orb_true_r.
Qed.

(** [body] is in the list with at most [n] bodies after it. *)
Lemma pushRecent_first recent body :
  ∃ pre, MessageValidator.pushRecent recent body = pre ++ [body].
Proof.
  unfold MessageValidator.pushRecent. cbv zeta. case_decide as Hlen; [|eauto].
  destruct recent as [|x recent]; [cbn in Hlen; lia|]. by exists recent.
Qed.

Lemma pushRecent_later pre body post other :
  (length post < 9)%nat →
  ∃ pre', MessageValidator.pushRecent (pre ++ body :: post) other
          = pre' ++ body :: (post ++ [other]).
Proof.
  intros Hpost. unfold MessageValidator.pushRecent. cbv zeta.
  rewrite <- app_assoc. cbn [app].
  case_decide as Hlen; [|by exists pre].
  destruct pre as [|x pre].
  - cbn in Hlen. rewrite length_app in Hlen. cbn in Hlen. lia.
  - by exists pre.
Qed.

Lemma trackEach_keeps others : ∀ phoneNumber body w pre post,
  default [] (recentMessages w !! phoneNumber) = pre ++ body :: post →
  (length post + length others ≤ 9)%nat →
  body ∈ default [] (recentMessages (trackEach others phoneNumber w) !! phoneNumber).
Proof.
  induction others as [|other others IH]; intros phoneNumber body w pre post Hw Hlen.
  - cbn. rewrite Hw. apply elem_of_app. right. by left.
  - cbn [trackEach]. cbn [length] in Hlen.
    destruct (pushRecent_later pre body post other) as (pre' & Hpushed); [lia|].
    apply (IH _ _ _ pre' (post ++ [other])).
    + by rewrite detectSpam_recent, Hw.
    + rewrite length_app. cbn. lia.
Qed.

(** ** A first contact, end to end *)

(** 'Hi' from an unseen number during business hours: a customer is
    created, the message is recorded as incoming, the new-customer template
    is sent and recorded as an outgoing auto-reply, and the customer is not
    new afterwards. *)
Example first_contact_end_to_end :
  let result :=
    processIncomingMessage (Sample.env 1000) (Sample.hi (js "wamid.A"))
      (Some [Sample.contact]) Sample.world in
  autoReplySent (fst result) = Some true
  ∧ Customer.name <$> customers (snd result) = [js "Ada"]
  ∧ Customer.isNew <$> customers (snd result) = [false]
  ∧ Customer.messageCount <$> customers (snd result) = [1]
  ∧ Message.direction <$> messages (snd result) = [Incoming; Outgoing]
  ∧ Message.isAutoReply <$> messages (snd result) = [false; true]
  ∧ Message.content <$> messages (snd result)
    = [js "Hi"; BotSettings.newCustomerMessage SettingsDatabase.defaultAutoReply].
Proof. vm_compute. done. Qed.

(** * The claims *)

(** C1, as amended. [MessageDatabase.create] performs no lookup: every
    append grows the ledger by exactly one record, the new one at the end,
    also when a message with the same channel message id and direction is
    stored already. [processIncomingMessage] records every delivery of an
    inbound message, so the messages stored under its channel id as
    incoming grow by one, and it decides the auto-reply without reading the
    ledger: the decision is the same over every ledger. *)
Theorem C1_append_always_grows e newId data message contacts ledger w :
  messages (snd (MessageDatabase.create e newId data w))
  = messages w ++ [fst (MessageDatabase.create e newId data w)]
  ∧ length (messages (snd (MessageDatabase.create e newId data w)))
    = S (length (messages w))
  ∧ length (storedWith (Message.d_messageId data) (Message.d_direction data)
              (snd (MessageDatabase.create e newId data w)))
    = S (length (storedWith (Message.d_messageId data) (Message.d_direction data) w))
  ∧ length (storedWith (wm_id message) Incoming
              (snd (processIncomingMessage e message contacts w)))
    = S (length (storedWith (wm_id message) Incoming w))
  ∧ autoReplySent (fst (processIncomingMessage e message contacts (setMessages ledger w)))
    = autoReplySent (fst (processIncomingMessage e message contacts w)).
Proof.
  split; [done|]. split.
  { cbn. rewrite length_app. cbn. lia. }
  split.
  { unfold MessageDatabase.create. cbv zeta. cbn [snd].
    rewrite storedWith_app, length_app.
    rewrite filter_cons_True by done. cbn. lia. }
  split; [apply processIncomingMessage_stored|].
  rewrite (processIncomingMessage_sent e message contacts w w) by done.
  rewrite (processIncomingMessage_sent e message contacts (setMessages ledger w) w)
    by done.
  by rewrite (findOrCreateCustomer_reads_customers e (wm_from message) contacts
                (setMessages ledger w) w).
Qed.

(** C1 fails as stated: the same inbound message, delivered twice to a
    process with credentials, is stored twice as incoming, the ledger grows
    from two to four messages, and both deliveries are answered. *)
Lemma C1_counterexample_redelivery :
  let delivery :=
    IncomingMessage (Sample.hi (js "wamid.A")) (Some [Sample.contact]) in
  let w1 := step (Sample.env 1000) delivery Sample.world in
  let w2 := step (Sample.env 2000) delivery w1 in
  length (storedWith (js "wamid.A") Incoming w1) = 1%nat
  ∧ length (messages w1) = 2%nat
  ∧ length (messages w2) = 4%nat
  ∧ length (storedWith (js "wamid.A") Incoming w2) = 2%nat
  ∧ autoReplySent
      (fst (processIncomingMessage (Sample.env 2000) (Sample.hi (js "wamid.A"))
              (Some [Sample.contact]) w1)) = Some true
  ∧ length (filter (λ m, Message.isAutoReply m = true) (messages w2)) = 2%nat.
Proof. vm_compute. done. Qed.

(** C2, as amended. A status update sets the status of the first stored
    message with the channel message id to the status of the event (an
    unrecognised value counting as sent), whatever status the message has,
    so the status can also move backward. Delivering the same event again
    leaves that status as it is, and so does an event that carries the
    status the message already has. An event whose channel id no stored
    message has changes nothing, and the operation returns all the same. *)
Theorem C2_status_applied_unconditionally e e' messageId status w :
  ((∀ m, m ∈ messages w → Message.messageId m ≠ messageId) →
   processStatusUpdate e messageId status w = w)
  ∧ (∀ i m, firstMessageWith messageId w i m →
       let w1 := processStatusUpdate e messageId status w in
       messages w1
       = <[i := Message.withStatus m (coerceStatus status) (ValidDate (now e))]>
           (messages w)
       ∧ Message.status <$> messages w1 !! i = Some (coerceStatus status)
       ∧ Message.status <$> messages (processStatusUpdate e' messageId status w1) !! i
         = Message.status <$> messages w1 !! i
       ∧ (Message.status m = coerceStatus status →
          Message.status <$> messages w1 !! i = Some (Message.status m))).
Proof.
  split.
  - intros Hnone. unfold processStatusUpdate.
    by rewrite updateStatus_unknown.
  - intros i m Hfirst w1.
    pose proof (firstMessageWith_updated e _ (coerceStatus status) _ _ _ Hfirst)
      as Hfirst1.
    pose proof (firstMessageWith_updated e' _ (coerceStatus status) _ _ _ Hfirst1)
      as Hfirst2.
    fold (processStatusUpdate e messageId status w) in Hfirst1, Hfirst2.
    fold w1 in Hfirst1, Hfirst2.
    fold (processStatusUpdate e' messageId status w1) in Hfirst2.
    destruct Hfirst1 as (Hi1 & _). destruct Hfirst2 as (Hi2 & _).
    rewrite Hi1, Hi2. cbn. split; [|split; [done|split; [done|]]].
    + subst w1. unfold processStatusUpdate.
      by rewrite (updateStatus_first _ _ _ _ _ _ Hfirst).
    + by intros ->.
Qed.

(** The reply to a first message is marked read; an event for an unknown
    channel id changes nothing. *)
Lemma C2_status_applied_unconditionally_witness :
  let w1 := step (Sample.env 1000)
              (IncomingMessage (Sample.hi (js "wamid.A")) None) Sample.world in
  processStatusUpdate (Sample.env 2000) (js "wamid.unknown") (js "read") w1 = w1
  ∧ Message.status
      <$> messages (processStatusUpdate (Sample.env 2000) (js "wamid.reply")
                      (js "read") w1) !! 1%nat
    = Some Read.
Proof.
  intros w1.
  destruct (C2_status_applied_unconditionally (Sample.env 2000) (Sample.env 3000)
              (js "wamid.unknown") (js "read") w1) as [Hunknown _].
  destruct (C2_status_applied_unconditionally (Sample.env 2000) (Sample.env 3000)
              (js "wamid.reply") (js "read") w1) as [_ Hknown].
  split.
  - apply Hunknown. intros m Hm Hid. vm_compute in Hm.
    repeat (apply elem_of_cons in Hm as [-> | Hm]; [by vm_compute in Hid|]).
    by apply elem_of_nil in Hm.
  - refine (proj1 (proj2 (Hknown 1%nat _ _))).
    split; [vm_compute; reflexivity|]. split; [vm_compute; reflexivity|].
    intros j m' Hj Hlt. destruct j as [|j]; [|lia].
    vm_compute in Hj. injection Hj as <-. by vm_compute.
Defined.

(** C2 fails as stated: the reply to an inbound message is read, and a
    delivery receipt that arrives after the read receipt moves its status
    back from read to delivered. *)
Lemma C2_counterexample_status_regresses :
  let w1 := step (Sample.env 1000)
              (IncomingMessage (Sample.hi (js "wamid.A")) None) Sample.world in
  let w2 := step (Sample.env 2000) (StatusUpdate (js "wamid.reply") (js "read")) w1 in
  let w3 := step (Sample.env 3000) (StatusUpdate (js "wamid.reply") (js "delivered")) w2 in
  Message.status <$> messages w2 !! 1%nat = Some Read
  ∧ Message.status <$> messages w3 !! 1%nat = Some Delivered
  ∧ (statusRank Delivered < statusRank Read)%nat.
Proof. vm_compute. split; [done|]. split; [done|]. lia. Qed.

(** C3, as amended. [RateLimiter.isAllowed], with its defaults, rejects a
    sender's sixth event once five events of that sender were accepted and
    are all inside the 60-second window, leaving its record as it is, and
    accepts the sender's next event once the window has slid past the first
    of the five. [processIncomingMessage] never consults the limiter: an
    inbound message of that sender, arriving where the limiter would reject
    it, is processed like any other (its result is the successful one, the
    message is recorded as incoming and the sender is a stored customer),
    and the limiter's record is neither read nor written. *)
Theorem C3_rate_limiter_not_consulted
    e1 e2 e3 e4 e5 e6 e7 phoneNumber message contacts record w :
  let accepted := [e1; e2; e3; e4; e5] in
  (∀ e, e ∈ accepted → now e ≤ now e6 ∧ now e6 - 60000 < now e) →
  fst (admitEach accepted phoneNumber w) = [true; true; true; true; true] →
  wm_from message = phoneNumber →
  let w5 := snd (admitEach accepted phoneNumber w) in
  let result := processIncomingMessage e6 message contacts w5 in
  RateLimiter.isAllowed e6 phoneNumber 60000 5 w5 = (false, w5)
  ∧ (now e1 ≤ now e7 - 60000 →
     fst (RateLimiter.isAllowed e7 phoneNumber 60000 5 w5) = true)
  ∧ success (fst result) = true
  ∧ length (storedWith (wm_id message) Incoming (snd result))
    = S (length (storedWith (wm_id message) Incoming w5))
  ∧ (∃ c, c ∈ customers (snd result) ∧ Customer.phoneNumber c = phoneNumber)
  ∧ requests (snd result) = requests w5
  ∧ processIncomingMessage e6 message contacts (setRequests record w5)
    = (fst result, setRequests record (snd result)).
Proof.
  intros accepted Hwindow Hall Hfrom w5 result.
  destruct (admitEach_accepted accepted phoneNumber w
              (default [] (requests w !! phoneNumber)) [] (now e6))
    as (older & Hstored & Hlen).
  - by rewrite app_nil_r.
  - intros e He. by apply Hwindow.
  - intros t Ht. cbn [app] in Ht. apply list_elem_of_fmap in Ht as (e & -> & He).
    unfold RateLimiter.windowMsDefault. by apply Hwindow.
  - done.
  - fold w5 in Hstored.
    assert (older = []) as ->.
    { specialize (Hlen ltac:(done)). rewrite length_app in Hlen. cbn in Hlen.
      unfold RateLimiter.maxRequestsDefault in Hlen.
      destruct older; [done|cbn in Hlen; lia]. }
    cbn in Hstored.
    assert (Hguards : processIncomingMessage e6 message contacts w5
                      = (fst result, withGuards (requests w5) (recentMessages w5)
                                       (snd result))).
    { subst result.
      rewrite <- (withGuards_same w5) at 1. apply processIncomingMessage_guards. }
    assert (Hrequests : requests (snd result) = requests w5).
    { apply (f_equal (λ r, requests (snd r))) in Hguards. by cbn in Hguards. }
    assert (Hrecent : recentMessages (snd result) = recentMessages w5).
    { apply (f_equal (λ r, recentMessages (snd r))) in Hguards. by cbn in Hguards. }
    split; [|split; [|split; [|split; [|split; [|split]]]]].
    + apply isAllowed_full. unfold RateLimiter.recentRequests. rewrite Hstored.
      rewrite filter_all_pass; [cbn; lia|].
      intros t Ht.
      assert (He : ∃ e, e ∈ accepted ∧ t = now e).
      { repeat (apply elem_of_cons in Ht as [-> | Ht];
                [eexists; split; [|reflexivity]; subst accepted;
                 rewrite !elem_of_cons; tauto|]).
        by apply elem_of_nil in Ht. }
      destruct He as (e & He & ->). by apply Hwindow.
    + intros Hslid. apply isAllowed_room. unfold RateLimiter.recentRequests.
      rewrite Hstored. rewrite filter_cons_False by lia.
      pose proof (length_filter (λ time, now e7 - 60000 < time)
                    [now e2; now e3; now e4; now e5]) as Hle.
      cbn [length] in Hle. lia.
    + subst result. by rewrite processIncomingMessage_unfold.
    + apply processIncomingMessage_stored.
    + rewrite <- Hfrom. apply processIncomingMessage_sender_stored.
    + done.
    + rewrite withGuards_requests, processIncomingMessage_guards. f_equal.
      fold result. by rewrite withGuards_requests, Hrecent.
Qed.

(** Five events at seconds 1 to 5 are accepted; the sixth at second 6 is
    rejected; an event at second 61 is accepted. *)
Lemma C3_rate_limiter_not_consulted_witness :
  let sender := js "15551234567" in
  let accepted := [Sample.env 1000; Sample.env 2000; Sample.env 3000;
                   Sample.env 4000; Sample.env 5000] in
  let w5 := snd (admitEach accepted sender Sample.world) in
  RateLimiter.isAllowed (Sample.env 6000) sender 60000 5 w5 = (false, w5)
  ∧ fst (RateLimiter.isAllowed (Sample.env 61000) sender 60000 5 w5) = true.
Proof.
  intros sender accepted w5.
  destruct (C3_rate_limiter_not_consulted
              (Sample.env 1000) (Sample.env 2000) (Sample.env 3000) (Sample.env 4000)
              (Sample.env 5000) (Sample.env 6000) (Sample.env 61000)
              sender (Sample.hi (js "wamid.F")) None ∅ Sample.world)
    as (Hsixth & Hlater & _).
  - intros e He.
    repeat (apply elem_of_cons in He as [-> | He]; [cbn; lia|]).
    by apply elem_of_nil in He.
  - vm_compute. reflexivity.
  - reflexivity.
  - split; [exact Hsixth|]. apply Hlater. cbn. lia.
Defined.

(** C3 fails as stated: six messages of one sender arrive within six
    seconds. Had the limiter been asked before each of them, it would have
    accepted the first five and rejected the sixth; the sixth is processed
    all the same: it is recorded, answered and counted for the customer. *)
Lemma C3_counterexample_sixth_message_persisted :
  let sender := js "15551234567" in
  let deliver t channelId w :=
    step (Sample.env t) (IncomingMessage (Sample.hi channelId) None)
      (snd (RateLimiter.isAllowed (Sample.env t) sender 60000 5 w)) in
  let w5 :=
    deliver 5000 (js "wamid.E") (deliver 4000 (js "wamid.D")
      (deliver 3000 (js "wamid.C") (deliver 2000 (js "wamid.B")
        (deliver 1000 (js "wamid.A") Sample.world)))) in
  let w6 := step (Sample.env 6000) (IncomingMessage (Sample.hi (js "wamid.F")) None) w5 in
  requests w5 !! sender = Some [1000; 2000; 3000; 4000; 5000]
  ∧ RateLimiter.isAllowed (Sample.env 6000) sender 60000 5 w5 = (false, w5)
  ∧ Customer.messageCount <$> customers w5 = [5]
  ∧ Customer.messageCount <$> customers w6 = [6]
  ∧ length (storedWith (js "wamid.F") Incoming w5) = 0%nat
  ∧ length (storedWith (js "wamid.F") Incoming w6) = 1%nat
  ∧ length (messages w6) = S (S (length (messages w5))).
Proof. vm_compute. done. Qed.

(** C4, as amended. [MessageValidator.detectSpam] flags a body that is
    among the last ten it has seen from the sender (the body, at most nine
    others, the body again). Every inbound message is recorded as an
    incoming message, a repeated one too, and the pipeline neither reads
    nor writes the validator's memory: the result of
    [processIncomingMessage], the auto-reply included, is the same whatever
    that memory holds, so a repeated body is answered like any other. *)
Theorem C4_repeat_flag_not_consulted e message contacts body others phoneNumber memory w :
  (length others ≤ 9)%nat →
  fst (MessageValidator.detectSpam body phoneNumber
         (trackEach (body :: others) phoneNumber w)) = true
  ∧ length (storedWith (wm_id message) Incoming
              (snd (processIncomingMessage e message contacts w)))
    = S (length (storedWith (wm_id message) Incoming w))
  ∧ recentMessages (snd (processIncomingMessage e message contacts w))
    = recentMessages w
  ∧ processIncomingMessage e message contacts (setRecentMessages memory w)
    = (fst (processIncomingMessage e message contacts w),
       setRecentMessages memory (snd (processIncomingMessage e message contacts w))).
Proof.
  intros Hothers. split; [|split; [|split]].
  - apply detectSpam_repeated. cbn [trackEach].
    destruct (pushRecent_first (default [] (recentMessages w !! phoneNumber)) body)
      as (pre & Hpushed).
    apply (trackEach_keeps _ _ _ _ pre []); [|cbn; lia].
    by rewrite detectSpam_recent.
  - apply processIncomingMessage_stored.
  - pose proof (processIncomingMessage_guards e message contacts
                  (requests w) (recentMessages w) w) as Hguards.
    rewrite withGuards_same in Hguards.
    apply (f_equal (λ r, recentMessages (snd r))) in Hguards. by cbn in Hguards.
  - rewrite withGuards_recentMessages, processIncomingMessage_guards.
    f_equal.
    pose proof (processIncomingMessage_guards e message contacts
                  (requests w) (recentMessages w) w) as Hguards.
    rewrite withGuards_same in Hguards.
    apply (f_equal (λ r, requests (snd r))) in Hguards. cbn in Hguards.
    by rewrite withGuards_recentMessages, Hguards.
Qed.

(** 'Hi', another body, 'Hi' again: the second 'Hi' is flagged. *)
Lemma C4_repeat_flag_not_consulted_witness :
  fst (MessageValidator.detectSpam (js "Hi") (js "15551234567")
         (trackEach [js "Hi"; js "Are you open?"] (js "15551234567") Sample.world))
  = true.
Proof.
  refine (proj1 (C4_repeat_flag_not_consulted (Sample.env 1000) (Sample.hi (js "wamid.A"))
                   None (js "Hi") [js "Are you open?"] (js "15551234567") ∅
                   Sample.world _)).
  cbn. lia.
Defined.

(** C4 fails as stated: the same body arrives twice from one sender, in
    two messages. Had the validator been shown each body on arrival, it
    would have flagged the second; both messages are recorded and both are
    answered. *)
Lemma C4_counterexample_both_answered :
  let sender := js "15551234567" in
  let w1 :=
    step (Sample.env 1000) (IncomingMessage (Sample.hi (js "wamid.A")) None)
      (snd (MessageValidator.detectSpam (js "Hi") sender Sample.world)) in
  let w2 := step (Sample.env 2000) (IncomingMessage (Sample.hi (js "wamid.B")) None) w1 in
  fst (MessageValidator.detectSpam (js "Hi") sender Sample.world) = false
  ∧ fst (MessageValidator.detectSpam (js "Hi") sender w1) = true
  ∧ Message.content <$> filter (λ m, Message.direction m = Incoming) (messages w2)
    = [js "Hi"; js "Hi"]
  ∧ autoReplySent
      (fst (processIncomingMessage (Sample.env 2000) (Sample.hi (js "wamid.B")) None w1))
    = Some true
  ∧ length (filter (λ m, Message.isAutoReply m = true) (messages w2)) = 2%nat.
Proof. vm_compute. done. Qed.

Lemma processAutoReply_outcome e customer content w :
  let s := default (SettingsDatabase.defaultSettings e) (botSettings w) in
  let reply := templateText (BotSettings.autoReply s) (selectTemplate e s customer) in
  let api :=
    WhatsAppAPIOps.make (BotSettings.accessToken s) (BotSettings.phoneNumberId s) in
  BotSettings.isActive s = true → shouldSendAutoReply content = true →
  (fst (processAutoReply e customer content w),
   messages (snd (processAutoReply e customer content w)))
  = match WhatsAppAPIOps.sendMessage e api (Customer.phoneNumber customer) reply with
    | Some response =>
        match resp_messages response with
        | channelId :: _ =>
            (true,
             messages w ++ [Message.ofData (autoReplyRecord customer channelId reply e)
                              (newOutgoingId e) (ValidDate (now e)) (ValidDate (now e))])
        | [] => (false, messages w)
        end
    | None => (false, messages w)
    end.
Proof.
  intros s reply api Hactive Hdue. unfold processAutoReply.
  destruct (get_settings e w) as (s' & -> & Hs). fold s in Hs. subst s'.
  rewrite Hactive, Hdue. cbn [negb]. fold reply api.
  destruct (WhatsAppAPIOps.sendMessage e api _ reply) as [response|];
    [|by destruct w].
  destruct (resp_messages response) as [|channelId rest]; [by destruct w|].
  unfold MessageDatabase.create. by destruct w.
Qed.

(** C5. Where an auto-reply is due (the bot is active and the content is
    not one of the skipped acknowledgements) exactly one template is
    selected: the after-hours one when business-hours checking is enabled
    and the time is outside business hours, whatever [isNew] is; otherwise
    the new-customer one when [isNew] holds, and the returning-customer one
    when it does not; never the fallback one. The reply is the text the
    settings hold for that template: the after-hours, the new-customer or
    the returning-customer message. That text is what is handed to the
    channel, and what the recorded reply holds when the channel accepts
    it; the fallback text of the settings has no bearing on what is sent
    and recorded. *)
Theorem C5_template_precedence e settings customer content w :
  default (SettingsDatabase.defaultSettings e) (botSettings w) = settings →
  BotSettings.isActive settings = true →
  shouldSendAutoReply content = true →
  let hours := BotSettings.businessHours settings in
  let closed :=
    BotSettings.bh_enabled hours
    && negb (BusinessHours.isBusinessHour e (BotSettings.bh_timezone hours)
               (BotSettings.schedule hours)) in
  let texts := BotSettings.autoReply settings in
  let selected := selectTemplate e settings customer in
  let reply :=
    if closed then BotSettings.afterHoursMessage texts
    else if Customer.isNew customer then BotSettings.newCustomerMessage texts
    else BotSettings.returningCustomerMessage texts in
  let api :=
    WhatsAppAPIOps.make (BotSettings.accessToken settings)
      (BotSettings.phoneNumberId settings) in
  let outcome w :=
    (fst (processAutoReply e customer content w),
     messages (snd (processAutoReply e customer content w))) in
  selected = (if closed then AfterHours
              else if Customer.isNew customer then NewCustomer
              else ReturningCustomer)
  ∧ selected ≠ Fallback
  ∧ templateText texts selected = reply
  ∧ fst (processAutoReply e customer content w)
    = match WhatsAppAPIOps.sendMessage e api (Customer.phoneNumber customer) reply with
      | Some response => negb (bool_decide (resp_messages response = []))
      | None => false
      end
  ∧ (fst (processAutoReply e customer content w) = true →
     ∃ recorded,
       messages (snd (processAutoReply e customer content w))
       = messages w ++ [recorded]
       ∧ Message.content recorded = reply
       ∧ Message.isAutoReply recorded = true
       ∧ Message.direction recorded = Outgoing)
  ∧ (∀ text,
       outcome (setBotSettings (Some (withFallbackMessage text settings)) w)
       = outcome w).
Proof.
  intros Hsettings Hactive Hdue hours closed texts selected reply api outcome.
  assert (Hselected : selected = (if closed then AfterHours
              else if Customer.isNew customer then NewCustomer
              else ReturningCustomer)).
  { subst selected closed hours. unfold selectTemplate.
    destruct (BotSettings.bh_enabled _); [|done].
    by destruct (BusinessHours.isBusinessHour _ _ _). }
  assert (Htext : templateText texts selected = reply).
  { rewrite Hselected. subst reply.
    destruct closed; [done|]. by destruct (Customer.isNew customer). }
  pose proof (processAutoReply_outcome e customer content w) as Hout.
  cbv zeta in Hout. rewrite Hsettings in Hout. specialize (Hout Hactive Hdue).
  fold texts selected in Hout. rewrite Htext in Hout. fold api in Hout.
  split; [done|]. split.
  { rewrite Hselected.
    destruct closed; [done|]. by destruct (Customer.isNew customer). }
  split; [done|]. split.
  { apply (f_equal fst) in Hout. cbn [fst] in Hout. rewrite Hout.
    destruct (WhatsAppAPIOps.sendMessage e api _ reply) as [response|]; [|done].
    by destruct (resp_messages response). }
  split.
  { intros Hsent. rewrite Hsent in Hout.
    destruct (WhatsAppAPIOps.sendMessage e api _ reply) as [response|];
      [|discriminate].
    destruct (resp_messages response) as [|channelId rest]; [discriminate|].
    injection Hout as Hmsgs. eexists. split; [exact Hmsgs|]. done. }
  intros text. subst outcome. cbv beta.
  pose proof (processAutoReply_outcome e customer content
                (setBotSettings (Some (withFallbackMessage text settings)) w))
    as Hout'.
  cbv zeta in Hout'.
  assert (Hstored : botSettings (setBotSettings (Some (withFallbackMessage text settings)) w)
                    = Some (withFallbackMessage text settings)) by by destruct w.
  rewrite Hstored in Hout'. cbn [from_option id] in Hout'.
  specialize (Hout' Hactive Hdue).
  assert (Hsame : selectTemplate e (withFallbackMessage text settings) customer = selected)
    by done.
  rewrite Hsame in Hout'.
  assert (Htext' : templateText (BotSettings.autoReply (withFallbackMessage text settings))
                     selected = reply).
  { rewrite <- Htext, Hselected.
    destruct closed; [done|]. by destruct (Customer.isNew customer). }
  rewrite Htext' in Hout'.
  change (WhatsAppAPIOps.make
            (BotSettings.accessToken (withFallbackMessage text settings))
            (BotSettings.phoneNumberId (withFallbackMessage text settings)))
    with api in Hout'.
  assert (Hmessages : messages (setBotSettings (Some (withFallbackMessage text settings)) w)
                      = messages w) by by destruct w.
  rewrite Hmessages in Hout'. by rewrite Hout', Hout.
Qed.

(** Monday 10:30 (open): the first message of a new customer is answered
    with the new-customer text of the settings. Monday 20:00 (closed): the
    same customer, still new, is answered with the after-hours text. *)
Lemma C5_template_precedence_witness :
  let customer :=
    fst (findOrCreateCustomer (Sample.env 1000) (js "15551234567") None Sample.world) in
  Message.content
    <$> messages (snd (processAutoReply (Sample.env 1000) customer (js "Hi")
                         Sample.world))
  = [BotSettings.newCustomerMessage SettingsDatabase.defaultAutoReply]
  ∧ Message.content
      <$> messages (snd (processAutoReply (Sample2.evening 1000) customer (js "Hi")
                           Sample.world))
    = [BotSettings.afterHoursMessage SettingsDatabase.defaultAutoReply].
Proof.
  intros customer. split.
  - destruct (C5_template_precedence (Sample.env 1000) Sample.settings customer
                (js "Hi") Sample.world eq_refl eq_refl eq_refl)
      as (_ & _ & _ & Hsent & Hrecorded & _).
    destruct Hrecorded as (recorded & Hmessages & Hcontent & _);
      [rewrite Hsent; vm_compute; reflexivity|].
    rewrite Hmessages, fmap_app. cbn [fmap list_fmap]. rewrite Hcontent.
    vm_compute. reflexivity.
  - destruct (C5_template_precedence (Sample2.evening 1000) Sample.settings customer
                (js "Hi") Sample.world eq_refl eq_refl eq_refl)
      as (_ & _ & _ & Hsent & Hrecorded & _).
    destruct Hrecorded as (recorded & Hmessages & Hcontent & _);
      [rewrite Hsent; vm_compute; reflexivity|].
    rewrite Hmessages, fmap_app. cbn [fmap list_fmap]. rewrite Hcontent.
    vm_compute. reflexivity.
Defined.

(** C6. [isBusinessHour] answers [true] when the time zone cannot be
    resolved (one of the two formatting calls throws). Otherwise it answers
    [false] when the schedule has no entry for the local weekday or the
    entry is disabled, and for an enabled entry it answers [true] exactly
    when [start <= localTime <= end] in the lexicographic order of the
    strings, both ends included. *)
Theorem C6_isBusinessHour e timezone schedule :
  (localWeekday e timezone = None ∨ localTime e timezone = None →
   BusinessHours.isBusinessHour e timezone schedule = true)
  ∧ (∀ day currentTime,
       localWeekday e timezone = Some day →
       localTime e timezone = Some currentTime →
       match schedule !! weekdayKey day with
       | None => BusinessHours.isBusinessHour e timezone schedule = false
       | Some daySchedule =>
           if BotSettings.enabled daySchedule
           then BusinessHours.isBusinessHour e timezone schedule = true
                ↔ lexLe (BotSettings.start daySchedule) currentTime
                  ∧ lexLe currentTime (BotSettings.end_ daySchedule)
           else BusinessHours.isBusinessHour e timezone schedule = false
       end).
Proof.
  unfold BusinessHours.isBusinessHour. split.
  - intros [-> | Htime]; [done|].
    destruct (localWeekday e timezone); [|done]. by rewrite Htime.
  - intros day currentTime -> ->.
    destruct (schedule !! weekdayKey day) as [daySchedule|]; [|done].
    destruct (BotSettings.enabled daySchedule); [|done]. cbn.
    by rewrite andb_true_iff, !jsLe_lexLe.
Qed.

(** Monday 10:30 with the default schedule is open, both ends of the
    interval are, Sunday is closed, and an unknown time zone is open. *)
Lemma C6_isBusinessHour_witness :
  let at_ day time :=
    {| now := 0; newCustomerId := []; newIncomingId := []; newOutgoingId := [];
       windowOrigin := None;
       localWeekday :=
         λ tz, if bool_decide (tz = js "Mars/Olympus") then None else Some day;
       localTime := λ _, Some time;
       graphSend := λ _ _ _, None; graphMarkRead := λ _ _, false |} in
  let open day time :=
    BusinessHours.isBusinessHour (at_ day time) (js "America/New_York")
      SettingsDatabase.defaultSchedule in
  open Monday (js "10:30") = true ∧ open Monday (js "09:00") = true
  ∧ open Monday (js "17:00") = true ∧ open Monday (js "17:01") = false
  ∧ open Monday (js "08:59") = false ∧ open Sunday (js "12:00") = false
  ∧ BusinessHours.isBusinessHour (at_ Monday (js "03:00")) (js "Mars/Olympus")
      SettingsDatabase.defaultSchedule = true.
Proof.
  intros at_ open.
  pose proof (proj1 (C6_isBusinessHour (at_ Monday (js "03:00")) (js "Mars/Olympus")
                       SettingsDatabase.defaultSchedule)) as Hfail.
  pose proof (proj2 (C6_isBusinessHour (at_ Monday (js "10:30")) (js "America/New_York")
                       SettingsDatabase.defaultSchedule) Monday (js "10:30")
                eq_refl eq_refl) as Hopen.
  split.
  { assert (SettingsDatabase.defaultSchedule !! weekdayKey Monday
            = Some SettingsDatabase.weekdayHours) as Hday by (vm_compute; reflexivity).
    rewrite Hday in Hopen. apply Hopen.
    split; right; apply jsLt_lexLt; vm_compute; reflexivity. }
  do 5 (split; [vm_compute; reflexivity|]).
  apply Hfail. left. vm_compute. reflexivity.
Defined.

(** C7. [findOrCreateCustomer] returns the stored customer with the phone
    number, the first one when there are several, as it is, and leaves the
    store untouched. When no stored customer has the phone number it
    appends and returns a customer with that phone number, [isNew] set,
    status active and message count 0; its name is the profile name of the
    first contact given for that number when that name is not empty, and
    'Customer ' followed by the last four code units of the phone number
    when the name is empty or no contact is given for the number. *)
Theorem C7_findOrCreateCustomer e phoneNumber contacts w :
  let result := findOrCreateCustomer e phoneNumber contacts w in
  let created := fst result in
  let placeholder := js "Customer " ++ sliceLast 4 phoneNumber in
  (∀ i existing,
     customers w !! i = Some existing →
     Customer.phoneNumber existing = phoneNumber →
     (∀ j c, customers w !! j = Some c → (j < i)%nat →
        Customer.phoneNumber c ≠ phoneNumber) →
     result = (existing, w))
  ∧ ((∀ c, c ∈ customers w → Customer.phoneNumber c ≠ phoneNumber) →
     customers (snd result) = customers w ++ [created]
     ∧ messages (snd result) = messages w
     ∧ Customer.phoneNumber created = phoneNumber
     ∧ Customer.isNew created = true
     ∧ Customer.status created = Active
     ∧ Customer.messageCount created = 0
     ∧ (∀ cs k contact,
          contacts = Some cs → cs !! k = Some contact →
          wa_id contact = phoneNumber →
          (∀ j c, cs !! j = Some c → (j < k)%nat → wa_id c ≠ phoneNumber) →
          Customer.name created
          = if bool_decide (profile_name contact = []) then placeholder
            else profile_name contact)
     ∧ ((∀ cs c, contacts = Some cs → c ∈ cs → wa_id c ≠ phoneNumber) →
        Customer.name created = placeholder))
  ∧ (∀ pre d1 d2 d3 d4,
       phoneNumber = pre ++ [d1; d2; d3; d4] →
       placeholder = js "Customer " ++ [d1; d2; d3; d4]).
Proof.
  intros result created placeholder. subst result created placeholder.
  split; [|split].
  - intros i existing Hi Hphone Hfirst. unfold findOrCreateCustomer.
    rewrite (proj2 (findByPhoneNumber_Some phoneNumber w existing)); [done|].
    eauto.
  - intros Hnone. unfold findOrCreateCustomer.
    rewrite (proj2 (findByPhoneNumber_None phoneNumber w) Hnone).
    unfold CustomerDatabase.create. cbn.
    repeat (split; [done|]). split.
    + intros cs k contact -> Hk Hid Hfirst. unfold customerName, findContact.
      assert (list_find (λ c, wa_id c = phoneNumber) cs = Some (k, contact)) as ->
        by (apply list_find_Some; eauto).
      cbn. by destruct (profile_name contact).
    + intros Hno. unfold customerName, findContact.
      destruct contacts as [cs|]; [|done].
      assert (list_find (λ c, wa_id c = phoneNumber) cs = None) as ->; [|done].
      apply list_find_None, Forall_forall. intros c Hc. by apply (Hno cs c).
  - intros pre d1 d2 d3 d4 ->. by rewrite sliceLast_app.
Qed.

(** A first message with a contact creates the customer under the profile
    name; the next message from the number gets that customer back, the
    store as it is; a number without a contact gets the placeholder. *)
Lemma C7_findOrCreateCustomer_witness :
  let first :=
    findOrCreateCustomer (Sample.env 1000) (js "15551234567")
      (Some [Sample.contact]) Sample.world in
  Customer.name (fst first) = js "Ada"
  ∧ findOrCreateCustomer (Sample.env 2000) (js "15551234567") None (snd first) = first
  ∧ Customer.name
      (fst (findOrCreateCustomer (Sample.env 1000) (js "15550009999")
              (Some [Sample.contact]) Sample.world))
    = js "Customer 9999".
Proof.
  intros first. split; [|split].
  - destruct (C7_findOrCreateCustomer (Sample.env 1000) (js "15551234567")
                (Some [Sample.contact]) Sample.world) as (_ & Hcreated & _).
    destruct Hcreated as (_ & _ & _ & _ & _ & _ & Hname & _).
    { intros c Hc. by apply elem_of_nil in Hc. }
    subst first. rewrite (Hname [Sample.contact] 0%nat Sample.contact); try done.
    intros j c _ Hlt. lia.
  - destruct (C7_findOrCreateCustomer (Sample.env 2000) (js "15551234567")
                None (snd first)) as (Hexisting & _).
    rewrite (Hexisting 0%nat (fst first)).
    + by destruct first.
    + vm_compute. reflexivity.
    + vm_compute. reflexivity.
    + intros j c _ Hlt. lia.
  - destruct (C7_findOrCreateCustomer (Sample.env 1000) (js "15550009999")
                (Some [Sample.contact]) Sample.world) as (_ & Hcreated & _).
    destruct Hcreated as (_ & _ & _ & _ & _ & _ & _ & Hname).
    { intros c Hc. by apply elem_of_nil in Hc. }
    rewrite Hname; [vm_compute; reflexivity|].
    intros cs c [= <-] Hc. apply list_elem_of_singleton in Hc as ->.
    vm_compute. discriminate.
Defined.

(** A contact whose profile name is empty gives the placeholder name. *)
Lemma findOrCreateCustomer_empty_profile_name :
  Customer.name
    (fst (findOrCreateCustomer (Sample.env 1000) (js "15551234567")
            (Some [{| profile_name := []; wa_id := js "15551234567" |}])
            Sample.world))
  = js "Customer 4567".
Proof. vm_compute. reflexivity. Qed.

(** C8. In every store of a running process a customer is new exactly
    when no auto-reply to it is recorded. One pipeline operation leaves a
    customer that is not new as it is, and turns a new customer into a
    returning one exactly when the operation is an inbound message resolved
    to that customer whose auto-reply was sent ([processAutoReply] answered
    [true]: the channel accepted the reply and returned its id), which is
    then the first auto-reply to that customer. Once a customer is not new
    it stays so along every sequence of pipeline operations, so the flag
    changes at most once and never back. *)
Theorem C8_isNew_flips_once_on_first_auto_reply e ev evs w i c :
  reachable w → freshCustomerId e w → customers w !! i = Some c →
  (Customer.isNew c = true ↔ ¬ hasAutoReply w (Customer.id c))
  ∧ (∃ c', customers (step e ev w) !! i = Some c'
        ∧ Customer.id c' = Customer.id c
        ∧ (Customer.isNew c = false → Customer.isNew c' = false)
        ∧ (Customer.isNew c = true →
           Customer.isNew c' = false ↔ autoReplySentTo e ev w c))
  ∧ (Customer.isNew c = false →
     ∃ c', customers (run evs w) !! i = Some c'
       ∧ Customer.id c' = Customer.id c
       ∧ Customer.isNew c' = false).
Proof.
  intros Hreach Hfresh Hi.
  destruct (reachable_consistent w Hreach) as (Hnodup & Hnew & _).
  split; [apply Hnew; by eapply list_elem_of_lookup_2|].
  split.
  - destruct (step_evolves e ev w i c Hi) as (c' & Hi' & Hid & _ & Hstays).
    exists c'. split; [done|]. split; [done|]. split; [done|].
    intros Hisnew.
    destruct ev as [message contacts | messageId status | customerId content];
      cbn [step autoReplySentTo] in *.
    + unfold CustomerDatabase.findByPhoneNumber.
      destruct (list_find (λ c0, Customer.phoneNumber c0 = wm_from message)
                  (customers w)) as [[k c0]|] eqn:Hfind.
      * destruct (processIncomingMessage_existing e message contacts w k c0 Hnodup Hfind)
          as (_ & sent & final & -> & Hcs & _ & _ & Hfinal).
        pose proof Hfind as Hk. apply list_find_Some in Hk as (Hk & _).
        rewrite Hcs in Hi'. cbn. destruct (decide (i = k)) as [->|Hne].
        -- rewrite list_lookup_insert_eq in Hi' by by eapply lookup_lt_Some.
           assert (c0 = c) as -> by congruence.
           injection Hi' as <-. rewrite Hfinal, Hisnew. cbn.
           destruct sent; cbn; split; try done. by intros [_ ?].
        -- rewrite list_lookup_insert_ne in Hi' by done.
           assert (c' = c) as -> by congruence. rewrite Hisnew.
           split; [done|]. intros [Hsame _]. injection Hsame as ->.
           exfalso. apply Hne.
           eapply NoDup_lookup; [exact Hnodup|..]; rewrite list_lookup_fmap.
           ++ by rewrite Hi.
           ++ by rewrite Hk.
      * destruct (processIncomingMessage_created e message contacts w Hnodup Hfresh Hfind)
          as (_ & sent & final & _ & Hcs & _).
        rewrite Hcs, lookup_app_l in Hi' by by eapply lookup_lt_Some.
        assert (c' = c) as -> by congruence. rewrite Hisnew. cbn.
        split; [done|]. by intros [? _].
    + rewrite processStatusUpdate_customers in Hi'.
      assert (c' = c) as -> by congruence. by rewrite Hisnew.
    + rewrite sendManualMessage_customers in Hi'.
      assert (c' = c) as -> by congruence. by rewrite Hisnew.
  - intros Hold. destruct (run_evolves evs w i c Hi) as (c' & Hi' & Hid & _ & Hstays).
    exists c'. auto.
Qed.

(** The first message of a customer is answered: the customer, new before,
    is returning afterwards; a second message leaves it returning. *)
Lemma C8_isNew_flips_once_on_first_auto_reply_witness :
  let first := IncomingMessage (Sample.hi (js "wamid.A")) None in
  let silent :=
    {| now := 500; newCustomerId := js "cust-1"; newIncomingId := js "in-500";
       newOutgoingId := js "out-500"; windowOrigin := None;
       localWeekday := λ _, Some Monday; localTime := λ _, Some (js "10:30");
       graphSend := λ _ _ _, None; graphMarkRead := λ _ _, false |} in
  let w1 := step silent first Sample.world in
  let e2 := {| now := 1000; newCustomerId := js "cust-2"; newIncomingId := js "in-1000";
       newOutgoingId := js "out-1000"; windowOrigin := None;
       localWeekday := λ _, Some Monday; localTime := λ _, Some (js "10:30");
       graphSend := λ _ _ _, Some Sample.okResponse; graphMarkRead := λ _ _, true |} in
  let second := IncomingMessage (Sample.hi (js "wamid.B")) None in
  Customer.isNew <$> customers w1 = [true]
  ∧ Customer.isNew <$> customers (step e2 second w1) = [false].
Proof.
  intros first silent w1 e2 second.
  assert (Hreach : reachable w1).
  { apply reachable_step.
    - apply (reachable_settings Sample.settings), reachable_initial.
    - intros c Hc. by apply elem_of_nil in Hc. }
  assert (Hfresh : freshCustomerId e2 w1).
  { intros c Hc. vm_compute in Hc.
    apply list_elem_of_singleton in Hc as ->. by vm_compute. }
  assert (Hc : ∃ c, customers w1 !! 0%nat = Some c ∧ Customer.isNew c = true
                    ∧ autoReplySentTo e2 second w1 c).
  { eexists. split; [vm_compute; reflexivity|]. split; [reflexivity|].
    split; vm_compute; reflexivity. }
  destruct Hc as (c & Hi & Hisnew & Hsent).
  destruct (C8_isNew_flips_once_on_first_auto_reply e2 second [] w1 0%nat c
              Hreach Hfresh Hi) as (_ & (c' & Hi' & _ & _ & Hflip) & _).
  apply (Hflip Hisnew) in Hsent.
  split; [vm_compute; reflexivity|].
  assert (Hlen : length (customers (step e2 second w1)) = 1%nat)
    by (vm_compute; reflexivity).
  destruct (customers (step e2 second w1)) as [|c0 [|? ?]]; try discriminate Hlen.
  cbn in Hi'. injection Hi' as ->. cbn. by rewrite Hsent.
Defined.



(** C10. A status that is none of sent, delivered, read and failed is
    taken as sent and applied to the first stored message with the channel
    message id: the message is then sent, also when it was delivered or
    read before. *)
Theorem C10_unrecognized_status_becomes_sent e messageId status w i m :
  status ∉ [js "sent"; js "delivered"; js "read"; js "failed"] →
  firstMessageWith messageId w i m →
  coerceStatus status = Sent
  ∧ processStatusUpdate e messageId status w
    = snd (MessageDatabase.updateStatus e messageId Sent w)
  ∧ messages (processStatusUpdate e messageId status w) !! i
    = Some (Message.withStatus m Sent (ValidDate (now e)))
  ∧ (Message.status m = Delivered ∨ Message.status m = Read →
     Message.status <$> messages (processStatusUpdate e messageId status w) !! i
     = Some Sent
     ∧ Some Sent ≠ Some (Message.status m)).
Proof.
  intros Hnot Hfirst. unfold processStatusUpdate.
  rewrite (coerceStatus_unrecognized _ Hnot).
  destruct (firstMessageWith_updated e _ Sent _ _ _ Hfirst) as (Hi & _).
  rewrite Hi. cbn. split; [done|]. split; [done|]. split; [done|].
  intros [-> | ->]; split; done.
Qed.

(** A reply that was read is sent again after an event with the status
    'deleted'. *)
Lemma C10_unrecognized_status_becomes_sent_witness :
  let w1 := step (Sample.env 1000)
              (IncomingMessage (Sample.hi (js "wamid.A")) None) Sample.world in
  let w2 := step (Sample.env 2000) (StatusUpdate (js "wamid.reply") (js "read")) w1 in
  Message.status <$> messages w2 !! 1%nat = Some Read
  ∧ Message.status
      <$> messages (processStatusUpdate (Sample.env 3000) (js "wamid.reply")
                      (js "deleted") w2) !! 1%nat
    = Some Sent.
Proof.
  intros w1 w2. split; [vm_compute; reflexivity|].
  assert (Hfirst : ∃ m, firstMessageWith (js "wamid.reply") w2 1%nat m
                        ∧ Message.status m = Read).
  { eexists. split; [split; [vm_compute; reflexivity|]|vm_compute; reflexivity].
    split; [vm_compute; reflexivity|].
    intros j m' Hj Hlt. destruct j as [|j]; [|lia].
    vm_compute in Hj. injection Hj as <-. by vm_compute. }
  destruct Hfirst as (m & Hfirst & Hread).
  refine (proj1 (proj2 (proj2 (proj2
    (C10_unrecognized_status_becomes_sent (Sample.env 3000) (js "wamid.reply")
       (js "deleted") w2 1%nat m _ Hfirst))) _)); [|by right].
  vm_compute. intros Hin.
  repeat (apply elem_of_cons in Hin as [Heq | Hin]; [discriminate Heq|]).
  by apply elem_of_nil in Hin.
Defined.

(** * Further properties *)

(** ** The rate limiter on its own *)

Lemma filter_filter_same {A} (P : A → Prop) `{∀ x, Decision (P x)} (l : list A) :
  filter P (filter P l) = filter P l.
Proof.
  induction l as [|x l IH]; [done|].
  destruct (decide (P x)) as [Hx|Hx].
  - rewrite (filter_cons_True P x l Hx), filter_cons_True by done. by rewrite IH.
  - by rewrite filter_cons_False.
Qed.

Lemma recentRequests_after_accept e phoneNumber windowMs maxRequests w :
  0 < windowMs →
  fst (RateLimiter.isAllowed e phoneNumber windowMs maxRequests w) = true →
  RateLimiter.recentRequests e phoneNumber windowMs
    (snd (RateLimiter.isAllowed e phoneNumber windowMs maxRequests w))
  = RateLimiter.recentRequests e phoneNumber windowMs w ++ [now e].
Proof.
  intros Hwindow Hallowed.
  destruct (isAllowed_accepted e phoneNumber windowMs maxRequests w Hallowed)
    as (_ & ->).
  unfold RateLimiter.recentRequests. cbv zeta. cbn [requests setRequests].
  rewrite lookup_insert_eq. cbn [default id].
  rewrite filter_app, filter_filter_same. f_equal.
  rewrite filter_cons_True by lia. done.
Qed.

(** X1. Where the numbers of the call are safe integers, [isAllowed]
    accepts exactly when [getRemainingRequests], asked at the same instant
    with the same window and limit, is positive. With a positive window an
    accepted call uses up exactly one of the remaining requests, and a
    rejected call leaves the limiter as it was. *)
Theorem isAllowed_uses_one_remaining e phoneNumber windowMs maxRequests w :
  RateLimiter.exactWindow e windowMs maxRequests →
  0 < windowMs →
  let remaining := RateLimiter.getRemainingRequests e phoneNumber windowMs maxRequests in
  let call := RateLimiter.isAllowed e phoneNumber windowMs maxRequests w in
  (fst call = true ↔ 0 < remaining w)
  ∧ (fst call = true → remaining (snd call) = remaining w - 1)
  ∧ (fst call = false → snd call = w ∧ remaining w = 0).
Proof.
  intros _ Hwindow remaining call. subst remaining call.
  unfold RateLimiter.getRemainingRequests.
  split; [|split].
  - unfold RateLimiter.isAllowed. cbv zeta.
    destruct (Z.leb_spec maxRequests
      (Z.of_nat (length (RateLimiter.recentRequests e phoneNumber windowMs w))));
      cbn; split; try done; lia.
  - intros Hallowed. rewrite recentRequests_after_accept by done.
    destruct (isAllowed_accepted e phoneNumber windowMs maxRequests w Hallowed)
      as (Hroom & _). cbv zeta in Hroom.
    rewrite length_app. cbn [length]. lia.
  - unfold RateLimiter.isAllowed. cbv zeta.
    destruct (Z.leb_spec maxRequests
      (Z.of_nat (length (RateLimiter.recentRequests e phoneNumber windowMs w))));
      cbn; [|done]. intros _. split; [done|lia].
Qed.

Lemma isAllowed_uses_one_remaining_witness :
  RateLimiter.getRemainingRequests (Sample.env 1000) (js "15551234567") 60000 5
    (snd (RateLimiter.isAllowed (Sample.env 1000) (js "15551234567") 60000 5
            Sample.world))
  = 4.
Proof.
  destruct (isAllowed_uses_one_remaining (Sample.env 1000) (js "15551234567")
              60000 5 Sample.world) as (_ & Hone & _);
    [unfold RateLimiter.exactWindow, RateLimiter.safeInteger; cbn; lia|lia|].
  rewrite Hone; vm_compute; reflexivity.
Defined.

(** X2. The limiter keeps one record per sender: a call for one sender
    neither changes the record of another sender nor the answer another
    sender gets, at any instant and with any window and limit. *)
Theorem isAllowed_senders_independent
    e e' phoneNumber other windowMs maxRequests windowMs' maxRequests' w :
  phoneNumber ≠ other →
  let w1 := snd (RateLimiter.isAllowed e phoneNumber windowMs maxRequests w) in
  requests w1 !! other = requests w !! other
  ∧ fst (RateLimiter.isAllowed e' other windowMs' maxRequests' w1)
    = fst (RateLimiter.isAllowed e' other windowMs' maxRequests' w)
  ∧ RateLimiter.getRemainingRequests e' other windowMs' maxRequests' w1
    = RateLimiter.getRemainingRequests e' other windowMs' maxRequests' w.
Proof.
  intros Hne w1.
  assert (Hother : requests w1 !! other = requests w !! other).
  { subst w1. unfold RateLimiter.isAllowed. cbv zeta.
    destruct (_ <=? _); [done|]. cbn. by rewrite lookup_insert_ne. }
  split; [done|].
  unfold RateLimiter.isAllowed, RateLimiter.getRemainingRequests,
    RateLimiter.recentRequests. cbv zeta. rewrite Hother.
  split; [|done]. by destruct (_ <=? _).
Qed.

Lemma isAllowed_senders_independent_witness :
  fst (RateLimiter.isAllowed (Sample.env 6000) (js "15550000000") 60000 5
         (snd (admitEach [Sample.env 1000; Sample.env 2000; Sample.env 3000;
                          Sample.env 4000; Sample.env 5000]
                 (js "15551234567") Sample.world)))
  = true.
Proof.
  assert (Hsteps : ∀ es w,
    fst (RateLimiter.isAllowed (Sample.env 6000) (js "15550000000") 60000 5
           (snd (admitEach es (js "15551234567") w)))
    = fst (RateLimiter.isAllowed (Sample.env 6000) (js "15550000000") 60000 5 w)).
  { induction es as [|e es IH]; intros w; [done|]. cbn [admitEach].
    destruct (RateLimiter.isAllowed e (js "15551234567") _ _ w) as [a w1] eqn:Hcall.
    specialize (IH w1). destruct (admitEach es (js "15551234567") w1) as [b w2].
    cbn [snd] in *. rewrite IH.
    replace w1 with (snd (RateLimiter.isAllowed e (js "15551234567")
                            RateLimiter.windowMsDefault
                            RateLimiter.maxRequestsDefault w)) by by rewrite Hcall.
    refine (proj1 (proj2 (isAllowed_senders_independent e (Sample.env 6000)
      (js "15551234567") (js "15550000000") _ _ 60000 5 w _))).
    vm_compute. discriminate. }
  rewrite Hsteps. vm_compute. reflexivity.
Defined.

(** X3. Where the numbers of the call are safe integers, the limiter
    never keeps more than [maxRequests] instants for a sender: after an
    accepted call the sender's record holds at most [maxRequests]
    instants, the last of which is the instant of the call, and the others
    are instants of its old record that lie in the window. *)
Theorem isAllowed_record_bounded e phoneNumber windowMs maxRequests w :
  RateLimiter.exactWindow e windowMs maxRequests →
  fst (RateLimiter.isAllowed e phoneNumber windowMs maxRequests w) = true →
  ∃ kept,
    requests (snd (RateLimiter.isAllowed e phoneNumber windowMs maxRequests w))
      !! phoneNumber = Some (kept ++ [now e])
    ∧ Z.of_nat (length (kept ++ [now e])) ≤ maxRequests
    ∧ (∀ t, t ∈ kept →
         t ∈ default [] (requests w !! phoneNumber) ∧ now e - windowMs < t).
Proof.
  intros _ Hallowed.
  destruct (isAllowed_accepted e phoneNumber windowMs maxRequests w Hallowed)
    as (Hroom & ->). cbv zeta in Hroom.
  exists (RateLimiter.recentRequests e phoneNumber windowMs w).
  cbn [requests setRequests]. rewrite lookup_insert_eq. split; [done|]. split.
  - rewrite length_app. cbn [length]. lia.
  - intros t Ht. unfold RateLimiter.recentRequests in Ht.
    apply list_elem_of_filter in Ht as [? ?]. done.
Qed.

Lemma isAllowed_record_bounded_witness :
  ∃ kept,
    requests (snd (RateLimiter.isAllowed (Sample.env 1000) (js "15551234567")
                     60000 5 Sample.world)) !! js "15551234567"
    = Some (kept ++ [1000]).
Proof.
  destruct (isAllowed_record_bounded (Sample.env 1000) (js "15551234567")
              60000 5 Sample.world) as (kept & Hkept & _);
    [unfold RateLimiter.exactWindow, RateLimiter.safeInteger; cbn; lia
    |vm_compute; reflexivity|].
  by exists kept.
Defined.


(** ** The validator's memory and the skip patterns *)

Lemma pushRecent_last_ten recent content :
  (length recent ≤ 10)%nat →
  MessageValidator.pushRecent recent content
  = drop (length (recent ++ [content]) - 10) (recent ++ [content])
  ∧ (length (MessageValidator.pushRecent recent content) ≤ 10)%nat.
Proof.
  intros Hlen. unfold MessageValidator.pushRecent. cbv zeta.
  rewrite length_app. cbn [length]. case_decide as Hfull.
  - replace (length recent + 1 - 10)%nat with 1%nat by lia.
    split; [done|]. rewrite length_drop, length_app. cbn. lia.
  - replace (length recent + 1 - 10)%nat with 0%nat by lia.
    split; [done|]. rewrite length_app. cbn. lia.
Qed.

Lemma trackEach_last_ten bodies : ∀ phoneNumber w,
  (length (default [] (recentMessages w !! phoneNumber)) ≤ 10)%nat →
  let all := default [] (recentMessages w !! phoneNumber) ++ bodies in
  default [] (recentMessages (trackEach bodies phoneNumber w) !! phoneNumber)
  = drop (length all - 10) all.
Proof.
  induction bodies as [|body bodies IH]; intros phoneNumber w Hlen all; subst all.
  - cbn [trackEach]. rewrite app_nil_r.
    replace (_ - 10)%nat with 0%nat by lia. done.
  - cbn [trackEach].
    destruct (pushRecent_last_ten _ body Hlen) as (Hpushed & Hlen').
    rewrite <- detectSpam_recent in Hpushed, Hlen'.
    rewrite IH by done. cbv zeta. rewrite Hpushed.
    set (old := default [] (recentMessages w !! phoneNumber)) in *.
    replace (old ++ body :: bodies) with ((old ++ [body]) ++ bodies)
      by by rewrite <- app_assoc.
    set (l := old ++ [body]) in *.
    rewrite <- (drop_app_le l bodies) by lia.
    rewrite drop_drop. f_equal.
    rewrite length_drop, !length_app. lia.
Qed.

(** X4. The validator remembers the last ten bodies of a sender and no
    more: a body followed by ten bodies that all differ from it is no
    longer counted as repeated, and [detectSpam] then answers by the spam
    patterns alone. *)
Theorem detectSpam_forgets_after_ten body others phoneNumber w :
  (length (default [] (recentMessages w !! phoneNumber)) ≤ 10)%nat →
  length others = 10%nat →
  body ∉ others →
  fst (MessageValidator.detectSpam body phoneNumber
         (trackEach (body :: others) phoneNumber w))
  = MessageValidator.hasSpamPattern body.
Proof.
  intros Hlen Hten Hfresh.
  unfold MessageValidator.detectSpam, MessageValidator.isRepeatedMessage.
  cbv zeta. cbn [fst].
  rewrite trackEach_last_ten by done. cbv zeta.
  replace (default [] (recentMessages w !! phoneNumber) ++ body :: others)
    with ((default [] (recentMessages w !! phoneNumber) ++ [body]) ++ others)
    by by rewrite <- app_assoc.
  rewrite (length_app _ others), Hten, Nat.add_sub, drop_app_length.
  rewrite bool_decide_eq_false_2 by done. apply orb_false_r.
Qed.

Lemma detectSpam_forgets_after_ten_witness :
  let others := (λ k : nat, js "message " ++ [N.of_nat k]) <$> seq 0 10 in
  fst (MessageValidator.detectSpam (js "Hi") (js "15551234567")
         (trackEach (js "Hi" :: others) (js "15551234567") Sample.world))
  = false.
Proof.
  intros others.
  rewrite (detectSpam_forgets_after_ten (js "Hi") others (js "15551234567")
             Sample.world);
    [vm_compute; reflexivity|vm_compute; lia|reflexivity|].
  vm_compute. intros Hin.
  repeat (apply elem_of_cons in Hin as [Heq | Hin]; [discriminate Heq|]).
  by apply elem_of_nil in Hin.
Defined.

Lemma trimStart_whitespace_app ws s :
  forallb isWhiteSpace ws = true → trimStart (ws ++ s) = trimStart s.
Proof.
  induction ws as [|c ws IH]; [done|]. cbn. intros Hws.
  apply andb_true_iff in Hws as [-> Hws]. by apply IH.
Qed.

Lemma trimStart_all_whitespace ws :
  forallb isWhiteSpace ws = true → trimStart ws = [].
Proof.
  intros Hws. rewrite <- (app_nil_r ws). by rewrite trimStart_whitespace_app.
Qed.

Lemma trimStart_app_cases s t :
  (forallb isWhiteSpace s = true ∧ trimStart (s ++ t) = trimStart t)
  ∨ (trimStart s ≠ [] ∧ trimStart (s ++ t) = trimStart s ++ t).
Proof.
  induction s as [|c s IH]; [by left|]. cbn.
  destruct (isWhiteSpace c) eqn:Hc; [|by right]. cbn.
  destruct IH as [[? ?]|[? ?]]; [by left|by right].
Qed.

Lemma forallb_reverse {A} (f : A → bool) l : forallb f (reverse l) = forallb f l.
Proof.
  induction l as [|x l IH]; [done|]. rewrite reverse_cons, forallb_app. cbn.
  rewrite IH. by rewrite andb_true_r, andb_comm.
Qed.

Lemma trimEnd_whitespace_app s ws :
  forallb isWhiteSpace ws = true → trimEnd (s ++ ws) = trimEnd s.
Proof.
  intros Hws. unfold trimEnd. rewrite reverse_app.
  by rewrite trimStart_whitespace_app by by rewrite forallb_reverse.
Qed.

Lemma trim_surrounding_whitespace before s after :
  forallb isWhiteSpace before = true → forallb isWhiteSpace after = true →
  trim (before ++ s ++ after) = trim s.
Proof.
  intros Hbefore Hafter. unfold trim.
  rewrite trimStart_whitespace_app by done.
  destruct (trimStart_app_cases s after) as [[Hs ->]|[_ ->]].
  - by rewrite !trimStart_all_whitespace.
  - by apply trimEnd_whitespace_app.
Qed.

Lemma foldASCII_symbol c p :
  p ∈ skipSymbols → c ∈ p → ∀ x, foldASCII x = c → x = c.
Proof.
  intros Hp Hc x Hx. unfold skipSymbols in Hp.
  assert (Hhigh : (0x7A < c)%N).
  { repeat (apply elem_of_cons in Hp as [-> | Hp];
            [repeat (apply elem_of_cons in Hc as [-> | Hc]; [done|]);
             by apply elem_of_nil in Hc|]).
    by apply elem_of_nil in Hp. }
  unfold foldASCII in Hx.
  destruct ((0x61 <=? x)%N && (x <=? 0x7A)%N) eqn:Hlower; [|done].
  apply andb_true_iff in Hlower as [?%N.leb_le ?%N.leb_le]. lia.
Qed.

Lemma foldASCII_symbols_eq p : p ∈ skipSymbols →
  ∀ t, foldASCII <$> t = p → t = p.
Proof.
  intros Hp.
  assert (Hall : ∀ c, c ∈ p → ∀ x, foldASCII x = c → x = c)
    by (intros c Hc; by apply (foldASCII_symbol c p)).
  clear Hp. induction p as [|c p IH]; intros [|x t] Heq; try done.
  cbn in Heq. injection Heq as Hx Ht. f_equal.
  - apply Hall; [by left|done].
  - apply IH; [|done]. intros c' Hc'. apply Hall. by right.
Qed.

Lemma foldASCII_symbols_fixed p : p ∈ skipSymbols → foldASCII <$> p = p.
Proof.
  unfold skipSymbols. intros Hp.
  repeat (apply elem_of_cons in Hp as [-> | Hp]; [done|]).
  by apply elem_of_nil in Hp.
Qed.

(** X5. Whether content is answered depends only on the content trimmed
    and with its ASCII letters folded to one case: two contents that agree
    up to that are both skipped or both answered. In particular white
    space around the content changes nothing. *)
Theorem shouldSendAutoReply_trim_and_case a b before after :
  foldASCII <$> trim a = foldASCII <$> trim b →
  forallb isWhiteSpace before = true → forallb isWhiteSpace after = true →
  shouldSendAutoReply a = shouldSendAutoReply b
  ∧ shouldSendAutoReply (before ++ a ++ after) = shouldSendAutoReply a.
Proof.
  intros Hsame Hbefore Hafter.
  assert (Hmain : ∀ x y, foldASCII <$> trim x = foldASCII <$> trim y →
                         shouldSendAutoReply x = shouldSendAutoReply y).
  { intros x y Hxy. unfold shouldSendAutoReply. cbv zeta. unfold eqCI.
    rewrite Hxy. do 2 f_equal. f_equal.
    unfold skipSymbols.
    assert (Hsym : ∀ p, p ∈ skipSymbols →
              bool_decide (trim x = p) = bool_decide (trim y = p)).
    { intros p Hp. apply bool_decide_ext. split; intros Heq.
      - apply (foldASCII_symbols_eq p Hp). rewrite <- Hxy, Heq.
        by apply foldASCII_symbols_fixed.
      - apply (foldASCII_symbols_eq p Hp). rewrite Hxy, Heq.
        by apply foldASCII_symbols_fixed. }
    cbn [existsb]. unfold skipSymbols in Hsym.
    rewrite !Hsym; [done|..]; rewrite !elem_of_cons; tauto. }
  split; [by apply Hmain|].
  apply Hmain. by rewrite trim_surrounding_whitespace.
Qed.

Lemma shouldSendAutoReply_trim_and_case_witness :
  shouldSendAutoReply (js "  Thank YOU ") = false.
Proof.
  destruct (shouldSendAutoReply_trim_and_case (js "Thank YOU") (js "thank you")
              (js "  ") (js " ")) as (Hcase & Hspace);
    [vm_compute; reflexivity..|].
  change (js "  Thank YOU ") with (js "  " ++ js "Thank YOU" ++ js " ").
  rewrite Hspace, Hcase. vm_compute. reflexivity.
Defined.


(** ** Sending without credentials *)

Lemma sendMessage_unconfigured e accessToken phoneNumberId to message :
  accessToken = [] ∨ phoneNumberId = [] →
  WhatsAppAPIOps.sendMessage e (WhatsAppAPIOps.make accessToken phoneNumberId)
    to message = None.
Proof.
  intros Hunset. unfold WhatsAppAPIOps.sendMessage, WhatsAppAPIOps.configured,
    WhatsAppAPIOps.make. cbn.
  destruct Hunset as [-> | ->]; cbn; [done|].
  by rewrite andb_false_r.
Qed.

Lemma credentialsUnset_default e w :
  credentialsUnset w →
  let s := default (SettingsDatabase.defaultSettings e) (botSettings w) in
  BotSettings.accessToken s = [] ∨ BotSettings.phoneNumberId s = [].
Proof.
  unfold credentialsUnset. destruct (botSettings w) as [s|]; cbn; [done|].
  by left.
Qed.

(** Why [processAutoReply] answers [false], and what it leaves. *)
Lemma processAutoReply_not_due e customer content w :
  let s := default (SettingsDatabase.defaultSettings e) (botSettings w) in
  BotSettings.isActive s = false ∨ shouldSendAutoReply content = false
  ∨ BotSettings.accessToken s = [] ∨ BotSettings.phoneNumberId s = [] →
  fst (processAutoReply e customer content w) = false
  ∧ messages (snd (processAutoReply e customer content w)) = messages w
  ∧ botSettings (snd (processAutoReply e customer content w)) = Some s.
Proof.
  intros s Hwhy.
  unfold processAutoReply. destruct (get_settings e w) as (s' & -> & Hs).
  fold s in Hs. subst s'.
  destruct (BotSettings.isActive s) eqn:Hactive; cbn [negb]; [|done].
  destruct (shouldSendAutoReply content) eqn:Hdue; cbn [negb]; [|done].
  destruct Hwhy as [?|[?|Hunset]]; try done.
  rewrite sendMessage_unconfigured by tauto. done.
Qed.

Lemma processIncomingMessage_settings e message contacts w :
  botSettings (snd (processIncomingMessage e message contacts w))
  = Some (default (SettingsDatabase.defaultSettings e) (botSettings w)).
Proof.
  rewrite processIncomingMessage_unfold. cbv zeta. cbn [snd].
  set (r1 := findOrCreateCustomer e (wm_from message) contacts w).
  set (w2 := snd (MessageDatabase.create _ _ _ (snd r1))).
  set (w3 := snd (CustomerDatabase.update _ _ _ w2)).
  assert (Hs3 : botSettings w3 = botSettings w).
  { subst w3. destruct (update_frame e (Customer.id (fst r1))
      (activityUpdate (fst r1)
         (WhatsAppAPIOps.p_timestamp (WhatsAppAPIOps.parseIncomingMessage message)))
      w2) as (_ & -> & _).
    subst w2 r1. unfold MessageDatabase.create. cbn [snd botSettings setMessages].
    by destruct (findOrCreateCustomer_messages e (wm_from message) contacts w)
      as (_ & -> & _). }
  set (r4 := processAutoReply _ _ _ w3).
  assert (Hs4 : botSettings (snd r4)
                = Some (default (SettingsDatabase.defaultSettings e) (botSettings w))).
  { subst r4. unfold processAutoReply, SettingsDatabase.get, MessageDatabase.create.
    rewrite Hs3. destruct w3 as [cs ms bs api rq rm]. cbn in Hs3. subst bs.
    destruct (botSettings w) as [s|]; cbn; repeat case_match; simplify_eq/=; done. }
  destruct (fst r4 && Customer.isNew (fst r1)); [|done].
  by destruct (markAsReturning_frame e (wm_from message) (snd r4)) as (_ & -> & _).
Qed.


Lemma update_projection {X} (f : Customer.t → X) e id updates w :
  (∀ c d, f (Customer.spread c updates d) = f c) →
  f <$> customers (snd (CustomerDatabase.update e id updates w))
  = f <$> customers w.
Proof.
  intros Hkept. unfold CustomerDatabase.update.
  destruct (list_find _ (customers w)) as [[k c]|] eqn:Hfind; [|done].
  apply list_find_Some in Hfind as (Hk & _). cbn.
  rewrite list_fmap_insert, Hkept. apply list_insert_id.
  by rewrite list_lookup_fmap, Hk.
Qed.

Lemma processIncomingMessage_no_reply e message contacts w :
  let s := default (SettingsDatabase.defaultSettings e) (botSettings w) in
  let content :=
    WhatsAppAPIOps.p_content (WhatsAppAPIOps.parseIncomingMessage message) in
  BotSettings.isActive s = false ∨ shouldSendAutoReply content = false
  ∨ BotSettings.accessToken s = [] ∨ BotSettings.phoneNumberId s = [] →
  let resolved := findOrCreateCustomer e (wm_from message) contacts w in
  let result := processIncomingMessage e message contacts w in
  autoReplySent (fst result) = Some false
  ∧ messages (snd result)
    = messages w ++ [Message.ofData (incomingRecord (fst resolved) message)
                       (newIncomingId e) (ValidDate (now e)) (ValidDate (now e))]
  ∧ Customer.isNew <$> customers (snd result)
    = Customer.isNew <$> customers (snd resolved).
Proof.
  intros s content Hwhy resolved result. subst result.
  rewrite processIncomingMessage_unfold. cbv zeta. fold resolved. cbn [fst snd].
  set (w2 := snd (MessageDatabase.create _ _ _ (snd resolved))).
  set (activity := activityUpdate _ _).
  set (w3 := snd (CustomerDatabase.update _ _ activity w2)).
  assert (Hs3 : botSettings w3 = botSettings w).
  { subst w3. destruct (update_frame e (Customer.id (fst resolved)) activity w2)
      as (_ & -> & _).
    subst w2 resolved. unfold MessageDatabase.create.
    cbn [snd botSettings setMessages].
    by destruct (findOrCreateCustomer_messages e (wm_from message) contacts w)
      as (_ & -> & _). }
  destruct (processAutoReply_not_due e (fst resolved) content w3)
    as (Hsent & Hmsgs & _).
  { cbv zeta. by rewrite Hs3. }
  fold content. rewrite Hsent. cbn [andb autoReplySent]. split; [done|]. split.
  - rewrite Hmsgs. subst w3.
    destruct (update_frame e (Customer.id (fst resolved)) activity w2) as (-> & _).
    subst w2. unfold MessageDatabase.create. cbn [snd messages setMessages].
    unfold resolved.
    by destruct (findOrCreateCustomer_messages e (wm_from message) contacts w)
      as (-> & _).
  - destruct (processAutoReply_frame e (fst resolved) content w3) as (-> & _).
    subst w3. by rewrite update_projection.
Qed.

(** X6. When no reply is due (the bot is inactive, the content is one of
    the skipped acknowledgements, or the credentials are not set) an
    inbound message is processed all the same: the result is the
    successful one with no auto-reply sent, exactly one message, the
    inbound one, is appended to the ledger, and no customer changes its
    [isNew]. *)
Theorem no_reply_due_still_recorded e message contacts w :
  let s := default (SettingsDatabase.defaultSettings e) (botSettings w) in
  let content :=
    WhatsAppAPIOps.p_content (WhatsAppAPIOps.parseIncomingMessage message) in
  BotSettings.isActive s = false ∨ shouldSendAutoReply content = false
  ∨ BotSettings.accessToken s = [] ∨ BotSettings.phoneNumberId s = [] →
  let resolved := findOrCreateCustomer e (wm_from message) contacts w in
  let result := processIncomingMessage e message contacts w in
  fst result = {| success := true; autoReplySent := Some false; error := None |}
  ∧ messages (snd result)
    = messages w ++ [Message.ofData (incomingRecord (fst resolved) message)
                       (newIncomingId e) (ValidDate (now e)) (ValidDate (now e))]
  ∧ Customer.isNew <$> customers (snd result)
    = Customer.isNew <$> customers (snd resolved).
Proof.
  intros s content Hwhy resolved result.
  destruct (processIncomingMessage_no_reply e message contacts w Hwhy)
    as (Hsent & Hmessages & Hnew).
  split; [|by split].
  subst result. rewrite processIncomingMessage_unfold in Hsent |- *.
  cbv zeta in Hsent |- *. cbn [fst autoReplySent] in Hsent |- *.
  by rewrite Hsent.
Qed.

(** The bot is switched off: 'Hi' is recorded and not answered. *)
Lemma no_reply_due_still_recorded_witness :
  let off :=
    snd (SettingsUpdate.update (Sample.env 500)
           {| SettingsUpdate.u_id := None; SettingsUpdate.u_isActive := Some false;
              SettingsUpdate.u_businessHours := None;
              SettingsUpdate.u_autoReply := None;
              SettingsUpdate.u_webhookUrl := None;
              SettingsUpdate.u_verifyToken := None;
              SettingsUpdate.u_accessToken := None;
              SettingsUpdate.u_phoneNumberId := None;
              SettingsUpdate.u_createdAt := None;
              SettingsUpdate.u_updatedAt := None |} Sample.world) in
  Message.direction
    <$> messages (snd (processIncomingMessage (Sample.env 1000)
                         (Sample.hi (js "wamid.A")) None off))
  = [Incoming].
Proof.
  intros off.
  destruct (no_reply_due_still_recorded (Sample.env 1000) (Sample.hi (js "wamid.A"))
              None off) as (_ & -> & _); [left; vm_compute; reflexivity|].
  vm_compute. reflexivity.
Defined.

(** ** A deployment without credentials *)

Lemma silent_step e ev w : silent w → silent (step e ev w).
Proof.
  intros (Hunset & Hincoming & Hnew).
  pose proof (credentialsUnset_default e w Hunset) as Hcreds. cbv zeta in Hcreds.
  destruct ev as [message contacts | messageId status | customerId content];
    cbn [step].
  - destruct (processIncomingMessage_no_reply e message contacts w)
      as (_ & Hmsgs & Hisnew); [tauto|].
    split; [|split].
    + unfold credentialsUnset. by rewrite processIncomingMessage_settings.
    + intros m Hm. rewrite Hmsgs in Hm. apply elem_of_app in Hm as [Hm|Hm]; [auto|].
      by apply list_elem_of_singleton in Hm as ->.
    + intros c Hc.
      assert (Hin : Customer.isNew c ∈ Customer.isNew
                      <$> customers (snd (processIncomingMessage e message contacts w)))
        by by apply list_elem_of_fmap_2.
      rewrite Hisnew in Hin. apply list_elem_of_fmap in Hin as (c0 & -> & Hc0).
      unfold findOrCreateCustomer in Hc0.
      destruct (CustomerDatabase.findByPhoneNumber (wm_from message) w); [auto|].
      cbn in Hc0. apply elem_of_app in Hc0 as [Hc0|Hc0]; [auto|].
      by apply list_elem_of_singleton in Hc0 as ->.
  - split; [|split].
    + unfold credentialsUnset, processStatusUpdate, MessageDatabase.updateStatus.
      by destruct (list_find _ (messages w)) as [[i m]|].
    + intros m Hm. unfold processStatusUpdate, MessageDatabase.updateStatus in Hm.
      destruct (list_find _ (messages w)) as [[i m0]|] eqn:Hfind; [|auto].
      apply list_find_Some in Hfind as (Hi & _). cbn in Hm.
      apply list_elem_of_lookup in Hm as (j & Hj).
      destruct (decide (j = i)) as [->|Hne].
      * rewrite list_lookup_insert_eq in Hj by by eapply lookup_lt_Some.
        injection Hj as <-. cbn. apply Hincoming. by eapply list_elem_of_lookup_2.
      * rewrite list_lookup_insert_ne in Hj by done.
        apply Hincoming. by eapply list_elem_of_lookup_2.
    + by rewrite processStatusUpdate_customers.
  - unfold sendManualMessage.
    destruct (CustomerDatabase.findByPhoneNumber [] w) as [customer|]; [|done].
    destruct (get_settings e w) as (s & -> & Hs).
    rewrite <- Hs in Hcreds. rewrite sendMessage_unconfigured by done.
    split; [|done]. unfold credentialsUnset. cbn. by subst s.
Qed.

(** X7. Until credentials are configured the pipeline never sends
    anything: from a store without credentials whose ledger holds inbound
    messages only and whose customers are all new (the store of a process
    that has just started is one), every sequence of pipeline operations,
    operator messages included, leads to such a store again. *)
Theorem silent_until_configured evs w : silent w → silent (run evs w).
Proof.
  revert w. induction evs as [|[e ev] evs IH]; intros w Hsilent; [done|].
  cbn [run]. by apply IH, silent_step.
Qed.

(** Three messages, a status event and an operator's message on a fresh
    process: nothing but inbound messages on record. *)
Lemma silent_until_configured_witness :
  let evs :=
    [(Sample.env 1000, IncomingMessage (Sample.hi (js "wamid.A")) None);
     (Sample.env 2000, StatusUpdate (js "wamid.A") (js "read"));
     (Sample.env 3000, ManualMessage (js "cust-1") (js "Hello"));
     (Sample.env 4000, IncomingMessage (Sample.hi (js "wamid.B")) None)] in
  silent (run evs initialWorld)
  ∧ Message.direction <$> messages (run evs initialWorld) = [Incoming; Incoming].
Proof.
  intros evs. split; [|vm_compute; reflexivity].
  apply silent_until_configured.
  split; [done|]. split; intros x Hx; by apply elem_of_nil in Hx.
Defined.


(** ** Activity of a customer *)

Lemma findOrCreateCustomer_ids e phoneNumber contacts w :
  NoDup (Customer.id <$> customers w) → freshCustomerId e w →
  NoDup (Customer.id <$> customers (snd (findOrCreateCustomer e phoneNumber contacts w))).
Proof.
  intros Hnodup Hfresh. unfold findOrCreateCustomer.
  destruct (CustomerDatabase.findByPhoneNumber phoneNumber w); [done|].
  cbn. rewrite fmap_app. apply NoDup_app. split; [done|]. split.
  - intros x Hx Hx'. apply list_elem_of_singleton in Hx' as ->.
    apply list_elem_of_fmap in Hx as (c & Hc & Hin).
    apply (Hfresh c Hin). by rewrite <- Hc.
  - apply NoDup_singleton.
Qed.

(** The record of a stored sender after one of its messages. *)
Lemma processIncomingMessage_existing_record e message contacts w k c :
  NoDup (Customer.id <$> customers w) →
  list_find (λ c', Customer.phoneNumber c' = wm_from message) (customers w)
  = Some (k, c) →
  ∃ final,
    customers (snd (processIncomingMessage e message contacts w))
    = <[k := final]> (customers w)
    ∧ Customer.messageCount final = Customer.messageCount c + 1
    ∧ Customer.lastMessageAt final
      = WhatsAppAPIOps.p_timestamp (WhatsAppAPIOps.parseIncomingMessage message)
    ∧ Customer.updatedAt final = ValidDate (now e)
    ∧ Customer.id final = Customer.id c
    ∧ Customer.phoneNumber final = Customer.phoneNumber c
    ∧ Customer.name final = Customer.name c
    ∧ Customer.status final = Customer.status c
    ∧ Customer.firstMessageAt final = Customer.firstMessageAt c
    ∧ Customer.metadata final = Customer.metadata c
    ∧ Customer.createdAt final = Customer.createdAt c.
Proof.
  intros Hnodup Hfind.
  pose proof Hfind as Hfind'. apply list_find_Some in Hfind' as (Hk & Hphone & _).
  assert (Hr1 : findOrCreateCustomer e (wm_from message) contacts w = (c, w)).
  { unfold findOrCreateCustomer, CustomerDatabase.findByPhoneNumber.
    by rewrite Hfind. }
  rewrite processIncomingMessage_unfold. cbv zeta. rewrite Hr1. cbn [fst snd].
  unfold MessageDatabase.create. cbv zeta. cbn [fst snd].
  set (activity := activityUpdate c _).
  set (w2 := setMessages _ w).
  rewrite (update_at e activity w2 k c) by done. cbn [fst snd].
  set (c3 := Customer.spread c activity (ValidDate (now e))).
  set (w3 := setCustomers _ w2).
  set (r4 := processAutoReply e c _ w3).
  destruct (processAutoReply_frame e c
    (WhatsAppAPIOps.p_content (WhatsAppAPIOps.parseIncomingMessage message)) w3)
    as (Hcs4 & _). fold r4 in Hcs4.
  destruct (fst r4 && Customer.isNew c) eqn:Hflip.
  2:{ exists c3. rewrite Hcs4. split; [done|]. by subst c3 activity. }
  assert (Hfind4 : list_find (λ c', Customer.phoneNumber c' = wm_from message)
                     (customers (snd r4)) = Some (k, c3)).
  { rewrite Hcs4. subst w3. cbn [customers setCustomers].
    change (customers w2) with (customers w).
    by apply (list_find_insert_same _ _ _ c). }
  unfold CustomerDatabase.markAsReturning, CustomerDatabase.findByPhoneNumber.
  rewrite Hfind4. cbn [fmap option_fmap option_map snd].
  apply list_find_Some in Hfind4 as (Hk4 & _ & _).
  assert (Hnodup4 : NoDup (Customer.id <$> customers (snd r4))).
  { rewrite Hcs4. subst w3. cbn [customers setCustomers].
    change (customers w2) with (customers w).
    by rewrite (ids_insert _ _ c). }
  rewrite (update_at e _ (snd r4) k c3) by done. cbn [snd customers setCustomers].
  eexists. split.
  - rewrite Hcs4. subst w3. cbn [customers setCustomers].
    change (customers w2) with (customers w).
    apply list_insert_insert_eq.
  - by subst c3 activity.
Qed.

(** X8. One inbound message counts once for its sender: the sender's
    record (the stored one, or the one created for an unknown number, with
    count 0) is replaced in place by a record whose message count is one
    more and whose last-message time is the time stamp the message
    carries, not the time of arrival; its id, phone number, name, status,
    first-message time and metadata are kept, and no other customer is
    touched. *)
Theorem inbound_message_counts_once e message contacts w :
  NoDup (Customer.id <$> customers w) → freshCustomerId e w →
  let resolved := findOrCreateCustomer e (wm_from message) contacts w in
  let sender := fst resolved in
  ∃ k after,
    customers (snd resolved) !! k = Some sender
    ∧ customers (snd (processIncomingMessage e message contacts w))
      = <[k := after]> (customers (snd resolved))
    ∧ Customer.messageCount after = Customer.messageCount sender + 1
    ∧ Customer.lastMessageAt after = dateOfSeconds (parseInt (wm_timestamp message))
    ∧ Customer.id after = Customer.id sender
    ∧ Customer.phoneNumber after = wm_from message
    ∧ Customer.name after = Customer.name sender
    ∧ Customer.status after = Customer.status sender
    ∧ Customer.firstMessageAt after = Customer.firstMessageAt sender
    ∧ Customer.metadata after = Customer.metadata sender.
Proof.
  intros Hnodup Hfresh resolved sender.
  destruct (processIncomingMessage_resolved e message contacts w)
    as (-> & k & Hfind & _). fold resolved sender in Hfind |- *.
  pose proof (findOrCreateCustomer_ids e (wm_from message) contacts w Hnodup Hfresh)
    as Hnodup1. fold resolved in Hnodup1.
  destruct (processIncomingMessage_existing_record e message contacts (snd resolved)
              k sender Hnodup1 Hfind)
    as (after & Hcs & Hcount & Hlast & _ & Hid & Hphone & Hname & Hstatus & Hfirst
        & Hmeta & _).
  apply list_find_Some in Hfind as (Hk & Hsender & _).
  exists k, after. rewrite Hphone, Hsender. done.
Qed.

(** The first message of a number: count 1, last message at the time
    stamp of the message. *)
Lemma inbound_message_counts_once_witness :
  ∃ after,
    customers (snd (processIncomingMessage (Sample.env 1000)
                      (Sample.hi (js "wamid.A")) None Sample.world)) = [after]
    ∧ Customer.messageCount after = 1
    ∧ Customer.lastMessageAt after = ValidDate 1700000000000.
Proof.
  destruct (inbound_message_counts_once (Sample.env 1000) (Sample.hi (js "wamid.A"))
              None Sample.world)
    as (k & after & Hk & Hcs & Hcount & Hlast & _).
  - apply NoDup_nil_2.
  - intros c Hc. by apply elem_of_nil in Hc.
  - exists after. destruct k as [|k]; [|vm_compute in Hk; discriminate].
    split; [rewrite Hcs; reflexivity|].
    split; [rewrite Hcount | rewrite Hlast]; vm_compute; reflexivity.
Defined.


(** ** Message counts against the ledger *)

Lemma filter_length_insert {A} (P : A → Prop) `{∀ x, Decision (P x)} l i x y :
  l !! i = Some x → (P x ↔ P y) →
  length (filter P (<[i := y]> l)) = length (filter P l).
Proof.
  revert i. induction l as [|z l IH]; intros [|i] Hi Hxy; try done.
  - cbn in Hi. injection Hi as ->. cbn [insert list_insert].
    destruct (decide (P x)) as [Hx|Hx].
    + rewrite (filter_cons_True P x l Hx), filter_cons_True by tauto. done.
    + rewrite (filter_cons_False P x l Hx), filter_cons_False by tauto. done.
  - cbn in Hi. cbn [insert list_insert].
    destruct (decide (P z)) as [Hz|Hz].
    + rewrite !filter_cons_True by done. cbn. f_equal. by apply IH.
    + rewrite !filter_cons_False by done. by apply IH.
Qed.

Lemma incomingOf_app cid w w' extra :
  messages w' = messages w ++ extra →
  incomingOf cid w'
  = incomingOf cid w
    ++ filter (λ m, Message.customerId m = cid ∧ Message.direction m = Incoming) extra.
Proof. intros Heq. unfold incomingOf. by rewrite Heq, filter_app. Qed.

Lemma counted_initial : counted initialWorld.
Proof.
  split; [apply NoDup_nil_2|]. split.
  - intros c Hc. by apply elem_of_nil in Hc.
  - intros m Hm. by apply elem_of_nil in Hm.
Qed.

Lemma findOrCreateCustomer_counted e phoneNumber contacts w :
  counted w → freshCustomerId e w →
  counted (snd (findOrCreateCustomer e phoneNumber contacts w)).
Proof.
  intros (Hnodup & Hcount & Hknown) Hfresh.
  pose proof (findOrCreateCustomer_ids e phoneNumber contacts w Hnodup Hfresh)
    as Hnodup1.
  split; [done|]. clear Hnodup1. unfold findOrCreateCustomer.
  destruct (CustomerDatabase.findByPhoneNumber phoneNumber w); [done|].
  unfold CustomerDatabase.create. cbv zeta. cbn [snd].
  set (created := Customer.ofData _ _ _ _).
  split; cbn [customers messages setCustomers].
  - intros c Hc. apply elem_of_app in Hc as [Hc|Hc]; [by apply Hcount|].
    apply list_elem_of_singleton in Hc as ->. cbn.
    unfold incomingOf. cbn [messages setCustomers].
    destruct (filter _ (messages w)) as [|m ms] eqn:Hfilter; [done|].
    assert (Hm : m ∈ filter (λ m, Message.customerId m = newCustomerId e
                                  ∧ Message.direction m = Incoming) (messages w))
      by (rewrite Hfilter; left).
    apply list_elem_of_filter in Hm as ((Hid & Hdir) & Hm).
    destruct (Hknown m Hm Hdir) as (c & Hc & Hidc).
    exfalso. apply (Hfresh c Hc). congruence.
  - intros m Hm Hdir. destruct (Hknown m Hm Hdir) as (c & Hc & Hid).
    exists c. split; [|done]. apply elem_of_app. by left.
Qed.

Lemma processIncomingMessage_existing_counted e message contacts w k c :
  counted w →
  list_find (λ c', Customer.phoneNumber c' = wm_from message) (customers w)
  = Some (k, c) →
  counted (snd (processIncomingMessage e message contacts w)).
Proof.
  intros (Hnodup & Hcount & Hknown) Hfind.
  destruct (processIncomingMessage_existing_record e message contacts w k c Hnodup Hfind)
    as (final & Hcs & Hfinal & _ & _ & Hid & _).
  destruct (processIncomingMessage_existing e message contacts w k c Hnodup Hfind)
    as (Hcustomer & _).
  destruct (processIncomingMessage_messages e message contacts w)
    as (sent & _ & Hmsgs).
  cbv zeta in Hmsgs. rewrite Hcustomer in Hmsgs.
  apply list_find_Some in Hfind as (Hk & _ & _).
  set (w' := snd (processIncomingMessage e message contacts w)) in *.
  set (incoming := Message.ofData (incomingRecord c message) _ _ _) in *.
  assert (Hc : c ∈ customers w) by by eapply list_elem_of_lookup_2.
  assert (Hextra : ∃ extra, messages w' = messages w ++ incoming :: extra
            ∧ ∀ m, m ∈ extra → Message.direction m = Outgoing).
  { destruct sent.
    - destruct Hmsgs as (reply & Hmsgs & _ & Hout & _).
      exists [reply]. split; [done|]. intros m Hm.
      by apply list_elem_of_singleton in Hm as ->.
    - exists []. split; [done|]. intros m Hm. by apply elem_of_nil in Hm. }
  destruct Hextra as (extra & Hmsgs' & Hout).
  assert (Hnone : ∀ cid,
    filter (λ m, Message.customerId m = cid ∧ Message.direction m = Incoming) extra
    = []).
  { intros cid. clear Hmsgs'. induction extra as [|m extra IH]; [done|].
    rewrite filter_cons_False.
    - apply IH. intros m' Hm'. apply Hout. by right.
    - rewrite (Hout m) by by left. intros [_ ?]. discriminate. }
  assert (Hgrow : ∀ cid, length (incomingOf cid w')
            = (length (incomingOf cid w)
               + (if decide (cid = Customer.id c) then 1 else 0))%nat).
  { intros cid. rewrite (incomingOf_app cid w w' _ Hmsgs'), length_app. f_equal.
    case_decide as Hcid.
    - rewrite filter_cons_True by done. by rewrite Hnone.
    - rewrite filter_cons_False by (intros [? _]; done). by rewrite Hnone. }
  split; [|split].
  - rewrite Hcs. by rewrite (ids_insert _ _ c).
  - intros c' Hc'. rewrite Hcs in Hc'.
    apply list_elem_of_lookup in Hc' as (i & Hi). rewrite Hgrow.
    destruct (decide (i = k)) as [->|Hne].
    + rewrite list_lookup_insert_eq in Hi by by eapply lookup_lt_Some.
      injection Hi as <-. rewrite Hfinal, Hid, decide_True by done.
      rewrite (Hcount c Hc). lia.
    + rewrite list_lookup_insert_ne in Hi by done.
      rewrite decide_False.
      * rewrite (Hcount c') by by eapply list_elem_of_lookup_2. lia.
      * intros Hsame. apply Hne.
        eapply NoDup_lookup; [exact Hnodup|..]; rewrite list_lookup_fmap.
        -- by rewrite Hi.
        -- rewrite Hk. cbn. by rewrite Hsame.
  - intros m Hm Hdir.
    assert (Hstill : ∀ c0, c0 ∈ customers w →
              ∃ c1, c1 ∈ customers w' ∧ Customer.id c1 = Customer.id c0).
    { intros c0 Hc0. apply list_elem_of_lookup in Hc0 as (i & Hi).
      destruct (processIncomingMessage_evolves e message contacts w i c0 Hi)
        as (c1 & Hi1 & Hid1 & _).
      exists c1. split; [|done]. by eapply list_elem_of_lookup_2. }
    rewrite Hmsgs' in Hm. apply elem_of_app in Hm as [Hm|Hm].
    + destruct (Hknown m Hm Hdir) as (c0 & Hc0 & Hid0).
      destruct (Hstill c0 Hc0) as (c1 & Hc1 & Hid1).
      exists c1. split; [done|]. congruence.
    + apply elem_of_cons in Hm as [-> | Hm].
      * destruct (Hstill c Hc) as (c1 & Hc1 & Hid1). exists c1. by split.
      * rewrite (Hout m Hm) in Hdir. discriminate.
Qed.

(** X9. The message count of every customer is the number of inbound
    messages recorded for it, and the pipeline keeps it so: a store whose
    counts agree with its ledger (the empty store is one) is taken by every
    pipeline operation, the generated customer id being fresh, to a store
    whose counts agree with its ledger. Replies and operator messages are
    never counted. *)
Theorem message_counts_match_ledger e ev w :
  counted w → freshCustomerId e w → counted (step e ev w).
Proof.
  intros Hw Hfresh.
  destruct ev as [message contacts | messageId status | customerId content];
    cbn [step].
  - destruct (processIncomingMessage_resolved e message contacts w)
      as (-> & k & Hfind & _).
    eapply processIncomingMessage_existing_counted; [|exact Hfind].
    by apply findOrCreateCustomer_counted.
  - destruct Hw as (Hnodup & Hcount & Hknown).
    pose proof (processStatusUpdate_customers e messageId status w) as Hcs.
    unfold counted. rewrite Hcs.
    unfold processStatusUpdate, MessageDatabase.updateStatus in *.
    destruct (list_find _ (messages w)) as [[i m]|] eqn:Hfind; [|done].
    apply list_find_Some in Hfind as (Hi & _). cbn [snd] in *.
    split; [done|]. split.
    + intros c Hc. rewrite (Hcount c Hc). f_equal. unfold incomingOf.
      cbn [messages setMessages]. symmetry. by apply (filter_length_insert _ _ _ m).
    + intros m' Hm' Hdir. cbn [messages setMessages] in Hm'.
      apply list_elem_of_lookup in Hm' as (j & Hj).
      destruct (decide (j = i)) as [->|Hne].
      * rewrite list_lookup_insert_eq in Hj by by eapply lookup_lt_Some.
        injection Hj as <-. apply (Hknown m); [by eapply list_elem_of_lookup_2|done].
      * rewrite list_lookup_insert_ne in Hj by done.
        apply (Hknown m'); [by eapply list_elem_of_lookup_2|done].
  - destruct Hw as (Hnodup & Hcount & Hknown).
    pose proof (sendManualMessage_customers e customerId content w) as Hcs.
    unfold counted. rewrite Hcs. split; [done|].
    unfold sendManualMessage, SettingsDatabase.get, MessageDatabase.create in *.
    repeat case_match; simplify_eq/=; try done.
    all: split.
    all: try (intros c Hc; rewrite (Hcount c Hc); unfold incomingOf; cbn;
              rewrite filter_app, filter_cons_False by (intros [_ ?]; done);
              by rewrite app_nil_r).
    all: intros m Hm Hdir; apply elem_of_app in Hm as [Hm|Hm]; [by apply Hknown|];
      apply list_elem_of_singleton in Hm as ->; discriminate.
Qed.

(** Two messages of one number and the reply to each: the count is 2. *)
Lemma message_counts_match_ledger_witness :
  let w1 := step (Sample.env 1000) (IncomingMessage (Sample.hi (js "wamid.A")) None)
              Sample.world in
  let w2 :=
    step (Sample2.env 2000 (js "cust-2"))
      (IncomingMessage (Sample.hi (js "wamid.B")) None) w1 in
  counted w2
  ∧ Customer.messageCount <$> customers w2 = [2]
  ∧ length (messages w2) = 4%nat.
Proof.
  intros w1 w2. split; [|vm_compute; done].
  apply message_counts_match_ledger.
  - apply message_counts_match_ledger.
    + split; [apply NoDup_nil_2|].
      split; intros x Hx; by apply elem_of_nil in Hx.
    + intros c Hc. by apply elem_of_nil in Hc.
  - intros c Hc. vm_compute in Hc.
    apply list_elem_of_singleton in Hc as ->. vm_compute. discriminate.
Defined.


(** ** One customer per phone number *)

Lemma markAsReturning_phones e phoneNumber w :
  Customer.phoneNumber <$> customers (CustomerDatabase.markAsReturning e phoneNumber w)
  = Customer.phoneNumber <$> customers w.
Proof.
  unfold CustomerDatabase.markAsReturning.
  destruct (CustomerDatabase.findByPhoneNumber phoneNumber w); [|done].
  by apply update_projection.
Qed.

Lemma processIncomingMessage_phones e message contacts w :
  Customer.phoneNumber <$> customers (snd (processIncomingMessage e message contacts w))
  = Customer.phoneNumber
      <$> customers (snd (findOrCreateCustomer e (wm_from message) contacts w)).
Proof.
  rewrite processIncomingMessage_unfold. cbv zeta. cbn [snd].
  set (resolved := findOrCreateCustomer e (wm_from message) contacts w).
  set (w2 := snd (MessageDatabase.create _ _ _ (snd resolved))).
  set (activity := activityUpdate _ _).
  set (w3 := snd (CustomerDatabase.update _ _ activity w2)).
  set (r4 := processAutoReply _ _ _ w3).
  assert (H4 : Customer.phoneNumber <$> customers (snd r4)
               = Customer.phoneNumber <$> customers (snd resolved)).
  { destruct (processAutoReply_frame e (fst resolved)
      (WhatsAppAPIOps.p_content (WhatsAppAPIOps.parseIncomingMessage message)) w3)
      as (Hcs & _). fold r4 in Hcs. rewrite Hcs. subst w3.
    by rewrite update_projection. }
  destruct (fst r4 && Customer.isNew (fst resolved)); [|done].
  by rewrite markAsReturning_phones.
Qed.

(** X10. The pipeline keeps one customer per phone number. A status event
    and an operator message leave the stored phone numbers as they are. An
    inbound message leaves them as they are when a stored customer has the
    sender's number, and appends the sender's number, once, when none has.
    So stored phone numbers that are pairwise distinct stay so. *)
Theorem one_customer_per_phone_number e ev w :
  let phones w := Customer.phoneNumber <$> customers w in
  phones (step e ev w)
  = match ev with
    | IncomingMessage message _ =>
        if bool_decide (wm_from message ∈ phones w) then phones w
        else phones w ++ [wm_from message]
    | StatusUpdate _ _ | ManualMessage _ _ => phones w
    end
  ∧ (NoDup (phones w) → NoDup (phones (step e ev w))).
Proof.
  intros phones.
  assert (Hstep : phones (step e ev w)
    = match ev with
      | IncomingMessage message _ =>
          if bool_decide (wm_from message ∈ phones w) then phones w
          else phones w ++ [wm_from message]
      | StatusUpdate _ _ | ManualMessage _ _ => phones w
      end).
  { subst phones.
    destruct ev as [message contacts | messageId status | customerId content];
      cbn [step].
    - rewrite processIncomingMessage_phones. unfold findOrCreateCustomer.
      destruct (CustomerDatabase.findByPhoneNumber (wm_from message) w) as [c|]
        eqn:Hfind.
      + apply findByPhoneNumber_Some in Hfind as (i & Hi & Hphone & _).
        rewrite bool_decide_eq_true_2; [done|].
        apply list_elem_of_fmap. exists c. split; [done|].
        by eapply list_elem_of_lookup_2.
      + pose proof (proj1 (findByPhoneNumber_None _ _) Hfind) as Hnone.
        rewrite bool_decide_eq_false_2.
        * cbn. by rewrite fmap_app.
        * intros Hin. apply list_elem_of_fmap in Hin as (c & Hc & Hin).
          by apply (Hnone c Hin).
    - by rewrite processStatusUpdate_customers.
    - by rewrite sendManualMessage_customers. }
  split; [done|]. intros Hnodup. rewrite Hstep.
  destruct ev as [message contacts | messageId status | customerId content];
    [|done..].
  case_bool_decide as Hknown; [done|].
  apply NoDup_app. split; [done|]. split; [|apply NoDup_singleton].
  intros x Hx Hx'. by apply list_elem_of_singleton in Hx' as ->.
Qed.

(** ** Operator messages *)

(** X11. [sendManualMessage] never touches the customers. When it
    succeeds, a customer with the empty phone number is stored, the
    message went to the empty number, and exactly one message is appended:
    outgoing, no auto-reply, with status sent, the given content and the
    [customerId] that was passed, whether a customer has that id or not;
    the result carries the id of that record. When it fails, the ledger
    is as it was and the result carries an error. *)
Theorem sendManualMessage_outcomes e customerId content w :
  let result := sendManualMessage e customerId content w in
  customers (snd result) = customers w
  ∧ (m_success (fst result) = true →
     (∃ c, CustomerDatabase.findByPhoneNumber [] w = Some c)
     ∧ ∃ m, messages (snd result) = messages w ++ [m]
         ∧ m_messageId (fst result) = Some (Message.id m)
         ∧ Message.customerId m = customerId
         ∧ Message.content m = content
         ∧ Message.direction m = Outgoing
         ∧ Message.isAutoReply m = false
         ∧ Message.status m = Sent)
  ∧ (m_success (fst result) = false →
     messages (snd result) = messages w
     ∧ m_messageId (fst result) = None
     ∧ is_Some (m_error (fst result))).
Proof.
  intros result. subst result. split; [apply sendManualMessage_customers|].
  unfold sendManualMessage, SettingsDatabase.get, MessageDatabase.create.
  destruct (CustomerDatabase.findByPhoneNumber [] w) as [c|]; [|by split].
  split; intros Hok.
  - split; [by exists c|].
    repeat case_match; simplify_eq/=; try done; eexists; split; done.
  - repeat case_match; simplify_eq/=; try done; eauto.
Qed.

(** ** Status events *)

(** X12. A status event creates, removes and moves nothing: the
    customers, the settings and the number of messages are as before, and
    every message is where it was, unchanged, except the first message
    with the channel message id, of which only the status and the update
    time change. A later message with the same channel message id is never
    reached. *)
Theorem processStatusUpdate_touches_one_status e messageId status w :
  let w' := processStatusUpdate e messageId status w in
  customers w' = customers w
  ∧ botSettings w' = botSettings w
  ∧ length (messages w') = length (messages w)
  ∧ ∀ i m, messages w !! i = Some m →
      (firstMessageWith messageId w i m
       ∧ messages w' !! i
         = Some (Message.withStatus m (coerceStatus status) (ValidDate (now e))))
      ∨ (¬ firstMessageWith messageId w i m ∧ messages w' !! i = Some m).
Proof.
  intros w'. subst w'. unfold processStatusUpdate, MessageDatabase.updateStatus.
  destruct (list_find _ (messages w)) as [[k m0]|] eqn:Hfind; cbn [snd].
  - pose proof Hfind as Hfirst. apply list_find_Some in Hfirst.
    destruct Hfirst as (Hk & Hid & Hbefore).
    cbn [customers botSettings messages setMessages].
    rewrite length_insert. do 3 (split; [done|]).
    intros i m Hi. destruct (decide (i = k)) as [->|Hne].
    + rewrite list_lookup_insert_eq by by eapply lookup_lt_Some.
      assert (m0 = m) as -> by congruence. by left.
    + rewrite list_lookup_insert_ne by done. right. split; [|done].
      intros (_ & Hidm & Hfirst). destruct (Nat.lt_total i k) as [Hlt|[?|Hlt]].
      * by apply (Hbefore i m).
      * done.
      * by apply (Hfirst k m0).
  - do 3 (split; [done|]). intros i m Hi. right. split; [|done].
    intros (_ & Hidm & _).
    apply list_find_None in Hfind. rewrite Forall_forall in Hfind.
    apply (Hfind m); [by eapply list_elem_of_lookup_2|done].
Qed.

(** ** Phone numbers *)

Lemma filter_all {A} (P : A → Prop) `{!∀ x, Decision (P x)} (l : list A) :
  Forall P l → filter P l = l.
Proof.
  induction 1 as [|x l Hx _ IH]; [done|]. by rewrite filter_cons_True, IH.
Qed.

Lemma filter_satisfy {A} (P : A → Prop) `{!∀ x, Decision (P x)} (l : list A) :
  Forall P (filter P l).
Proof. apply Forall_forall. intros x Hx. by apply list_elem_of_filter in Hx as [? _]. Qed.


Lemma formatter_cases phoneNumber :
  let cleaned := filter (λ c, WhatsAppUtil.isDigit c = true) phoneNumber in
  MessageFormatter.formatPhoneNumber phoneNumber
  = if bool_decide (length cleaned = 10%nat) then js "+1" ++ cleaned
    else js "+" ++ cleaned.
Proof.
  cbv zeta. unfold MessageFormatter.formatPhoneNumber.
  destruct (bool_decide (length _ = 11%nat)) eqn:H11; cbn [andb]; [|done].
  apply bool_decide_eq_true in H11.
  rewrite (bool_decide_eq_false_2 (length _ = 10%nat)) by lia.
  by destruct (startsWith _ _).
Qed.

Lemma formatter_cleaned_plus l :
  filter (λ c, WhatsAppUtil.isDigit c = true) (js "+" ++ l)
  = filter (λ c, WhatsAppUtil.isDigit c = true) l.
Proof. done. Qed.

Lemma formatter_cleaned_plus_one l :
  filter (λ c, WhatsAppUtil.isDigit c = true) (js "+1" ++ l)
  = 0x31%N :: filter (λ c, WhatsAppUtil.isDigit c = true) l.
Proof. done. Qed.

(** X14. [MessageFormatter.formatPhoneNumber] answers a plus sign followed
    by digits only; it gives a ten-digit number the country code 1, so
    that the number written with and without that code is formatted the
    same; and formatting a formatted number changes nothing. *)
Theorem formatter_phone_number_normal_form (phoneNumber : JSString) :
  let formatted := MessageFormatter.formatPhoneNumber phoneNumber in
  let cleaned := filter (λ c, WhatsAppUtil.isDigit c = true) phoneNumber in
  (∃ digits, formatted = 0x2B%N :: digits
             ∧ Forall (λ c, WhatsAppUtil.isDigit c = true) digits
             ∧ (digits = cleaned ∨ digits = 0x31%N :: cleaned ∧ length cleaned = 10%nat))
  ∧ MessageFormatter.formatPhoneNumber formatted = formatted
  ∧ (length cleaned = 10%nat →
     MessageFormatter.formatPhoneNumber (js "1" ++ phoneNumber) = formatted).
Proof.
  cbv zeta. rewrite !formatter_cases. cbv zeta.
  set (cleaned := filter _ phoneNumber).
  assert (Hdigits : Forall (λ c, WhatsAppUtil.isDigit c = true) cleaned)
    by apply filter_satisfy.
  split; [|split].
  - case_bool_decide as Hlen.
    + exists (0x31%N :: cleaned). split; [done|]. split; [|by right].
      by apply Forall_cons.
    + exists cleaned. eauto.
  - destruct (decide (length cleaned = 10%nat)) as [Hlen|Hlen].
    + rewrite (bool_decide_eq_true_2 (length cleaned = 10%nat)) by done.
      rewrite formatter_cleaned_plus_one, (filter_all _ cleaned Hdigits).
      rewrite bool_decide_eq_false_2; [done|]. cbn. lia.
    + rewrite (bool_decide_eq_false_2 (length cleaned = 10%nat)) by done.
      rewrite formatter_cleaned_plus, (filter_all _ cleaned Hdigits).
      by rewrite bool_decide_eq_false_2.
  - intros Hlen. rewrite (bool_decide_eq_true_2 (length cleaned = 10%nat)) by done.
    replace (filter _ (js "1" ++ phoneNumber)) with (0x31%N :: cleaned) by done.
    rewrite bool_decide_eq_false_2; [done|]. cbn. lia.
Qed.

(** ** Business hours *)

Lemma lexLt_irrefl a : ¬ lexLt a a.
Proof.
  induction a as [|x a IH]; inversion 1; subst; [lia|auto].
Qed.

Lemma lexLt_trans a b c : lexLt a b → lexLt b c → lexLt a c.
Proof.
  intros Hab. revert c. induction Hab as [y b|x y a b Hxy|x a b Hab IH];
    intros c Hbc; inversion Hbc; subst.
  - constructor.
  - constructor.
  - apply lexLt_head. lia.
  - by apply lexLt_head.
  - by apply lexLt_head.
  - apply lexLt_tail. auto.
Qed.

Lemma lexLe_lexLt_trans a b c : lexLe a b → lexLt b c → lexLt a c.
Proof. intros [->|Hab] Hbc; [done|]. by eapply lexLt_trans. Qed.

Lemma lexLt_lexLe_trans a b c : lexLt a b → lexLe b c → lexLt a c.
Proof. intros Hab [<-|Hbc]; [done|]. by eapply lexLt_trans. Qed.

(** X15. A day whose closing time sorts before its opening time, as an
    entry for the night from 22:00 to 06:00 does, is never open: whatever
    the local time, [isBusinessHour] answers false on that day. *)
Theorem isBusinessHour_closing_before_opening
    (e : Env) (timezone : JSString)
    (schedule : gmap JSString BotSettings.DaySchedule)
    (day : Weekday) (currentTime : JSString) (daySchedule : BotSettings.DaySchedule) :
  localWeekday e timezone = Some day →
  localTime e timezone = Some currentTime →
  schedule !! weekdayKey day = Some daySchedule →
  jsLt (BotSettings.end_ daySchedule) (BotSettings.start daySchedule) = true →
  BusinessHours.isBusinessHour e timezone schedule = false.
Proof.
  intros Hday Htime Hentry Hinverted. unfold BusinessHours.isBusinessHour.
  rewrite Hday, Htime, Hentry. destruct (BotSettings.enabled daySchedule); [|done].
  cbn [negb]. apply not_true_is_false. rewrite andb_true_iff, !jsLe_lexLe.
  intros [Hopen Hclose]. apply jsLt_lexLt in Hinverted.
  apply (lexLt_irrefl currentTime).
  eapply lexLe_lexLt_trans; [exact Hclose|].
  eapply lexLt_lexLe_trans; [exact Hinverted|exact Hopen].
Qed.

Lemma isBusinessHour_closing_before_opening_witness :
  let night := {| BotSettings.start := js "22:00"; BotSettings.end_ := js "06:00";
                  BotSettings.enabled := true |} in
  let e := {| now := 0; newCustomerId := []; newIncomingId := []; newOutgoingId := [];
              windowOrigin := None;
              localWeekday := λ _, Some Monday;
              localTime := λ _, Some (js "23:15");
              graphSend := λ _ _ _, None;
              graphMarkRead := λ _ _, false |} in
  BusinessHours.isBusinessHour e (js "Europe/Paris")
    (<[js "monday" := night]> SettingsDatabase.defaultSchedule) = false.
Proof.
  cbv zeta.
  apply (isBusinessHour_closing_before_opening _ _ _ Monday (js "23:15")
           {| BotSettings.start := js "22:00"; BotSettings.end_ := js "06:00";
              BotSettings.enabled := true |}); reflexivity.
Defined.

(** ** The webhook route *)

Lemma sendManualMessage_appends_outgoing e customerId content w :
  messages (snd (sendManualMessage e customerId content w)) = messages w
  ∨ ∃ m, messages (snd (sendManualMessage e customerId content w)) = messages w ++ [m]
         ∧ Message.direction m = Outgoing.
Proof.
  unfold sendManualMessage, SettingsDatabase.get, MessageDatabase.create.
  repeat case_match; simplify_eq/=; eauto.
Qed.

Lemma step_incomingMessages e ev w :
  length (incomingMessages (step e ev w))
  = (length (incomingMessages w) + length (WebhookRoute.eventMessages [ev]))%nat.
Proof.
  unfold incomingMessages. destruct ev as [message contacts|messageId status|customerId content];
    cbn [step WebhookRoute.eventMessages mbind list_bind app length].
  - destruct (processIncomingMessage_messages e message contacts w)
      as (sent & _ & Hms). cbv zeta in Hms. destruct sent.
    + destruct Hms as (reply & -> & _ & Hout & _).
      rewrite filter_app, length_app, filter_cons_True by done.
      rewrite filter_cons_False by (rewrite Hout; done). done.
    + rewrite Hms, filter_app, length_app, filter_cons_True by done. done.
  - rewrite Nat.add_0_r. unfold processStatusUpdate, MessageDatabase.updateStatus.
    destruct (list_find _ (messages w)) as [[i m]|] eqn:Hfind; [|done].
    apply list_find_Some in Hfind as (Hi & _). cbn.
    by apply filter_length_insert with (x := m).
  - rewrite Nat.add_0_r.
    destruct (sendManualMessage_appends_outgoing e customerId content w)
      as [->|(m & -> & Hout)]; [done|].
    rewrite filter_app, length_app, filter_cons_False by (rewrite Hout; done).
    cbn. lia.
Qed.

Lemma eventMessages_app evs evs' :
  WebhookRoute.eventMessages (evs ++ evs')
  = WebhookRoute.eventMessages evs ++ WebhookRoute.eventMessages evs'.
Proof. unfold WebhookRoute.eventMessages. apply bind_app. Qed.

Lemma run_incomingMessages (envOf : nat → Env) evs w :
  length (incomingMessages (run (imap (λ k ev, (envOf k, ev)) evs) w))
  = (length (incomingMessages w) + length (WebhookRoute.eventMessages evs))%nat.
Proof.
  revert envOf w. induction evs as [|ev evs IH]; intros envOf w.
  - cbn. lia.
  - rewrite imap_cons. cbn [run].
    rewrite (IH (envOf ∘ S)), step_incomingMessages.
    change (ev :: evs) with ([ev] ++ evs).
    rewrite (eventMessages_app [ev] evs), length_app. lia.
Qed.

Lemma eventMessages_changeEvents change :
  WebhookRoute.eventMessages (WebhookRoute.changeEvents change)
  = match WebhookRoute.ch_field change with
    | WebhookRoute.FieldMessages =>
        default [] (WebhookRoute.v_messages (WebhookRoute.ch_value change))
    | WebhookRoute.FieldMessageTemplateStatusUpdate => []
    end.
Proof.
  unfold WebhookRoute.changeEvents. destruct (WebhookRoute.ch_field change); [|done].
  rewrite eventMessages_app.
  set (contacts := WebhookRoute.v_contacts _).
  generalize (default [] (WebhookRoute.v_messages (WebhookRoute.ch_value change))).
  generalize (default [] (WebhookRoute.v_statuses (WebhookRoute.ch_value change))).
  intros statuses msgs.
  assert (Hst : WebhookRoute.eventMessages
                  ((λ s, StatusUpdate (WebhookRoute.st_id s) (WebhookRoute.st_status s))
                     <$> statuses) = []).
  { induction statuses as [|s statuses IH]; [done|]. exact IH. }
  rewrite Hst, app_nil_r.
  induction msgs as [|m msgs IH]; [done|].
  cbn. f_equal. exact IH.
Qed.

Lemma eventMessages_payloadEvents payload :
  WebhookRoute.eventMessages (WebhookRoute.payloadEvents payload)
  = WebhookRoute.deliveredMessages payload.
Proof.
  unfold WebhookRoute.payloadEvents, WebhookRoute.deliveredMessages.
  induction (WebhookRoute.entry payload) as [|en ens IH]; [done|].
  rewrite !bind_cons, eventMessages_app, IH. f_equal.
  induction (WebhookRoute.en_changes en) as [|ch chs IHc]; [done|].
  rewrite !bind_cons, eventMessages_app, IHc. f_equal.
  apply eventMessages_changeEvents.
Qed.

(** X16. The webhook [POST] never answers anything but 200, whatever the
    signature header: a signature that is given is accepted, a body that
    does not parse is acknowledged with the store untouched, and so is a
    walk that throws, with what was done before kept. On a body that
    parses to a payload of the declared type every message of every
    'messages' change is put on record as one inbound message, whatever the
    statuses delivered along and whether replies went out: the inbound
    records grow by exactly the number of messages delivered. When the
    walk throws they grow by the number of messages handed to the
    processor before. *)
Theorem webhook_post_records_every_message
    (envOf : nat → Env) (signature : option JSString) (body : JSString)
    (parsed : WebhookRoute.Delivery) (w : World) :
  let answer := WebhookRoute.post envOf signature body parsed w in
  WebhookRoute.statusCode (fst answer) = 200
  ∧ match parsed with
    | WebhookRoute.Payload payload =>
        fst answer = WebhookRoute.Acknowledged
        ∧ length (incomingMessages (snd answer))
          = (length (incomingMessages w)
             + length (WebhookRoute.deliveredMessages payload))%nat
    | WebhookRoute.Interrupted handled =>
        fst answer = WebhookRoute.ProcessingFailed
        ∧ length (incomingMessages (snd answer))
          = (length (incomingMessages w)
             + length (WebhookRoute.eventMessages handled))%nat
    | WebhookRoute.Unparsable => answer = (WebhookRoute.ProcessingFailed, w)
    end.
Proof.
  cbv zeta. unfold WebhookRoute.post.
  assert (Hsig : WebhookRoute.signatureRefused body signature = false).
  { unfold WebhookRoute.signatureRefused, WhatsAppUtil.verifySignature.
    destruct signature as [s|]; [|done]. by destruct (bool_decide (s = [])). }
  rewrite Hsig. destruct parsed as [|payload|handled]; [done|..]; cbn [fst snd].
  - split; [done|]. split; [done|].
    by rewrite run_incomingMessages, eventMessages_payloadEvents.
  - split; [done|]. split; [done|]. by rewrite run_incomingMessages.
Qed.

(** ** The settings route *)

Lemma settings_update_unfold e updates w :
  SettingsUpdate.update e updates w
  = (let s := SettingsUpdate.spread
                (default (SettingsDatabase.defaultSettings e) (botSettings w))
                updates (ValidDate (now e)) in
     (s, setBotSettings (Some s) w)).
Proof.
  unfold SettingsUpdate.update.
  destruct (get_settings e w) as (s & -> & ->). by destruct w.
Qed.

Lemma nonEmpty_default (s : option JSString) (d : JSString) :
  d ≠ [] → default d (SettingsRoute.nonEmpty s) ≠ [].
Proof. by destruct s as [[|c r]|]. Qed.

(** X17. A [PUT] of the general settings stores what it answers, and a
    later [SettingsDatabase.get] reads it back. A credential that is
    absent from the body, or empty, leaves the stored one in place, so the
    route cannot clear a credential: settings that were configured stay
    configured. [isActive] is taken as given, also when it is false. The
    id, the webhook URL and the creation time are never changed, and the
    customers and messages are untouched. *)
Theorem settings_put_cannot_clear_credentials
    (e e' : Env) (body : SettingsRoute.GeneralBody) (w : World) :
  let before := default (SettingsDatabase.defaultSettings e) (botSettings w) in
  let answer := SettingsRoute.putGeneral e body w in
  let after := fst answer in
  let api s := WhatsAppAPIOps.make (BotSettings.accessToken s) (BotSettings.phoneNumberId s) in
  SettingsDatabase.get e' (snd answer) = (Some after, snd answer)
  ∧ customers (snd answer) = customers w
  ∧ messages (snd answer) = messages w
  ∧ BotSettings.isActive after
    = default (BotSettings.isActive before) (SettingsRoute.isActive body)
  ∧ BotSettings.accessToken after
    = match SettingsRoute.accessToken body with
      | Some (c :: r) => c :: r
      | _ => BotSettings.accessToken before
      end
  ∧ BotSettings.phoneNumberId after
    = match SettingsRoute.phoneNumberId body with
      | Some (c :: r) => c :: r
      | _ => BotSettings.phoneNumberId before
      end
  ∧ (WhatsAppAPIOps.configured (api before) = true →
     WhatsAppAPIOps.configured (api after) = true)
  ∧ BotSettings.id after = BotSettings.id before
  ∧ BotSettings.webhookUrl after = BotSettings.webhookUrl before
  ∧ BotSettings.createdAt after = BotSettings.createdAt before
  ∧ BotSettings.updatedAt after = ValidDate (now e).
Proof.
  cbv zeta. unfold SettingsRoute.putGeneral. rewrite settings_update_unfold.
  cbv zeta. cbn [fst snd].
  set (before := default _ (botSettings w)).
  split; [by destruct w|]. split; [by destruct w|]. split; [by destruct w|].
  cbn. split; [done|].
  split; [by destruct (SettingsRoute.accessToken body) as [[|c r]|]|].
  split; [by destruct (SettingsRoute.phoneNumberId body) as [[|c r]|]|].
  split; [|done].
  unfold WhatsAppAPIOps.configured. cbn.
  rewrite !andb_true_iff, !negb_true_iff, !bool_decide_eq_false.
  intros [Htoken Hphone]. split; by apply nonEmpty_default.
Qed.

(** ** The customers route *)




(** ** The messages route *)


(** ** The queries *)

Lemma insertNewestFirst_perm {A} (key : A → Date) x l :
  insertNewestFirst key x l ≡ₚ x :: l.
Proof.
  induction l as [|y l IH]; cbn; [done|].
  destruct (laterThan _ _); [|done]. rewrite IH. apply Permutation_swap.
Qed.

Lemma sortNewestFirst_perm {A} (key : A → Date) l : sortNewestFirst key l ≡ₚ l.
Proof.
  induction l as [|x l IH]; cbn; [done|].
  rewrite insertNewestFirst_perm. by f_equiv.
Qed.

Lemma laterThan_false_trans (a b c : Date) :
  validDate b → laterThan b a = false → laterThan c b = false →
  laterThan c a = false.
Proof.
  destruct a as [ta|], b as [tb|], c as [tc|]; cbn; try done.
  rewrite !Z.ltb_ge. lia.
Qed.

Lemma laterThan_asym (a b : Date) : laterThan a b = true → laterThan b a = false.
Proof.
  destruct a as [ta|], b as [tb|]; cbn; try done.
  rewrite Z.ltb_lt, Z.ltb_ge. lia.
Qed.

Lemma insertNewestFirst_sorted {A} (key : A → Date) x l :
  Forall (λ y, validDate (key y)) l →
  StronglySorted (λ a b, laterThan (key b) (key a) = false) l →
  StronglySorted (λ a b, laterThan (key b) (key a) = false) (insertNewestFirst key x l).
Proof.
  intros Hvalid Hsorted. induction Hsorted as [|y r Hr IH Hy]; cbn.
  - repeat constructor.
  - apply Forall_cons in Hvalid as [Hvy Hvr].
    destruct (laterThan (key y) (key x)) eqn:Hyx.
    + constructor; [by apply IH|].
      rewrite insertNewestFirst_perm. constructor; [|done].
      by apply laterThan_asym.
    + constructor; [by constructor|]. constructor; [done|].
      eapply Forall_impl; [exact Hy|]. cbn. intros z Hz.
      by apply (laterThan_false_trans _ (key y)).
Qed.

Lemma sortNewestFirst_sorted {A} (key : A → Date) l :
  Forall (λ y, validDate (key y)) l →
  StronglySorted (λ a b, laterThan (key b) (key a) = false) (sortNewestFirst key l).
Proof.
  induction 1 as [|x l Hx Hl IH]; [constructor|].
  change (sortNewestFirst key (x :: l))
    with (insertNewestFirst key x (sortNewestFirst key l)).
  apply insertNewestFirst_sorted; [|done].
  by rewrite sortNewestFirst_perm.
Qed.

Lemma StronglySorted_newestFirst {A} (key : A → Date) l :
  StronglySorted (λ a b, laterThan (key b) (key a) = false) l → newestFirst key l.
Proof.
  induction 1 as [|x l Hl IH Hx]; intros i j a b Hi Hj Hlt.
  - done.
  - destruct j as [|j]; [lia|]. cbn in Hj. destruct i as [|i]; cbn in Hi.
    + injection Hi as ->. rewrite Forall_forall in Hx.
      apply Hx. by eapply list_elem_of_lookup_2.
    + apply (IH i j); [done..|lia].
Qed.

Lemma sortNewestFirst_newestFirst {A} (key : A → Date) l :
  Forall (λ y, validDate (key y)) l → newestFirst key (sortNewestFirst key l).
Proof. intros. by apply StronglySorted_newestFirst, sortNewestFirst_sorted. Qed.

Lemma newestFirst_tail {A} (key : A → Date) x l :
  newestFirst key (x :: l) → newestFirst key l.
Proof. intros Hl i j a b Hi Hj Hlt. apply (Hl (S i) (S j)); [done..|lia]. Qed.

Lemma sortNewestFirst_fixed {A} (key : A → Date) l :
  newestFirst key l → sortNewestFirst key l = l.
Proof.
  induction l as [|x l IH]; intros Hl; [done|].
  change (sortNewestFirst key (x :: l))
    with (insertNewestFirst key x (sortNewestFirst key l)).
  rewrite IH by by eapply newestFirst_tail.
  destruct l as [|y l]; cbn; [done|].
  by rewrite (Hl 0%nat 1%nat x y) by (done || lia).
Qed.

Lemma newestFirst_take_drop {A} (key : A → Date) n k l :
  newestFirst key l → newestFirst key (take n (drop k l)).
Proof.
  intros Hl i j a b Hi Hj Hlt.
  apply lookup_take_Some in Hi as [Hi _]. apply lookup_take_Some in Hj as [Hj _].
  rewrite lookup_drop in Hi, Hj. apply (Hl (k + i)%nat (k + j)%nat); [done..|lia].
Qed.

Lemma newestFirst_jsSlice {A} (key : A → Date) start end_ l :
  newestFirst key l → newestFirst key (jsSlice start end_ l).
Proof. apply newestFirst_take_drop. Qed.

Lemma jsSlice_within {A} start end_ (l : list A) x :
  x ∈ jsSlice start end_ l → x ∈ l.
Proof.
  unfold jsSlice. intros Hx.
  apply list_elem_of_lookup in Hx as [i Hi].
  apply lookup_take_Some in Hi as [Hi _]. rewrite lookup_drop in Hi.
  by eapply list_elem_of_lookup_2.
Qed.

Lemma jsSlice_first {A} (n : Z) (l : list A) :
  0 <= n → jsSlice (Int 0) (Some (Int n)) l = take (Z.to_nat n) l.
Proof.
  intros Hn. unfold jsSlice, relativeIndex, toInteger.
  rewrite (proj2 (Z.ltb_ge 0 0)) by lia. rewrite (proj2 (Z.ltb_ge n 0)) by lia.
  cbn [Z.to_nat]. rewrite Nat.min_0_l, Nat.sub_0_r, drop_0.
  destruct (decide (Z.to_nat n ≤ length l)%nat).
  - by rewrite Nat.min_l.
  - rewrite Nat.min_r by lia. by rewrite !take_ge by lia.
Qed.

Lemma jsSlice_length {A} start (n : Z) (l : list A) :
  0 <= n → (length (jsSlice start (Some (Int n)) l) ≤ Z.to_nat n)%nat.
Proof.
  intros Hn. unfold jsSlice, relativeIndex. cbn [toInteger].
  rewrite (proj2 (Z.ltb_ge n 0)) by lia. rewrite length_take. lia.
Qed.

(** X20. [MessageDatabase.findByCustomerId] answers stored messages of
    that customer only. With no limit, or a limit of 0 or [NaN], which
    the test of [options.limit] takes as no limit, and no offset, it
    answers all of them; with a limit above 0 it answers at most that
    many, and [getConversationHistory] without a limit at most fifty. When
    the timestamps are valid dates the answer is ordered newest first. *)
Theorem findByCustomerId_page
    (customerId : JSString) (options : option MessageQueries.Options) (w : World) :
  let result := MessageQueries.findByCustomerId customerId options w in
  let unset (n : option JSNumber) := n = None ∨ n = Some (Int 0) ∨ n = Some NaN in
  (∀ m, m ∈ result → m ∈ messages w ∧ Message.customerId m = customerId)
  ∧ (unset (options ≫= MessageQueries.limit) →
     unset (options ≫= MessageQueries.offset) →
     result ≡ₚ filter (λ m, Message.customerId m = customerId) (messages w))
  ∧ (∀ n, options ≫= MessageQueries.limit = Some (Int n) → 0 < n →
       (length result ≤ Z.to_nat n)%nat)
  ∧ (Forall (λ m, validDate (Message.timestamp m)) (messages w) →
     newestFirst Message.timestamp result)
  ∧ (length (MessageQueries.getConversationHistory customerId None w) ≤ 50)%nat.
Proof.
  cbv zeta. unfold MessageQueries.getConversationHistory, MessageQueries.findByCustomerId.
  set (all := filter (λ m, Message.customerId m = customerId) (messages w)).
  set (sorted := sortNewestFirst Message.timestamp all).
  set (paged := match options ≫= MessageQueries.offset with
                | Some n => if truthyNumber n then jsSlice n None sorted else sorted
                | None => sorted
                end).
  assert (Hpaged : ∀ m, m ∈ paged → m ∈ sorted).
  { subst paged. intros m. destruct (options ≫= MessageQueries.offset) as [n|]; [|done].
    destruct (truthyNumber n); [|done]. apply jsSlice_within. }
  split; [|split; [|split; [|split]]].
  - intros m Hm.
    assert (Hin : m ∈ all).
    { rewrite <- (sortNewestFirst_perm Message.timestamp all). apply Hpaged.
      destruct (options ≫= MessageQueries.limit) as [n|]; [|done].
      destruct (truthyNumber n); [|done]. by eapply jsSlice_within. }
    apply list_elem_of_filter in Hin as [? ?]. done.
  - intros Hlimit Hoffset.
    assert (paged = sorted) as ->.
    { subst paged. by destruct Hoffset as [->|[->| ->]]. }
    rewrite <- (sortNewestFirst_perm Message.timestamp all).
    by destruct Hlimit as [->|[->| ->]].
  - intros n -> Hn. cbn [truthyNumber]. rewrite (proj2 (Z.eqb_neq n 0)) by lia.
    cbn [negb]. apply jsSlice_length. lia.
  - intros Hvalid.
    assert (Hsorted : newestFirst Message.timestamp sorted).
    { apply sortNewestFirst_newestFirst. subst all.
      rewrite Forall_forall in Hvalid |- *. intros m Hm.
      apply list_elem_of_filter in Hm as [_ Hm]. by apply Hvalid. }
    assert (Hpage : newestFirst Message.timestamp paged).
    { subst paged. destruct (options ≫= MessageQueries.offset) as [n|]; [|done].
      destruct (truthyNumber n); [|done]. by apply newestFirst_jsSlice. }
    destruct (options ≫= MessageQueries.limit) as [n|]; [|done].
    destruct (truthyNumber n); [|done]. by apply newestFirst_jsSlice.
  - cbn. by apply (jsSlice_length (Int 0) 50).
Qed.

(** X21. [MessageDatabase.findRecent] reorders the stored messages: after
    the call the store holds the same messages, sorted, and the answer is
    the head of the stored array, fifty entries when no limit is given
    (a hundred for [getRecentMessages]).
    Unlike in [findByCustomerId], a limit of 0 or [NaN] answers nothing.
    The customers and the settings are untouched, and the stores of a
    running process stay such. When the timestamps are valid dates the
    stored array is ordered newest first afterwards, and a further call
    leaves it as it is. *)
Theorem findRecent_sorts_the_store (limit limit' : option JSNumber) (w : World) :
  let answer := MessageQueries.findRecent limit w in
  messages (snd answer) ≡ₚ messages w
  ∧ customers (snd answer) = customers w
  ∧ botSettings (snd answer) = botSettings w
  ∧ (reachable w → reachable (snd answer))
  ∧ fst answer
    = match limit with
      | None => take 50 (messages (snd answer))
      | Some NaN => []
      | Some (Int n) => jsSlice (Int 0) (Some (Int n)) (messages (snd answer))
      end
  ∧ (limit = Some (Int 0) → fst answer = [])
  ∧ MessageQueries.getRecentMessages None w
    = (take 100 (messages (snd answer)), snd answer)
  ∧ (Forall (λ m, validDate (Message.timestamp m)) (messages w) →
     newestFirst Message.timestamp (messages (snd answer))
     ∧ snd (MessageQueries.findRecent limit' (snd answer)) = snd answer).
Proof.
  cbv zeta. unfold MessageQueries.findRecent. cbn [fst snd].
  set (sorted := sortNewestFirst Message.timestamp (messages w)).
  assert (Hperm : sorted ≡ₚ messages w) by apply sortNewestFirst_perm.
  assert (Hms : messages (setMessages sorted w) = sorted) by by destruct w.
  rewrite Hms.
  split; [done|]. split; [by destruct w|]. split; [by destruct w|].
  split; [intros Hw; by apply reachable_reordered|].
  split; [|split; [|split]].
  - destruct limit as [[n|]|]; cbn [from_option id]; [done| |].
    + unfold jsSlice. cbn. by rewrite Nat.min_0_l.
    + by rewrite (jsSlice_first 50 sorted).
  - intros ->. cbn [from_option id]. by rewrite (jsSlice_first 0 sorted).
  - unfold MessageQueries.getRecentMessages, MessageQueries.findRecent.
    cbn [from_option id]. fold sorted. by rewrite (jsSlice_first 100 sorted).
  - intros Hvalid.
    assert (Hsorted : newestFirst Message.timestamp sorted)
      by by apply sortNewestFirst_newestFirst.
    split; [done|]. rewrite sortNewestFirst_fixed by done. by destruct w.
Qed.

Lemma sample_timestamps_valid :
  let w := run [(Sample.env 1000, IncomingMessage (Sample.hi (js "wamid.1")) None)]
             Sample.world in
  Forall (λ m, validDate (Message.timestamp m)) (messages w).
Proof. vm_compute. repeat constructor. Qed.

(** X22. [CustomerDatabase.findAll] answers stored customers, of the
    status asked for when one is given, and never changes the store's
    order. It cuts the page before it sorts: with a limit above 0 and
    nothing else, the answer is the first customers in the order of their
    creation, as many as the limit, and not the most recent ones; only
    within that page are they ordered, newest first when the dates are
    valid. *)
Theorem findAll_pages_before_sorting
    (options : option CustomerQueries.Options) (w : World) :
  let result := CustomerQueries.findAll options w in
  let unset (n : option JSNumber) := n = None ∨ n = Some (Int 0) ∨ n = Some NaN in
  (∀ c, c ∈ result →
     c ∈ customers w
     ∧ ∀ st, options ≫= CustomerQueries.status = Some st → Customer.status c = st)
  ∧ (∀ n, options ≫= CustomerQueries.limit = Some (Int n) → 0 < n →
       options ≫= CustomerQueries.status = None →
       unset (options ≫= CustomerQueries.offset) →
       result ≡ₚ take (Z.to_nat n) (customers w))
  ∧ (Forall (λ c, validDate (Customer.lastMessageAt c)) (customers w) →
     newestFirst Customer.lastMessageAt result).
Proof.
  cbv zeta. unfold CustomerQueries.findAll.
  set (filtered := match options ≫= CustomerQueries.status with
                   | Some st => filter (λ c, Customer.status c = st) (customers w)
                   | None => customers w
                   end).
  set (skipped := match options ≫= CustomerQueries.offset with
                  | Some n => if truthyNumber n then jsSlice n None filtered else filtered
                  | None => filtered
                  end).
  set (page := match options ≫= CustomerQueries.limit with
               | Some n => if truthyNumber n then jsSlice (Int 0) (Some n) skipped
                           else skipped
               | None => skipped
               end).
  assert (Hfiltered : ∀ c, c ∈ filtered →
            c ∈ customers w
            ∧ ∀ st, options ≫= CustomerQueries.status = Some st → Customer.status c = st).
  { subst filtered. intros c. destruct (options ≫= CustomerQueries.status) as [st|].
    - intros Hc. apply list_elem_of_filter in Hc as [? ?].
      split; [done|]. by intros ? [= <-].
    - done. }
  assert (Hskipped : ∀ c, c ∈ skipped → c ∈ filtered).
  { subst skipped. intros c. destruct (options ≫= CustomerQueries.offset) as [n|]; [|done].
    destruct (truthyNumber n); [|done]. apply jsSlice_within. }
  assert (Hpage : ∀ c, c ∈ page → c ∈ skipped).
  { subst page. intros c. destruct (options ≫= CustomerQueries.limit) as [n|]; [|done].
    destruct (truthyNumber n); [|done]. apply jsSlice_within. }
  split; [|split].
  - intros c Hc. rewrite sortNewestFirst_perm in Hc. auto.
  - intros n Hlimit Hn Hstatus Hoffset. rewrite sortNewestFirst_perm.
    subst page skipped filtered. rewrite Hlimit, Hstatus.
    cbn [truthyNumber]. rewrite (proj2 (Z.eqb_neq n 0)) by lia. cbn [negb].
    assert ((match options ≫= CustomerQueries.offset with
             | Some n0 => if truthyNumber n0 then jsSlice n0 None (customers w)
                          else customers w
             | None => customers w
             end) = customers w) as ->
      by by destruct Hoffset as [->|[->| ->]].
    by rewrite jsSlice_first by lia.
  - intros Hvalid. apply sortNewestFirst_newestFirst.
    rewrite Forall_forall in Hvalid |- *. intros c Hc.
    apply Hvalid, Hfiltered. auto.
Qed.

(** ** Sanitising *)

Lemma removeTags_elem inTag s x : x ∈ Sanitizer.removeTags inTag s → x ∈ s.
Proof.
  revert inTag. induction s as [|c r IH]; intros inTag; cbn; [done|].
  destruct inTag.
  - intros Hx. apply elem_of_cons. right. by eapply IH.
  - destruct ((c =? 0x3C)%N && bool_decide (0x3E%N ∈ r)).
    + intros Hx. apply elem_of_cons. right. by eapply IH.
    + rewrite !elem_of_cons. intros [->|Hx]; [by left|]. right. by eapply IH.
Qed.

Lemma removeTags_no_tag inTag s : ¬ Sanitizer.hasTag (Sanitizer.removeTags inTag s).
Proof.
  revert inTag. induction s as [|c r IH]; intros inTag; cbn.
  - intros (before & after & Heq & _). by destruct before.
  - destruct inTag; [apply IH|].
    destruct ((c =? 0x3C)%N && bool_decide (0x3E%N ∈ r)) eqn:Hopen; [apply IH|].
    intros (before & after & Heq & Hclose). destruct before as [|c' before].
    + injection Heq as -> <-. cbn in Hopen. apply bool_decide_eq_false in Hopen.
      apply Hopen. by eapply removeTags_elem.
    + injection Heq as _ Heq. apply (IH false). by exists before, after.
Qed.

Lemma hasTag_within a s b : Sanitizer.hasTag s → Sanitizer.hasTag (a ++ s ++ b).
Proof.
  intros (before & after & -> & Hclose). exists (a ++ before), (after ++ b).
  split; [by rewrite <- !app_assoc|]. apply elem_of_app. by left.
Qed.

Lemma trimStart_decompose s : ∃ ws, s = ws ++ trimStart s.
Proof.
  induction s as [|c s [ws IH]]; [by exists []|]. cbn.
  destruct (isWhiteSpace c); [|by exists []].
  exists (c :: ws). cbn. by f_equal.
Qed.

Lemma trimEnd_decompose s : ∃ ws, s = trimEnd s ++ ws.
Proof.
  unfold trimEnd. destruct (trimStart_decompose (reverse s)) as [ws Hws].
  exists (reverse ws). rewrite <- reverse_app, <- Hws. by rewrite reverse_involutive.
Qed.

Lemma trim_decompose s : ∃ before after, s = before ++ trim s ++ after.
Proof.
  unfold trim. destruct (trimStart_decompose s) as [before Hbefore].
  destruct (trimEnd_decompose (trimStart s)) as [after Hafter].
  exists before, after. by rewrite <- Hafter.
Qed.

Lemma trimStart_idempotent s : trimStart (trimStart s) = trimStart s.
Proof.
  induction s as [|c s IH]; [done|]. cbn.
  destruct (isWhiteSpace c) eqn:Hc; [done|]. cbn. by rewrite Hc.
Qed.

Lemma trimStart_head s c r : trimStart s = c :: r → isWhiteSpace c = false.
Proof.
  induction s as [|c' s IH]; [done|]. cbn.
  destruct (isWhiteSpace c') eqn:Hc; [done|]. by intros [= <- _].
Qed.

Lemma trimStart_trimEnd s : trimStart (trimEnd (trimStart s)) = trimEnd (trimStart s).
Proof.
  destruct (trimEnd_decompose (trimStart s)) as [ws Hws].
  destruct (trimEnd (trimStart s)) as [|c r]; [done|].
  cbn. by rewrite (trimStart_head s c (r ++ ws)).
Qed.

Lemma trim_idempotent s : trim (trim s) = trim s.
Proof.
  unfold trim. rewrite trimStart_trimEnd. unfold trimEnd.
  by rewrite reverse_involutive, trimStart_idempotent.
Qed.

Lemma trim_length s : (length (trim s) ≤ length s)%nat.
Proof.
  destruct (trim_decompose s) as (before & after & Heq).
  rewrite Heq at 2. rewrite !length_app. lia.
Qed.

Lemma removeTags_fixed s : ¬ Sanitizer.hasTag s → Sanitizer.removeTags false s = s.
Proof.
  induction s as [|c r IH]; intros Hfree; [done|]. cbn.
  destruct ((c =? 0x3C)%N && bool_decide (0x3E%N ∈ r)) eqn:Hopen.
  - apply andb_true_iff in Hopen as [Hc Hclose].
    apply N.eqb_eq in Hc as ->. apply bool_decide_eq_true in Hclose.
    destruct Hfree. by exists [], r.
  - rewrite IH; [done|]. intros Htag. apply Hfree.
    by apply (hasTag_within [c] r []) in Htag; rewrite app_nil_r in Htag.
Qed.

Lemma scriptAt_hasTag s n : Sanitizer.scriptAt s = Some n → Sanitizer.hasTag s.
Proof.
  unfold Sanitizer.scriptAt.
  destruct (startsWithCI (js "<script") s) eqn:Hopen; [|done].
  destruct (list_find _ (drop 7 s)) as [[a x]|] eqn:Hfind; [|done]. intros _.
  apply list_find_Some in Hfind as (Ha & -> & _).
  destruct s as [|c r]; [done|].
  unfold startsWithCI, eqCI in Hopen. apply bool_decide_eq_true in Hopen.
  assert (Hpat : foldASCII <$> js "<script"
                 = [0x3C; 0x53; 0x43; 0x52; 0x49; 0x50; 0x54]%N)
    by (vm_compute; reflexivity).
  assert (Hseven : length (js "<script") = 7%nat) by (vm_compute; reflexivity).
  rewrite Hpat, Hseven in Hopen. cbn [take fmap list_fmap] in Hopen.
  injection Hopen as Hc _.
  assert (c = 0x3C%N) as ->.
  { unfold foldASCII in Hc.
    destruct ((0x61 <=? c)%N && (c <=? 0x7A)%N) eqn:Hrange; [|done].
    apply andb_true_iff in Hrange as [H1 H2].
    apply N.leb_le in H1, H2. lia. }
  exists [], r. split; [done|].
  rewrite lookup_drop in Ha. cbn in Ha. by eapply list_elem_of_lookup_2.
Qed.

Lemma removeScripts_fixed s : ¬ Sanitizer.hasTag s → Sanitizer.removeScripts 0 s = s.
Proof.
  induction s as [|c r IH]; intros Hfree; [done|].
  cbn [Sanitizer.removeScripts].
  destruct (Sanitizer.scriptAt (c :: r)) as [n|] eqn:Hscript.
  - destruct Hfree. by eapply scriptAt_hasTag.
  - rewrite IH; [done|]. intros Htag. apply Hfree.
    by apply (hasTag_within [c] r []) in Htag; rewrite app_nil_r in Htag.
Qed.

(** X23. The result of [sanitizeMessageContent] has at most 1000 code
    units, no white space at either end, and no [<] with a [>] after it,
    so that no tag is left in it. A content without such a pair is only cut
    to 1000 code units and trimmed, and sanitising a sanitised content
    changes nothing. *)
Theorem sanitizeMessageContent_result (content : JSString) :
  let result := Sanitizer.sanitizeMessageContent content in
  (length result ≤ 1000)%nat
  ∧ trim result = result
  ∧ ¬ Sanitizer.hasTag result
  ∧ (¬ Sanitizer.hasTag content → result = trim (take 1000 content))
  ∧ Sanitizer.sanitizeMessageContent result = result.
Proof.
  cbv zeta.
  assert (Hlen : ∀ c, (length (Sanitizer.sanitizeMessageContent c) ≤ 1000)%nat).
  { intros c. unfold Sanitizer.sanitizeMessageContent.
    etrans; [apply trim_length|]. rewrite length_take. lia. }
  assert (Hfree : ∀ c, ¬ Sanitizer.hasTag (Sanitizer.sanitizeMessageContent c)).
  { intros c Htag. unfold Sanitizer.sanitizeMessageContent in Htag.
    set (cleaned := Sanitizer.removeTags false _) in Htag.
    destruct (trim_decompose (take 1000 cleaned)) as (before & after & Heq).
    apply (hasTag_within before _ after) in Htag. rewrite <- Heq in Htag.
    apply (hasTag_within [] _ (drop 1000 cleaned)) in Htag.
    cbn [app] in Htag. rewrite take_drop in Htag.
    by apply removeTags_no_tag in Htag. }
  assert (Hplain : ∀ c, ¬ Sanitizer.hasTag c →
            Sanitizer.sanitizeMessageContent c = trim (take 1000 c)).
  { intros c Hc. unfold Sanitizer.sanitizeMessageContent.
    by rewrite (removeScripts_fixed c Hc), (removeTags_fixed c Hc). }
  assert (Htrim : ∀ c, trim (Sanitizer.sanitizeMessageContent c)
                       = Sanitizer.sanitizeMessageContent c)
    by (intros c; apply trim_idempotent).
  split; [apply Hlen|]. split; [apply Htrim|]. split; [apply Hfree|].
  split; [apply Hplain|].
  rewrite (Hplain _ (Hfree content)), take_ge by apply Hlen. apply Htrim.
Qed.

Lemma foldASCII_lt c : foldASCII c = 0x3C%N → c = 0x3C%N.
Proof.
  unfold foldASCII.
  destruct ((0x61 <=? c)%N && (c <=? 0x7A)%N) eqn:Hrange; [|done].
  apply andb_true_iff in Hrange as [H1 H2]. apply N.leb_le in H1, H2. lia.
Qed.

Lemma startsWithCI_self pat rest : startsWithCI pat (pat ++ rest) = true.
Proof.
  unfold startsWithCI, eqCI. by rewrite take_app_length, bool_decide_eq_true_2.
Qed.

Lemma startsWithCI_head pat c r p s :
  pat = 0x3C%N :: p → c ≠ 0x3C%N → s = c :: r → startsWithCI pat s = false.
Proof.
  intros -> Hc ->. unfold startsWithCI, eqCI. apply bool_decide_eq_false.
  cbn. intros [= Heq _]. by apply foldASCII_lt in Heq.
Qed.

Lemma closingAt_found body rest :
  0x3C%N ∉ body → Forall (λ c, isLineTerminator c = false) body →
  Sanitizer.closingAt (body ++ js "</script>" ++ rest) = Some (length body).
Proof.
  induction body as [|c body IH]; intros Hlt Hline.
  - cbn [app length]. destruct (js "</script>" ++ rest) eqn:Heq;
      cbn [Sanitizer.closingAt]; rewrite <- Heq, startsWithCI_self; done.
  - apply not_elem_of_cons in Hlt as [Hc Hlt]. apply Forall_cons in Hline as [Hl Hline].
    cbn [app Sanitizer.closingAt length].
    rewrite (startsWithCI_head _ c (body ++ js "</script>" ++ rest) (js "/script>"))
      by done.
    rewrite Hl, IH by done. done.
Qed.

Lemma closingAt_line_break body rest :
  0x3C%N ∉ body → Exists (λ c, isLineTerminator c = true) body →
  Sanitizer.closingAt (body ++ rest) = None.
Proof.
  induction body as [|c body IH]; intros Hlt Hline; [by apply Exists_nil in Hline|].
  apply not_elem_of_cons in Hlt as [Hc Hlt].
  cbn [app Sanitizer.closingAt].
  rewrite (startsWithCI_head _ c (body ++ rest) (js "/script>")) by done.
  destruct (isLineTerminator c) eqn:Hl; [done|].
  apply Exists_cons in Hline as [Hline|Hline]; [congruence|].
  by rewrite IH.
Qed.

Lemma list_find_first_gt attrs rest :
  0x3E%N ∉ attrs →
  list_find (λ c, c = 0x3E%N) (attrs ++ 0x3E%N :: rest) = Some (length attrs, 0x3E%N).
Proof.
  intros Hgt. apply list_find_Some. split; [|split; [done|]].
  - by rewrite lookup_app_r, Nat.sub_diag by lia.
  - intros j c Hj Hlt ->. rewrite lookup_app_l in Hj by done.
    apply Hgt. by eapply list_elem_of_lookup_2.
Qed.

Lemma drop_past {A} (l : list A) x k : drop (S (length l)) (l ++ x :: k) = k.
Proof.
  rewrite cons_middle, app_assoc. apply drop_app_length'.
  rewrite length_app. cbn. lia.
Qed.

Lemma removeScripts_skip skipped rest :
  Sanitizer.removeScripts (length skipped) (skipped ++ rest)
  = Sanitizer.removeScripts 0 rest.
Proof. induction skipped as [|c skipped IH]; [done|]. exact IH. Qed.

Lemma removeScripts_plain kept rest :
  0x3C%N ∉ kept →
  Sanitizer.removeScripts 0 (kept ++ rest) = kept ++ Sanitizer.removeScripts 0 rest.
Proof.
  induction kept as [|c kept IH]; intros Hlt; [done|].
  apply not_elem_of_cons in Hlt as [Hc Hlt].
  cbn [app Sanitizer.removeScripts]. unfold Sanitizer.scriptAt.
  rewrite (startsWithCI_head _ c (kept ++ rest) (js "script")) by done.
  by rewrite IH.
Qed.

Lemma removeTags_inside attrs rest :
  0x3E%N ∉ attrs →
  Sanitizer.removeTags true (attrs ++ 0x3E%N :: rest) = Sanitizer.removeTags false rest.
Proof.
  induction attrs as [|c attrs IH]; intros Hgt; [done|].
  apply not_elem_of_cons in Hgt as [Hc Hgt]. cbn [app Sanitizer.removeTags].
  rewrite (proj2 (N.eqb_neq c 0x3E)) by done. by apply IH.
Qed.

Lemma removeTags_plain kept rest :
  0x3C%N ∉ kept →
  Sanitizer.removeTags false (kept ++ rest) = kept ++ Sanitizer.removeTags false rest.
Proof.
  induction kept as [|c kept IH]; intros Hlt; [done|].
  apply not_elem_of_cons in Hlt as [Hc Hlt]. cbn [app Sanitizer.removeTags].
  rewrite (proj2 (N.eqb_neq c 0x3C)) by done. cbn [andb]. by rewrite IH.
Qed.

(** X24. A script element at the head of the content, its body on one line
    and without a [<], is removed together with its body. When the body
    spans lines the element is not recognised: only its two tags are
    removed, and the body stays in the result as text. *)
Theorem sanitize_script_element (attrs body rest : JSString) :
  0x3E%N ∉ attrs → 0x3C%N ∉ body →
  (Forall (λ c, isLineTerminator c = false) body →
   Sanitizer.sanitizeMessageContent
     (js "<script" ++ attrs ++ js ">" ++ body ++ js "</script>" ++ rest)
   = Sanitizer.sanitizeMessageContent rest)
  ∧ (Exists (λ c, isLineTerminator c = true) body → 0x3C%N ∉ attrs →
     Sanitizer.sanitizeMessageContent
       (js "<script" ++ attrs ++ js ">" ++ body ++ js "</script>")
     = trim (take 1000 body)).
Proof.
  intros Hattrs Hbody. split.
  - intros Hline. unfold Sanitizer.sanitizeMessageContent. do 3 f_equal.
    set (element := js "script" ++ attrs ++ js ">" ++ body ++ js "</script>").
    assert (Hscript :
      Sanitizer.scriptAt (js "<script" ++ attrs ++ js ">" ++ body ++ js "</script>" ++ rest)
      = Some (S (length element))).
    { unfold Sanitizer.scriptAt. rewrite startsWithCI_self.
      replace (drop 7 (js "<script" ++ attrs ++ js ">" ++ body ++ js "</script>" ++ rest))
        with (attrs ++ 0x3E%N :: (body ++ js "</script>" ++ rest)) by done.
      rewrite (list_find_first_gt attrs _ Hattrs).
      rewrite drop_past.
      rewrite closingAt_found by done. cbn [fmap option_fmap option_map].
      f_equal. subst element. rewrite !length_app. cbn. lia. }
    replace (js "<script" ++ attrs ++ js ">" ++ body ++ js "</script>" ++ rest)
      with (0x3C%N :: element ++ rest) in *
      by (subst element; by rewrite <- !app_assoc).
    cbn [Sanitizer.removeScripts]. rewrite Hscript.
    rewrite Nat.sub_succ, Nat.sub_0_r. apply removeScripts_skip.
  - intros Hline Hattrs'. unfold Sanitizer.sanitizeMessageContent. do 2 f_equal.
    assert (Hnone : Sanitizer.scriptAt
                      (js "<script" ++ attrs ++ js ">" ++ body ++ js "</script>") = None).
    { unfold Sanitizer.scriptAt. rewrite startsWithCI_self.
      replace (drop 7 (js "<script" ++ attrs ++ js ">" ++ body ++ js "</script>"))
        with (attrs ++ 0x3E%N :: (body ++ js "</script>")) by done.
      rewrite (list_find_first_gt attrs _ Hattrs).
      rewrite drop_past.
      by rewrite closingAt_line_break. }
    assert (Hkept : Sanitizer.removeScripts 0
                      (js "<script" ++ attrs ++ js ">" ++ body ++ js "</script>")
                    = js "<script" ++ attrs ++ js ">" ++ body ++ js "</script>").
    { change (js "<script" ++ attrs ++ js ">" ++ body ++ js "</script>")
        with (0x3C%N :: (js "script" ++ attrs ++ js ">" ++ body ++ js "</script>")) in *.
      cbn [Sanitizer.removeScripts]. rewrite Hnone. f_equal.
      rewrite !(app_assoc _ _ (js "</script>")).
      rewrite removeScripts_plain; [done|].
      rewrite !not_elem_of_app. split; [apply (bool_decide_unpack _); vm_compute; exact I|].
      split; [done|]. split; [|done].
      apply (bool_decide_unpack _). vm_compute. exact I. }
    rewrite Hkept.
    change (js "<script" ++ attrs ++ js ">" ++ body ++ js "</script>")
      with (0x3C%N :: (js "script" ++ attrs) ++ 0x3E%N :: (body ++ js "</script>")).
    cbn [Sanitizer.removeTags].
    rewrite bool_decide_eq_true_2
      by (rewrite elem_of_app, elem_of_cons; right; by left).
    cbn [N.eqb Pos.eqb andb].
    rewrite removeTags_inside.
    + rewrite removeTags_plain by done. by rewrite app_nil_r.
    + rewrite not_elem_of_app. split; [|done].
      apply (bool_decide_unpack _). vm_compute. exact I.
Qed.

Lemma sanitize_script_element_witness :
  Sanitizer.sanitizeMessageContent
    (js "<script" ++ js " defer" ++ js ">" ++ js "alert(1)" ++ js "</script>"
     ++ js " Hi <b>there</b> ")
  = js "Hi there".
Proof.
  rewrite (proj1 (sanitize_script_element (js " defer") (js "alert(1)")
                    (js " Hi <b>there</b> ") ltac:(apply (bool_decide_unpack _); vm_compute; exact I)
                    ltac:(apply (bool_decide_unpack _); vm_compute; exact I))).
  - vm_compute. reflexivity.
  - vm_compute. repeat constructor.
Defined.
